(** * Benchmark comparison engine (comparison.cjs): a shallow embedding

    The development follows the source top to bottom: the numeric helpers
    and [getStatusEmoji], [formatDiff], the JSON documents and the metric
    extractors, [generateContractComparisonTable], [findBenchmarkPairs]
    and [runComparison]; then the profiler (profiler.ts) and, in [Double],
    the arithmetic of the program on IEEE-754 doubles.

    Conventions of the embedding.
    - The numbers of the program are IEEE-754 binary64 values.  [Double]
      embeds [getStatusEmoji], [formatDiff] and the gate counts of the
      profiler on Rocq's primitive floats; what depends on rounding, on
      [NaN] or on the infinities is stated and proved there.
    - The JSON documents, the rows of the table and the reports of the
      profiler carry the numbers of the text, which are rationals ([Q]).
      [getStatusEmoji] and [formatDiff] over [Q] read the same code in
      exact arithmetic, with [Infinity] as a constructor of [number]; they
      serve the properties that rest on the tests both readings decide
      alike (zero, positive, equal), on the names and the order of the
      rows, and the comparison of the two readings.
    - A JavaScript string is the list of its UTF-16 code units.
    - A call returns, throws, or leaves the model ([outcome]); the last
      happens only where a metric field of a report holds a JSON value
      that is not a number.
    - [console.log]/[console.warn] calls have no influence on any returned
      value and are left out.
    - Host services (the file system, [JSON.parse], [path.join],
      [String.prototype.localeCompare]) are the fields of [Host].
      [Number.prototype.toLocaleString] prints with the default locale of
      the process: it is a parameter of [Double.formatDiff], and the one
      of the [en-US] locale in the table over [Q]. *)

From Stdlib Require Import ZArith QArith Qround Qabs Bool List Lia.
From Stdlib Require Import Ascii String Permutation Sorted.
From Stdlib Require Import Floats.
From Stdlib Require DecimalFacts DecimalN Qpower.
Import ListNotations.

Local Open Scope Q_scope.

#[local] Set Warnings "-inexact-float".

(** ** Numbers *)

(** [x > y] and [x < y] on finite numbers. *)
Definition Qgtb (x y : Q) : bool := negb (Qle_bool x y).
Definition Qltb (x y : Q) : bool := negb (Qle_bool y x).

(** Values of the per-metric change: a finite number or [Infinity]. *)
Inductive number : Type :=
| Fin (q : Q)
| Infinity.

(** [isFinite(m)] *)
Definition isFinite (m : number) : bool :=
  match m with Fin _ => true | Infinity => false end.

(** [m === Infinity] *)
Definition isInfinity (m : number) : bool :=
  match m with Fin _ => false | Infinity => true end.

(** [m > t] and [m < t] for a finite [t]. *)
Definition num_gtb (m : number) (t : Q) : bool :=
  match m with Fin q => Qgtb q t | Infinity => true end.
Definition num_ltb (m : number) (t : Q) : bool :=
  match m with Fin q => Qltb q t | Infinity => false end.

(** ** Metrics and status *)

(** The objects [{ main, pr }] and [{ gates, daGas, l2Gas }]; the fields
    hold numbers in [getStatusEmoji] and raw JSON values while the table is
    being assembled. *)
Record MetricPair (T : Type) : Type := { main : T; pr : T }.

Arguments main {T} _.
Arguments pr {T} _.

Record Metrics (T : Type) : Type :=
  { gates : MetricPair T; daGas : MetricPair T; l2Gas : MetricPair T }.

Arguments gates {T} _.
Arguments daGas {T} _.
Arguments l2Gas {T} _.

(** The five emoji [getStatusEmoji] can return. *)
Inductive Status : Type :=
| Removed      (* U+1F6AE *)
| New          (* U+1F195 *)
| Regression   (* U+1F534 *)
| Improvement  (* U+1F7E2 *)
| Unchanged.   (* U+26AA *)

(** The ternary of lines 56-61, for one metric, in exact arithmetic
    ([Double.diffPct] is the one on doubles). *)
Definition diffPct (m : MetricPair Q) : number :=
  if Qeq_bool (main m) 0
  then (if Qgtb (pr m) 0 then Infinity else Fin 0)
  else Fin ((pr m - main m) / main m).

(** [getStatusEmoji] in exact arithmetic ([Double.getStatusEmoji] is the
    one on doubles). *)
Definition getStatusEmoji (metrics : Metrics Q) (threshold : Q) : Status :=
  let isRemoved :=
    Qeq_bool (pr (gates metrics)) 0 && Qeq_bool (pr (daGas metrics)) 0
    && Qeq_bool (pr (l2Gas metrics)) 0
    && (Qgtb (main (gates metrics)) 0 || Qgtb (main (daGas metrics)) 0
        || Qgtb (main (l2Gas metrics)) 0) in
  let isNew :=
    Qeq_bool (main (gates metrics)) 0 && Qeq_bool (main (daGas metrics)) 0
    && Qeq_bool (main (l2Gas metrics)) 0
    && (Qgtb (pr (gates metrics)) 0 || Qgtb (pr (daGas metrics)) 0
        || Qgtb (pr (l2Gas metrics)) 0) in
  if isRemoved then Removed
  else if isNew then New
  else
    let gateDiffPct := diffPct (gates metrics) in
    let daGasDiffPct := diffPct (daGas metrics) in
    let l2GasDiffPct := diffPct (l2Gas metrics) in
    let metricsDiffs :=
      filter isFinite [gateDiffPct; daGasDiffPct; l2GasDiffPct] in
    let hasInfiniteIncrease :=
      existsb isInfinity [gateDiffPct; daGasDiffPct; l2GasDiffPct] in
    let thresholdDecimal := threshold / 100 in
    let hasRegression :=
      hasInfiniteIncrease
      || existsb (fun m => num_gtb m thresholdDecimal) metricsDiffs in
    let hasImprovement :=
      existsb (fun m => num_ltb m (- thresholdDecimal)) metricsDiffs in
    if hasRegression then Regression
    else if hasImprovement then Improvement
    else Unchanged.

(** The four conditions of [getStatusEmoji], named for the proofs. *)
Definition isRemoved (metrics : Metrics Q) : bool :=
  Qeq_bool (pr (gates metrics)) 0 && Qeq_bool (pr (daGas metrics)) 0
  && Qeq_bool (pr (l2Gas metrics)) 0
  && (Qgtb (main (gates metrics)) 0 || Qgtb (main (daGas metrics)) 0
      || Qgtb (main (l2Gas metrics)) 0).

Definition isNew (metrics : Metrics Q) : bool :=
  Qeq_bool (main (gates metrics)) 0 && Qeq_bool (main (daGas metrics)) 0
  && Qeq_bool (main (l2Gas metrics)) 0
  && (Qgtb (pr (gates metrics)) 0 || Qgtb (pr (daGas metrics)) 0
      || Qgtb (pr (l2Gas metrics)) 0).

Definition diffPcts (metrics : Metrics Q) : list number :=
  [diffPct (gates metrics); diffPct (daGas metrics); diffPct (l2Gas metrics)].

Definition hasRegression (metrics : Metrics Q) (threshold : Q) : bool :=
  existsb isInfinity (diffPcts metrics)
  || existsb (fun m => num_gtb m (threshold / 100))
       (filter isFinite (diffPcts metrics)).

Definition hasImprovement (metrics : Metrics Q) (threshold : Q) : bool :=
  existsb (fun m => num_ltb m (- (threshold / 100)))
    (filter isFinite (diffPcts metrics)).

(** *** The classification in the specification's words, in exact
    arithmetic *)

Definition metricsOf (M : Metrics Q) : list (MetricPair Q) :=
  [gates M; daGas M; l2Gas M].

(** Removed: every candidate-side value is zero and some base-side value is
    positive.  New: every base-side value is zero and some candidate-side
    value is positive. *)
Definition removedCondition (M : Metrics Q) : Prop :=
  (forall m, In m (metricsOf M) -> pr m == 0)
  /\ exists m, In m (metricsOf M) /\ 0 < main m.

Definition newCondition (M : Metrics Q) : Prop :=
  (forall m, In m (metricsOf M) -> main m == 0)
  /\ exists m, In m (metricsOf M) /\ 0 < pr m.

(** Fractional change of one metric: infinite when the base is zero and the
    candidate positive; zero when both are zero; (candidate - base) / base
    otherwise. *)
Definition infiniteChange (m : MetricPair Q) : Prop :=
  main m == 0 /\ 0 < pr m.

Definition finiteChange (m : MetricPair Q) (c : Q) : Prop :=
  (main m == 0 /\ pr m == 0 /\ c == 0)
  \/ (~ main m == 0 /\ c == (pr m - main m) / main m).

Definition regressionCondition (M : Metrics Q) (T : Q) : Prop :=
  (exists m, In m (metricsOf M) /\ infiniteChange m)
  \/ (exists m c, In m (metricsOf M) /\ finiteChange m c /\ T / 100 < c).

(** ** Strings *)

(** A string is its sequence of UTF-16 code units. *)
Definition jsstring : Type := list N.

(** A literal of the source, all of whose characters are ASCII. *)
Definition lit (s : string) : jsstring :=
  map N_of_ascii (list_ascii_of_string s).

(** [a === b] on strings. *)
Fixpoint streq (a b : jsstring) : bool :=
  match a, b with
  | [], [] => true
  | x :: a', y :: b' => N.eqb x y && streq a' b'
  | _, _ => false
  end.

(** [s.startsWith(p)] *)
Fixpoint startsWith (s p : jsstring) : bool :=
  match p, s with
  | [], _ => true
  | _ :: _, [] => false
  | y :: p', x :: s' => N.eqb x y && startsWith s' p'
  end.

(** [s.endsWith(p)] *)
Definition endsWith (s p : jsstring) : bool :=
  startsWith (rev s) (rev p).

(** [s.includes(p)] *)
Fixpoint includes (s p : jsstring) : bool :=
  startsWith s p
  || match s with
     | [] => false
     | _ :: s' => includes s' p
     end.

(** [s.substring(0, n)] for [0 <= n <= s.length]. *)
Definition substring0 (s : jsstring) (n : nat) : jsstring := firstn n s.

(** [parts.join(sep)] *)
Fixpoint join (sep : jsstring) (parts : list jsstring) : jsstring :=
  match parts with
  | [] => []
  | [p] => p
  | p :: rest => p ++ sep ++ join sep rest
  end.

(** Order of the default [Array.prototype.sort]: code unit by code unit,
    a proper prefix first. *)
Fixpoint strcmp (a b : jsstring) : comparison :=
  match a, b with
  | [], [] => Eq
  | [], _ :: _ => Lt
  | _ :: _, [] => Gt
  | x :: a', y :: b' =>
      match N.compare x y with
      | Eq => strcmp a' b'
      | c => c
      end
  end.

Definition strlt (a b : jsstring) : Prop := strcmp a b = Lt.

(** ** Sorting

    [Array.prototype.sort] is stable; with a consistent comparator its
    result is the stable sorted arrangement, computed here by insertion.
    [cmp a b < 0] places [a] before [b]. *)
Section Sort.
Context {A : Type} (cmp : A -> A -> Z).

Fixpoint insertSorted (x : A) (l : list A) : list A :=
  match l with
  | [] => [x]
  | y :: l' =>
      if (cmp y x <? 0)%Z then y :: insertSorted x l' else x :: y :: l'
  end.

Fixpoint sortBy (l : list A) : list A :=
  match l with
  | [] => []
  | x :: l' => insertSorted x (sortBy l')
  end.

End Sort.

(** The comparator of a [sort()] call without argument. *)
Definition defaultCompare (a b : jsstring) : Z :=
  match strcmp a b with Lt => (-1)%Z | Eq => 0%Z | Gt => 1%Z end.

(** ** Number formatting *)

Fixpoint uint_digits (u : Decimal.uint) : jsstring :=
  match u with
  | Decimal.Nil => []
  | Decimal.D0 u' => 48%N :: uint_digits u'
  | Decimal.D1 u' => 49%N :: uint_digits u'
  | Decimal.D2 u' => 50%N :: uint_digits u'
  | Decimal.D3 u' => 51%N :: uint_digits u'
  | Decimal.D4 u' => 52%N :: uint_digits u'
  | Decimal.D5 u' => 53%N :: uint_digits u'
  | Decimal.D6 u' => 54%N :: uint_digits u'
  | Decimal.D7 u' => 55%N :: uint_digits u'
  | Decimal.D8 u' => 56%N :: uint_digits u'
  | Decimal.D9 u' => 57%N :: uint_digits u'
  end.

(** Decimal digits of a natural number, most significant first. *)
Definition digitsOf (n : Z) : jsstring := uint_digits (N.to_uint (Z.to_N n)).

(** Nearest integer to a non-negative rational, a tie going up. *)
Definition roundHalfUp (x : Q) : Z := Qfloor (x + (1 # 2)).

(** Digits in reverse order, a comma after every third one that has a
    successor; [k] digits of the current group are already out. *)
Fixpoint groupRev (rds : jsstring) (k : nat) : jsstring :=
  match rds with
  | [] => []
  | d :: rest =>
      match k with
      | 3%nat => 44%N :: d :: groupRev rest 1
      | _ => d :: groupRev rest (S k)
      end
  end.

Definition groupThousands (ds : jsstring) : jsstring :=
  rev (groupRev (rev ds) 0).

(** Left padding with ['0'] to [n] digits. *)
Definition padZeros (n : nat) (ds : jsstring) : jsstring :=
  repeat 48%N (n - List.length ds) ++ ds.

Fixpoint dropZeros (rds : jsstring) : jsstring :=
  match rds with
  | 48%N :: rest => dropZeros rest
  | _ => rds
  end.

(** [x.toLocaleString()] of a number under the [en-US] defaults: at most
    three fraction digits (nearest, ties away from zero), no trailing
    fraction zeros, integer digits in groups of three. *)
Definition toLocaleString (x : Q) : jsstring :=
  let r := roundHalfUp (Qabs x * 1000) in
  let frac := rev (dropZeros (rev (padZeros 3 (digitsOf (r mod 1000))))) in
  (if Qltb x 0 then lit "-" else [])
  ++ groupThousands (digitsOf (r / 1000))
  ++ match frac with [] => [] | _ => lit "." ++ frac end.

(** The text [toFixed(1)] gives for a number that stands for the real
    [x], for [|x| < 10^21] (from there on the host switches to exponent
    notation, which this model does not cover). *)
Definition toFixed1 (x : Q) : jsstring :=
  let m := padZeros 2 (digitsOf (roundHalfUp (Qabs x * 10))) in
  (if Qltb x 0 then lit "-" else [])
  ++ firstn (List.length m - 1) m ++ lit "." ++ skipn (List.length m - 1) m.

(** ** formatDiff *)

(** [formatDiff] in exact arithmetic, in a process of the [en-US] locale
    ([Double.formatDiff] is the one on doubles, for any host). *)
Definition formatDiff (main pr : Q) : jsstring :=
  if Qeq_bool main 0 && Qeq_bool pr 0 then []
  else if Qeq_bool main 0 then lit "+Inf%"
  else if Qeq_bool pr 0 then lit "-100%"
  else
    let diff := pr - main in
    if Qeq_bool diff 0 then []
    else
      let pct := (diff / main) * 100 in
      let sign := if Qgtb diff 0 then lit "+" else [] in
      if Qltb (Qabs pct) (1 # 100) && Qltb (Qabs diff) 1 then []
      else
        sign ++ toLocaleString diff ++ lit " (" ++ sign ++ toFixed1 pct
        ++ lit "%)".

(** The rendering in the specification's words: a number with a leading
    [+] when it is positive (a negative one carries its own [-]). *)
Definition plusSign (x : Q) : jsstring :=
  if Qgtb x 0 then lit "+" else [].

(** ** JSON values and the operations the source applies to them *)

#[local] Set Warnings "-register-all".

Inductive value : Type :=
| VUndefined
| VNull
| VBool (b : bool)
| VNum (q : Q)
| VStr (s : jsstring)
| VArr (elems : list value)
| VObj (props : list (jsstring * value)).
(* [props]: the own properties of a parsed object, each key once. *)

Inductive exn : Type := TypeError.

(** What a call does: it returns, it throws, or it reaches an operation on
    a metric that is not a number ([Unmodelled]: coercions of strings,
    booleans and objects to numbers are outside this model). *)
Inductive outcome (A : Type) : Type :=
| Returns (a : A)
| Throws (e : exn)
| Unmodelled.

Arguments Returns {A} a.
Arguments Throws {A} e.
Arguments Unmodelled {A}.

Definition bind {A B : Type} (c : outcome A) (k : A -> outcome B)
  : outcome B :=
  match c with
  | Returns a => k a
  | Throws e => Throws e
  | Unmodelled => Unmodelled
  end.

Notation "'let*' x ':=' c 'in' k" := (bind c (fun x => k))
  (at level 10, x name, c at level 100, k at level 200).

(** [!v] *)
Definition falsy (v : value) : bool :=
  match v with
  | VUndefined | VNull => true
  | VBool b => negb b
  | VNum q => Qeq_bool q 0
  | VStr s => match s with [] => true | _ => false end
  | VArr _ | VObj _ => false
  end.

Fixpoint lookup {A : Type} (k : jsstring) (props : list (jsstring * A))
  : option A :=
  match props with
  | [] => None
  | (k', v) :: rest => if streq k' k then Some v else lookup k rest
  end.

(** [v.k] for the property names the source reads ([results], [name],
    [totalGateCount], [gas], [gasLimits], [daGas], [l2Gas]): none of them
    is defined on a prototype of a parsed value. *)
Definition getProp (v : value) (k : jsstring) : outcome value :=
  match v with
  | VUndefined | VNull => Throws TypeError
  | VObj props =>
      Returns (match lookup k props with Some x => x | None => VUndefined end)
  | VBool _ | VNum _ | VStr _ | VArr _ => Returns VUndefined
  end.

(** [v?.k] *)
Definition optProp (v : value) (k : jsstring) : outcome value :=
  match v with
  | VUndefined | VNull => Returns VUndefined
  | _ => getProp v k
  end.

(** [v ?? d] *)
Definition orElse (v d : value) : value :=
  match v with
  | VUndefined | VNull => d
  | _ => v
  end.

(** Membership test of [Set]: primitives by value, objects by identity
    (two parsed objects are never the same object). *)
Definition sameValueZero (a b : value) : bool :=
  match a, b with
  | VUndefined, VUndefined => true
  | VNull, VNull => true
  | VBool x, VBool y => Bool.eqb x y
  | VNum x, VNum y => Qeq_bool x y
  | VStr x, VStr y => streq x y
  | _, _ => false
  end.

(** [new Set(l)], in insertion order; [seen] holds the elements so far. *)
Fixpoint setAdd (seen l : list value) : list value :=
  match l with
  | [] => seen
  | v :: l' =>
      if existsb (sameValueZero v) seen then setAdd seen l'
      else setAdd (seen ++ [v]) l'
  end.

Definition newSet (l : list value) : list value := setAdd [] l.

Fixpoint mapM {A B : Type} (f : A -> outcome B) (l : list A)
  : outcome (list B) :=
  match l with
  | [] => Returns []
  | x :: l' =>
      let* y := f x in
      let* ys := mapM f l' in
      Returns (y :: ys)
  end.

(** [arr.map(f)]: a value that is not an array has no callable [map]. *)
Definition arrayMap {B : Type} (arr : value) (f : value -> outcome B)
  : outcome (list B) :=
  match arr with
  | VArr elems => mapM f elems
  | _ => Throws TypeError
  end.

Fixpoint findM (f : value -> outcome bool) (l : list value)
  : outcome value :=
  match l with
  | [] => Returns VUndefined
  | x :: l' =>
      let* b := f x in
      if b then Returns x else findM f l'
  end.

(** [arr.find(f)] *)
Definition arrayFind (arr : value) (f : value -> outcome bool)
  : outcome value :=
  match arr with
  | VArr elems => findM f elems
  | _ => Throws TypeError
  end.

(** ** Metric extraction *)

(** [getDaGas] and [getL2Gas], lines 9 and 15. *)
Definition getDaGas (result : value) : outcome value :=
  let* gas := optProp result (lit "gas") in
  let* gasLimits := optProp gas (lit "gasLimits") in
  let* daGas := optProp gasLimits (lit "daGas") in
  Returns (orElse daGas (VNum 0)).

Definition getL2Gas (result : value) : outcome value :=
  let* gas := optProp result (lit "gas") in
  let* gasLimits := optProp gas (lit "gasLimits") in
  let* l2Gas := optProp gasLimits (lit "l2Gas") in
  Returns (orElse l2Gas (VNum 0)).

(** [result?.totalGateCount ?? 0], line 163. *)
Definition getTotalGateCount (result : value) : outcome value :=
  let* totalGateCount := optProp result (lit "totalGateCount") in
  Returns (orElse totalGateCount (VNum 0)).

(** ** The host

    Everything [comparison.cjs] asks of its environment.
    - [pathJoin] is [path.join].
    - [readdirSync dir] is [None] when [fs.readdirSync] throws.
    - [readJSON p] is [JSON.parse(fs.readFileSync(p, 'utf-8'))]: the parsed
      value, or the message of the error either call throws.
    - [localeCompare] is [String.prototype.localeCompare] in the host's
      default locale. *)
Record Host : Type :=
  { pathJoin : jsstring -> jsstring -> jsstring;
    readdirSync : jsstring -> option (list jsstring);
    existsSync : jsstring -> bool;
    readJSON : jsstring -> jsstring + value;
    localeCompare : jsstring -> jsstring -> Z }.

Record BenchmarkPair : Type :=
  { contractName : jsstring; baseJsonPath : jsstring; prJsonPath : jsstring }.

Record Inputs : Type :=
  { reportsDir : jsstring; baseSuffix : jsstring; prSuffix : jsstring;
    threshold : Q }.

Definition nl : jsstring := [10%N].
Definition dq : jsstring := [34%N].

(** ** findBenchmarkPairs *)

(** The body of the [for] loop, lines 92-108: the pairs one directory entry
    contributes. *)
Definition pairsOfFile (h : Host)
  (reportsDir baseSuffixPattern prSuffixPattern file : jsstring)
  : list BenchmarkPair :=
  if endsWith file prSuffixPattern then
    let contractName :=
      substring0 file (List.length file - List.length prSuffixPattern) in
    let baseFilename := contractName ++ baseSuffixPattern in
    let baseJsonPath := pathJoin h reportsDir baseFilename in
    let prJsonPath := pathJoin h reportsDir file in
    if existsSync h baseJsonPath then
      [ {| contractName := contractName;
           baseJsonPath := baseJsonPath;
           prJsonPath := prJsonPath |} ]
    else []
  else [].

Definition findBenchmarkPairs (h : Host)
  (reportsDir baseSuffix prSuffix : jsstring) : list BenchmarkPair :=
  let prSuffixPattern := prSuffix ++ lit ".benchmark.json" in
  let baseSuffixPattern := baseSuffix ++ lit ".benchmark.json" in
  match readdirSync h reportsDir with
  | Some files =>
      flat_map (pairsOfFile h reportsDir baseSuffixPattern prSuffixPattern)
        files
  | None => []
  end.

(** ** generateContractComparisonTable *)

(** The test of line 155: [None] when the name is skipped, the name when it
    survives.  A truthy name that is not a string has no [startsWith]. *)
Definition survivingName (name : value) : outcome (option jsstring) :=
  if falsy name then Returns None
  else
    match name with
    | VStr s =>
        if startsWith s (lit "unknown_function")
           || includes s (lit "(FAILED)")
           || streq s (lit "BENCHMARK_RUNNER_ERROR")
        then Returns None
        else Returns (Some s)
    | _ => Throws TypeError
    end.

(** [r => r.name === name], for a string [name]. *)
Definition hasName (name : jsstring) (r : value) : outcome bool :=
  let* n := getProp r (lit "name") in
  Returns (match n with VStr s => streq s name | _ => false end).

(** [comparison[name] = v] on a plain object: an own property is created
    or overwritten, except that assigning to [__proto__] goes to the
    accessor of [Object.prototype] and creates none. *)
Fixpoint setOwn {A : Type} (o : list (jsstring * A)) (k : jsstring) (v : A)
  : list (jsstring * A) :=
  match o with
  | [] => [(k, v)]
  | (k', v') :: rest =>
      if streq k' k then (k', v) :: rest else (k', v') :: setOwn rest k v
  end.

Definition assign {A : Type} (o : list (jsstring * A)) (k : jsstring) (v : A)
  : list (jsstring * A) :=
  if streq k (lit "__proto__") then o else setOwn o k v.

(** Array indices are the canonical decimal strings below [2^32 - 1]. *)
Definition digitValue (c : N) : option N :=
  if (48 <=? c)%N && (c <=? 57)%N then Some (c - 48)%N else None.

Fixpoint parseDigits (acc : N) (s : jsstring) : option N :=
  match s with
  | [] => Some acc
  | c :: s' =>
      match digitValue c with
      | Some d => parseDigits (acc * 10 + d)%N s'
      | None => None
      end
  end.

Definition arrayIndex (s : jsstring) : option N :=
  match s with
  | [] => None
  | [48%N] => Some 0%N
  | 48%N :: _ => None
  | _ =>
      match parseDigits 0 s with
      | Some n => if (n <? 4294967295)%N then Some n else None
      | None => None
      end
  end.

Definition isArrayIndex (s : jsstring) : bool :=
  match arrayIndex s with Some _ => true | None => false end.

Definition indexCompare (a b : jsstring) : Z :=
  match arrayIndex a, arrayIndex b with
  | Some x, Some y => (Z.of_N x - Z.of_N y)%Z
  | _, _ => 0%Z
  end.

(** [Object.keys(o)]: array-index keys in ascending numeric order, then the
    other keys in the order of their creation. *)
Definition objectKeys {A : Type} (o : list (jsstring * A)) : list jsstring :=
  sortBy indexCompare (filter isArrayIndex (map fst o))
  ++ filter (fun k => negb (isArrayIndex k)) (map fst o).

(** The loop of lines 154-167; [comparison] is the object built so far. *)
Fixpoint compareNames (mainResults prResults : value) (names : list value)
  (comparison : list (jsstring * Metrics value))
  : outcome (list (jsstring * Metrics value)) :=
  match names with
  | [] => Returns comparison
  | name :: rest =>
      let* surviving := survivingName name in
      match surviving with
      | None => compareNames mainResults prResults rest comparison
      | Some name =>
          let* mainResult := arrayFind mainResults (hasName name) in
          let* prResult := arrayFind prResults (hasName name) in
          let* gatesMain := getTotalGateCount mainResult in
          let* gatesPr := getTotalGateCount prResult in
          let* daGasMain := getDaGas mainResult in
          let* daGasPr := getDaGas prResult in
          let* l2GasMain := getL2Gas mainResult in
          let* l2GasPr := getL2Gas prResult in
          compareNames mainResults prResults rest
            (assign comparison name
               {| gates := {| main := gatesMain; pr := gatesPr |};
                  daGas := {| main := daGasMain; pr := daGasPr |};
                  l2Gas := {| main := l2GasMain; pr := l2GasPr |} |})
      end
  end.

(** Lines 148-167: the [comparison] object of two parsed documents. *)
Definition buildComparison (mainData prData : value)
  : outcome (list (jsstring * Metrics value)) :=
  let* mainResults := getProp mainData (lit "results") in
  let* mainNames := arrayMap mainResults (fun r => getProp r (lit "name")) in
  let* prResults := getProp prData (lit "results") in
  let* prNames := arrayMap prResults (fun r => getProp r (lit "name")) in
  compareNames mainResults prResults (newSet (mainNames ++ prNames)) [].

(** The six metric values of a row as numbers, when they all are. *)
Definition numericValue (v : value) : option Q :=
  match v with VNum q => Some q | _ => None end.

Definition numericPair (p : MetricPair value) : option (MetricPair Q) :=
  match numericValue (main p), numericValue (pr p) with
  | Some m, Some c => Some {| main := m; pr := c |}
  | _, _ => None
  end.

Definition numericMetrics (m : Metrics value) : option (Metrics Q) :=
  match numericPair (gates m), numericPair (daGas m), numericPair (l2Gas m)
  with
  | Some g, Some d, Some l => Some {| gates := g; daGas := d; l2Gas := l |}
  | _, _, _ => None
  end.

Fixpoint numericRows (rows : list (jsstring * Metrics value))
  : outcome (list (jsstring * Metrics Q)) :=
  match rows with
  | [] => Returns []
  | (name, m) :: rest =>
      match numericMetrics m with
      | Some q =>
          let* more := numericRows rest in
          Returns ((name, q) :: more)
      | None => Unmodelled
      end
  end.

(** The emoji as code units. *)
Definition emoji (s : Status) : jsstring :=
  match s with
  | Removed => [55357%N; 57006%N]
  | New => [55356%N; 56725%N]
  | Regression => [55357%N; 56628%N]
  | Improvement => [55357%N; 57314%N]
  | Unchanged => [9898%N]
  end.

Definition tdRight (content : jsstring) : jsstring :=
  lit "  <td align=" ++ dq ++ lit "right" ++ dq ++ lit ">" ++ content
  ++ lit "</td>".

Definition thColspan3 (title : jsstring) : jsstring :=
  lit "  <th colspan=" ++ dq ++ lit "3" ++ dq ++ lit ">" ++ title
  ++ lit "</th>".

(** Lines 169-194. *)
Definition tableHead : list jsstring :=
  [ lit "<table>"; lit "<thead>"; lit "<tr>"; lit "  <th></th>";
    lit "  <th>Function</th>";
    thColspan3 (lit "Gates"); thColspan3 (lit "DA Gas");
    thColspan3 (lit "L2 Gas");
    lit "</tr>"; lit "<tr>"; lit "  <th>Status</th>"; lit "  <th></th>";
    lit "  <th>Base</th>"; lit "  <th>PR</th>"; lit "  <th>Diff</th>";
    lit "  <th>Base</th>"; lit "  <th>PR</th>"; lit "  <th>Diff</th>";
    lit "  <th>Base</th>"; lit "  <th>PR</th>"; lit "  <th>Diff</th>";
    lit "</tr>"; lit "</thead>"; lit "<tbody>" ].

(** The strings pushed for one function, lines 206-224. *)
Definition rowLines (threshold : Q) (row : jsstring * Metrics Q)
  : list jsstring :=
  let funcName := fst row in
  let metrics := snd row in
  let statusEmoji := getStatusEmoji metrics threshold in
  [ lit "<tr>";
    lit "  <td align=" ++ dq ++ lit "center" ++ dq ++ lit ">"
      ++ emoji statusEmoji ++ lit "</td>";
    lit "  <td><code>" ++ funcName ++ lit "</code></td>";
    tdRight (toLocaleString (main (gates metrics)));
    tdRight (toLocaleString (pr (gates metrics)));
    tdRight (formatDiff (main (gates metrics)) (pr (gates metrics)));
    tdRight (toLocaleString (main (daGas metrics)));
    tdRight (toLocaleString (pr (daGas metrics)));
    tdRight (formatDiff (main (daGas metrics)) (pr (daGas metrics)));
    tdRight (toLocaleString (main (l2Gas metrics)));
    tdRight (toLocaleString (pr (l2Gas metrics)));
    tdRight (formatDiff (main (l2Gas metrics)) (pr (l2Gas metrics)));
    lit "</tr>" ].

Definition tableText (threshold : Q) (rows : list (jsstring * Metrics Q))
  : jsstring :=
  join nl
    (tableHead ++ flat_map (rowLines threshold) rows
     ++ [lit "</tbody>"; lit "</table>"]).

(** The strings returned in place of a table. *)
Definition missingFilesMessage (contractName : jsstring) : jsstring :=
  lit "*Error: One or both report files missing for " ++ contractName
  ++ lit " (this should not happen)*".

Definition parseErrorMessage (contractName message : jsstring) : jsstring :=
  lit "*Error parsing benchmark JSON for " ++ contractName ++ lit ": "
  ++ message ++ lit "*".

Definition invalidStructureMessage (contractName : jsstring) : jsstring :=
  lit "*Skipping " ++ contractName
  ++ lit ": Invalid JSON structure (missing results array).*".

Definition noFunctionsMessage : jsstring :=
  lit "*No comparable functions found between reports.*".

(** [!data || !data.results] *)
Definition lacksResults (data : value) : outcome bool :=
  if falsy data then Returns true
  else
    let* results := getProp data (lit "results") in
    Returns (falsy results).

(** Lines 196-204: the keys of [comparison], sorted, each with its entry
    ([if (!metrics) continue] skips a key without one). *)
Definition sortedRows (comparison : list (jsstring * Metrics value))
  : list (jsstring * Metrics value) :=
  let sortedNames := sortBy defaultCompare (objectKeys comparison) in
  flat_map
    (fun funcName =>
       match lookup funcName comparison with
       | Some metrics => [(funcName, metrics)]
       | None => []
       end)
    sortedNames.

(** Lines 144-228, once both documents are parsed. *)
Definition compareDocuments (contractName : jsstring)
  (mainData prData : value) (threshold : Q) : outcome jsstring :=
  let* mainLacks := lacksResults mainData in
  let* prLacks := if mainLacks then Returns true else lacksResults prData in
  if prLacks then Returns (invalidStructureMessage contractName)
  else
    let* comparison := buildComparison mainData prData in
    let sortedNames := sortBy defaultCompare (objectKeys comparison) in
    if (List.length sortedNames =? 0)%nat then Returns noFunctionsMessage
    else
      let* rows := numericRows (sortedRows comparison) in
      Returns (tableText threshold rows).

Definition generateContractComparisonTable (h : Host) (pair : BenchmarkPair)
  (threshold : Q) : outcome jsstring :=
  if negb (existsSync h (baseJsonPath pair))
     || negb (existsSync h (prJsonPath pair))
  then Returns (missingFilesMessage (contractName pair))
  else
    match readJSON h (baseJsonPath pair) with
    | inl message =>
        Returns (parseErrorMessage (contractName pair) message)
    | inr mainData =>
        match readJSON h (prJsonPath pair) with
        | inl message =>
            Returns (parseErrorMessage (contractName pair) message)
        | inr prData =>
            compareDocuments (contractName pair) mainData prData threshold
        end
    end.

(** ** runComparison *)

Definition marker : jsstring := lit "<!-- benchmark-diff -->".

Definition noPairsDocument : jsstring :=
  lit "# Benchmark Comparison" ++ nl ++ nl
  ++ lit "No matching benchmark report pairs found to compare." ++ nl.

Definition sectionHeading (pair : BenchmarkPair) : jsstring :=
  lit "## Contract: " ++ contractName pair ++ nl.

(** The loop of lines 262-268: the strings pushed for the pairs, in order;
    an exception in one table ends the loop. *)
Fixpoint sections (h : Host) (threshold : Q) (pairs : list BenchmarkPair)
  : outcome (list jsstring) :=
  match pairs with
  | [] => Returns []
  | p :: rest =>
      let* tableMarkdown := generateContractComparisonTable h p threshold in
      let* more := sections h threshold rest in
      Returns ([sectionHeading p; tableMarkdown; nl] ++ more)
  end.

Definition comparePairs (h : Host) (a b : BenchmarkPair) : Z :=
  localeCompare h (contractName a) (contractName b).

Definition runComparison (h : Host) (inputs : Inputs) : outcome jsstring :=
  let benchmarkPairs :=
    findBenchmarkPairs h (reportsDir inputs) (baseSuffix inputs)
      (prSuffix inputs) in
  if (List.length benchmarkPairs =? 0)%nat then Returns noPairsDocument
  else
    let sorted := sortBy (comparePairs h) benchmarkPairs in
    let* body := sections h (threshold inputs) sorted in
    Returns
      (join nl ([marker ++ nl; lit "# Benchmark Comparison" ++ nl] ++ body)).

(** ** The specification's vocabulary for documents *)

(** The value found by following [path] from [v], when every step is
    present and the value reached is neither [null] nor [undefined]. *)
Fixpoint fieldAt (v : value) (path : list jsstring) : option value :=
  match path with
  | [] =>
      match v with
      | VUndefined | VNull => None
      | _ => Some v
      end
  | k :: rest =>
      match v with
      | VObj props =>
          match lookup k props with
          | Some x => fieldAt x rest
          | None => None
          end
      | _ => None
      end
  end.

Definition orZero (field : option value) : value :=
  match field with Some v => v | None => VNum 0 end.

(** Names kept out of the comparison: empty, starting with
    [unknown_function], containing [(FAILED)], or [BENCHMARK_RUNNER_ERROR]. *)
Definition excludedName (name : jsstring) : bool :=
  match name with [] => true | _ => false end
  || startsWith name (lit "unknown_function")
  || includes name (lit "(FAILED)")
  || streq name (lit "BENCHMARK_RUNNER_ERROR").

(** The keys of an object are distinct, and each satisfies [P]. *)
Definition keysInvariant (P : jsstring -> Prop) {A : Type}
  (o : list (jsstring * A)) : Prop :=
  NoDup (map fst o) /\ Forall P (map fst o).

(** The rows of a table: none bears an excluded name, and the names
    increase strictly in code-unit order. *)
Definition wellFormedRows (rows : list (jsstring * Metrics Q)) : Prop :=
  Forall (fun name => excludedName name = false) (map fst rows)
  /\ StronglySorted strlt (map fst rows).

(** A parsed document without a [results] field. *)
Definition lacksResultsField (data : value) : Prop :=
  match data with
  | VObj props => lookup (lit "results") props = None
  | _ => True
  end.

(** The texts [generateContractComparisonTable] returns in place of a
    table. *)
Definition errorPlaceholder (contractName text : jsstring) : Prop :=
  text = missingFilesMessage contractName
  \/ (exists message, text = parseErrorMessage contractName message)
  \/ text = invalidStructureMessage contractName.

Definition placeholder (contractName text : jsstring) : Prop :=
  errorPlaceholder contractName text \/ text = noFunctionsMessage.

(** The pairs in the order in which [runComparison] emits their sections. *)
Definition sortedPairs (h : Host) (inputs : Inputs) : list BenchmarkPair :=
  sortBy (comparePairs h)
    (findBenchmarkPairs h (reportsDir inputs) (baseSuffix inputs)
       (prSuffix inputs)).

(** A comparator in the sense of [Array.prototype.sort]: the sign of
    [cmp b a] is opposite to that of [cmp a b], and "not after" is
    transitive. *)
Definition consistentComparator {A : Type} (cmp : A -> A -> Z) : Prop :=
  (forall a b, (0 <= cmp b a)%Z -> (cmp a b <= 0)%Z)
  /\ (forall a b c, (cmp a b <= 0)%Z -> (cmp b c <= 0)%Z -> (cmp a c <= 0)%Z).

(** [a] is not placed after [b] by the comparator. *)
Definition notAfter {A : Type} (cmp : A -> A -> Z) (a b : A) : Prop :=
  (cmp a b <= 0)%Z.

(** ** Concrete hosts for the examples *)

(** A collation in the manner of the Unicode root collation, on ASCII
    letters and on the two code points U+03A9 (Greek capital omega) and
    U+2126 (ohm sign): letters are compared without regard to case first,
    and lower case precedes upper case among otherwise equal strings; the
    ohm sign is canonically equivalent to the capital omega and collates
    with it.  ECMA-262 requires [localeCompare] to return 0 on canonically
    equivalent strings and names this very pair. *)
Definition isUpperAscii (c : N) : bool := (65 <=? c)%N && (c <=? 90)%N.

Definition primaryWeight (c : N) : N :=
  if isUpperAscii c then (c + 32)%N
  else if (c =? 8486)%N || (c =? 937)%N then 969%N
  else c.

Definition tertiaryWeight (c : N) : N :=
  if isUpperAscii c || (c =? 8486)%N || (c =? 937)%N then 1%N else 0%N.

Definition collate (a b : jsstring) : Z :=
  match strcmp (map primaryWeight a) (map primaryWeight b) with
  | Lt => (-1)%Z
  | Gt => 1%Z
  | Eq => defaultCompare (map tertiaryWeight a) (map tertiaryWeight b)
  end.

(** A directory [dir] holding the given files and nothing else; a file is
    its name and what reading and parsing it gives. *)
Definition fileOf (dir : jsstring) (entry : jsstring * (jsstring + value))
  : jsstring :=
  dir ++ lit "/" ++ fst entry.

Definition memoryHost (dir : jsstring)
  (entries : list (jsstring * (jsstring + value)))
  (cmp : jsstring -> jsstring -> Z) : Host :=
  {| pathJoin := fun d f => d ++ lit "/" ++ f;
     readdirSync := fun d =>
       if streq d dir then Some (map fst entries) else None;
     existsSync := fun p =>
       existsb (fun e => streq (fileOf dir e) p) entries;
     readJSON := fun p =>
       match find (fun e => streq (fileOf dir e) p) entries with
       | Some e => snd e
       | None => inl (lit "ENOENT: no such file or directory")
       end;
     localeCompare := cmp |}.

Definition benchmarksDir : jsstring := lit "benchmarks".

Definition actionInputs (threshold : Q) : Inputs :=
  {| reportsDir := benchmarksDir; baseSuffix := lit "_base";
     prSuffix := lit "_latest"; threshold := threshold |}.

(** [{ "results": [...] }] and one entry of it. *)
Definition report (results : list value) : value :=
  VObj [(lit "results", VArr results)].

Definition functionResult (name : string) (gateCount da l2 : Q) : value :=
  VObj [ (lit "name", VStr (lit name));
         (lit "totalGateCount", VNum gateCount);
         (lit "gas",
          VObj [ (lit "gasLimits",
                  VObj [(lit "daGas", VNum da); (lit "l2Gas", VNum l2)]) ]) ].

(** The document of [runComparison] for the given sections, each a pair
    with the text of its table. *)
Definition sectionLines (section : BenchmarkPair * jsstring)
  : list jsstring :=
  [sectionHeading (fst section); snd section; nl].

Definition documentOf (sections : list (BenchmarkPair * jsstring))
  : jsstring :=
  join nl
    ([marker ++ nl; lit "# Benchmark Comparison" ++ nl]
     ++ flat_map sectionLines sections).

(** The pairs [findBenchmarkPairs] discovers for the inputs. *)
Definition discoveredPairs (h : Host) (inputs : Inputs)
  : list BenchmarkPair :=
  findBenchmarkPairs h (reportsDir inputs) (baseSuffix inputs)
    (prSuffix inputs).

(** The failures of one pair the specification names: a file that cannot
    be read or parsed, or a parsed document without [results]. *)
Definition pairFailure (h : Host) (pair : BenchmarkPair) : Prop :=
  (exists message, readJSON h (baseJsonPath pair) = inl message)
  \/ (exists message, readJSON h (prJsonPath pair) = inl message)
  \/ (exists mainData prData,
        readJSON h (baseJsonPath pair) = inr mainData
        /\ readJSON h (prJsonPath pair) = inr prData
        /\ (lacksResultsField mainData \/ lacksResultsField prData)).

(** The same host with the entries of every readable directory listed as
    [files]. *)
Definition withListing (h : Host) (files : list jsstring) : Host :=
  {| pathJoin := pathJoin h;
     readdirSync := fun dir =>
       match readdirSync h dir with
       | Some _ => Some files
       | None => None
       end;
     existsSync := existsSync h;
     readJSON := readJSON h;
     localeCompare := localeCompare h |}.

(** No two different names of the list tie under the comparator. *)
Definition distinguishes (cmp : jsstring -> jsstring -> Z)
  (names : list jsstring) : Prop :=
  forall a b,
    In a names -> In b names ->
    (cmp a b <= 0)%Z -> (cmp b a <= 0)%Z -> a = b.

(** ** Concrete inputs for the examples *)

Definition metricPair (m p : Q) : MetricPair Q := {| main := m; pr := p |}.

(** Gates up by 20%, DA gas down by 50%, L2 gas absent on both sides. *)
Definition mixedMetrics : Metrics Q :=
  {| gates := metricPair 100 120; daGas := metricPair 100 50;
     l2Gas := metricPair 0 0 |}.

(** A function only the base report has, and one only the candidate has. *)
Definition removedMetrics : Metrics Q :=
  {| gates := metricPair 100 0; daGas := metricPair 7 0;
     l2Gas := metricPair 0 0 |}.

Definition newMetrics : Metrics Q :=
  {| gates := metricPair 0 50; daGas := metricPair 0 0;
     l2Gas := metricPair 0 3 |}.

(** The two report files of a contract. *)
Definition reportFiles (contract : jsstring) (base latest : jsstring + value)
  : list (jsstring * (jsstring + value)) :=
  [ (contract ++ lit "_latest.benchmark.json", latest);
    (contract ++ lit "_base.benchmark.json", base) ].

Definition pairOf (contract : jsstring) : BenchmarkPair :=
  {| contractName := contract;
     baseJsonPath :=
       benchmarksDir ++ lit "/" ++ contract ++ lit "_base.benchmark.json";
     prJsonPath :=
       benchmarksDir ++ lit "/" ++ contract ++ lit "_latest.benchmark.json" |}.

(** One contract: the base report has [a] and entries of failed runs, the
    candidate report has [a], a new function [b] and a placeholder. *)
Definition tokenHost : Host :=
  memoryHost benchmarksDir
    (reportFiles (lit "Token")
       (inr (report [ functionResult "a" 100 0 0;
                      functionResult "transfer (FAILED)" 0 0 0;
                      functionResult "BENCHMARK_RUNNER_ERROR" 0 0 0 ]))
       (inr (report [ functionResult "a" 100 0 0;
                      functionResult "b" 50 0 0;
                      functionResult "unknown_function" 0 0 0;
                      VObj [] ])))
    collate.

Definition tokenRows : list (jsstring * Metrics Q) :=
  [ (lit "a",
     {| gates := metricPair 100 100; daGas := metricPair 0 0;
        l2Gas := metricPair 0 0 |});
    (lit "b",
     {| gates := metricPair 0 50; daGas := metricPair 0 0;
        l2Gas := metricPair 0 0 |}) ].

(** Two contracts whose reports list no function. *)
Definition zooHost : Host :=
  memoryHost benchmarksDir
    (reportFiles (lit "Zebra") (inr (report [])) (inr (report []))
     ++ reportFiles (lit "apple") (inr (report [])) (inr (report [])))
    collate.

(** No reports directory. *)
Definition bareHost : Host := memoryHost (lit "elsewhere") [] collate.

(** The candidate report of [B] has a [null] entry. *)
Definition nullEntryHost : Host :=
  memoryHost benchmarksDir
    (reportFiles (lit "A") (inr (report [])) (inr (report []))
     ++ reportFiles (lit "B") (inr (report [])) (inr (report [VNull])))
    collate.

(** The base report of [A] is not JSON. *)
Definition brokenFileHost : Host :=
  memoryHost benchmarksDir
    (reportFiles (lit "A")
       (inl (lit "Unexpected end of JSON input")) (inr (report []))
     ++ reportFiles (lit "B") (inr (report [])) (inr (report [])))
    collate.

(** Two contracts named by the ohm sign (U+2126) and by the Greek capital
    omega (U+03A9). *)
Definition ohm : jsstring := [8486%N].
Definition omega : jsstring := [937%N].

Definition omegaHost : Host :=
  memoryHost benchmarksDir
    (reportFiles ohm (inr (report [])) (inr (report []))
     ++ reportFiles omega (inr (report [])) (inr (report [])))
    collate.

Definition omegaListing : list jsstring :=
  [ ohm ++ lit "_latest.benchmark.json"; ohm ++ lit "_base.benchmark.json";
    omega ++ lit "_latest.benchmark.json";
    omega ++ lit "_base.benchmark.json" ].

(** ** Vocabulary for the shape of parsed reports *)

(** [doc.results] and [r.name] read as pure values ([undefined] where the
    source would find none), and the entries of a report. *)
Definition resultsOf (doc : value) : value :=
  match doc with
  | VObj props =>
      match lookup (lit "results") props with
      | Some x => x
      | None => VUndefined
      end
  | _ => VUndefined
  end.

Definition entryName (r : value) : value :=
  match r with
  | VObj props =>
      match lookup (lit "name") props with
      | Some x => x
      | None => VUndefined
      end
  | _ => VUndefined
  end.

Definition entriesOf (doc : value) : list value :=
  match resultsOf doc with
  | VArr elems => elems
  | _ => []
  end.

(** [v == null] *)
Definition nullish (v : value) : bool :=
  match v with VUndefined | VNull => true | _ => false end.

(** A name the loop of line 154 can handle: falsy, or a string. *)
Definition nameOK (name : value) : bool :=
  falsy name || match name with VStr _ => true | _ => false end.

(** An entry of [results] that neither [r.name] nor the loop chokes on. *)
Definition entryOK (r : value) : bool :=
  match r with
  | VUndefined | VNull => false
  | _ => nameOK (entryName r)
  end.

(** A report whose [results] is an array of such entries. *)
Definition comparable (doc : value) : bool :=
  match resultsOf doc with
  | VArr elems => forallb entryOK elems
  | _ => false
  end.

(** The first entry named [name], [undefined] when there is none. *)
Definition isNamed (name : jsstring) (r : value) : bool :=
  match entryName r with VStr s => streq s name | _ => false end.

Definition firstNamed (name : jsstring) (elems : list value) : value :=
  match find (isNamed name) elems with
  | Some r => r
  | None => VUndefined
  end.

(** The metrics object of lines 162-166 for the two entries found. *)
Definition rawMetrics (mainResult prResult : value) : Metrics value :=
  {| gates :=
       {| main := orZero (fieldAt mainResult [lit "totalGateCount"]);
          pr := orZero (fieldAt prResult [lit "totalGateCount"]) |};
     daGas :=
       {| main :=
            orZero
              (fieldAt mainResult [lit "gas"; lit "gasLimits"; lit "daGas"]);
          pr :=
            orZero
              (fieldAt prResult [lit "gas"; lit "gasLimits"; lit "daGas"]) |};
     l2Gas :=
       {| main :=
            orZero
              (fieldAt mainResult [lit "gas"; lit "gasLimits"; lit "l2Gas"]);
          pr :=
            orZero
              (fieldAt prResult [lit "gas"; lit "gasLimits"; lit "l2Gas"]) |}
  |}.

(** A name that gets a row: not excluded, and not [__proto__]. *)
Definition keptName (name : jsstring) : Prop :=
  excludedName name = false /\ name <> lit "__proto__".

(** Two reports in which [a] has two entries on the base side. *)
Definition duplicateBase : value :=
  report [functionResult "a" 100 7 9; functionResult "a" 1 1 1].

Definition duplicateCandidate : value :=
  report [functionResult "b" 50 0 0; functionResult "a" 120 7 9].

Definition duplicateComparison : list (jsstring * Metrics value) :=
  Eval vm_compute in
    match buildComparison duplicateBase duplicateCandidate with
    | Returns comparison => comparison
    | _ => []
    end.

(** ** The profiler (cli/profiler.ts)

    [Profiler.profile] asks an interaction for its execution payload, its
    gas estimate, its execution steps and the receipt of its transaction;
    what each of these calls gives (a value, or the message of the error it
    throws) is the interaction of the model.  Fields the source reads
    through [?.] or tests for [undefined] are options.  The counts and the
    gas are the rationals a saved report carries; the sums of line 133 on
    doubles, with [NaN], are in [Double]. *)
Module Profiler.

Record Gas : Type := { daGas : option Q; l2Gas : option Q }.

Record GasLimits : Type :=
  { gasLimits : option Gas; teardownGasLimits : option Gas }.

Record GateCount : Type := { circuitName : jsstring; gateCount : Q }.

Record ProfileResult : Type :=
  { name : jsstring;
    totalGateCount : Q;
    gateCounts : list GateCount;
    gas : option GasLimits }.

Record ProfileReport : Type :=
  { summary : list (jsstring * Q);
    results : list ProfileResult;
    gasSummary : list (jsstring * Q) }.

(** [executionPayload.calls[0]]: its [name] and [selector.toString()]. *)
Record Call : Type :=
  { callName : option jsstring; selector : option jsstring }.

Record Step : Type :=
  { functionName : jsstring; stepGateCount : option Q }.

Record Interaction : Type :=
  { request : jsstring + option (list (option Call));
    methodName : option jsstring;
    estimateGas : jsstring + GasLimits;
    profileFull : jsstring + list Step;
    sendWait : jsstring + unit }.

(** [sumArray], line 18. *)
Definition sumArray (arr : list Q) : Q := fold_left Qplus arr 0.

(** [sumGas], line 27. *)
Definition sumGas (gas : option Gas) : Q :=
  match gas with
  | Some g =>
      match daGas g with Some x => x | None => 0 end
      + match l2Gas g with Some x => x | None => 0 end
  | None => 0 + 0
  end.

(** [a ?? b] on optional strings. *)
Definition orString (a : option jsstring) (b : jsstring) : jsstring :=
  match a with Some x => x | None => b end.

(** Lines 105-122: the name under which an interaction is reported. *)
Definition resolveName (f : Interaction) : jsstring :=
  match request f with
  | inr calls =>
      match calls with
      | Some (firstCall :: _) =>
          match firstCall with
          | Some call =>
              orString (callName call)
                (orString (selector call) (lit "unknown_function"))
          | None => lit "unknown_function"
          end
      | _ => lit "unknown_function"
      end
  | inl _ =>
      match methodName f with
      | Some (c :: rest) => c :: rest
      | _ => lit "unknown_function"
      end
  end.

Definition zeroGas : Gas := {| daGas := Some 0; l2Gas := Some 0 |}.

(** The result of lines 151-156. *)
Definition failedResult (name : jsstring) : ProfileResult :=
  {| name := name ++ lit " (FAILED)";
     totalGateCount := 0;
     gateCounts := [];
     gas :=
       Some {| gasLimits := Some zeroGas;
               teardownGasLimits := Some zeroGas |} |}.

(** [steps.map(step => step.gateCount).filter(count => count !== undefined)] *)
Definition definedCounts (steps : list Step) : list Q :=
  flat_map
    (fun step => match stepGateCount step with Some c => [c] | None => [] end)
    steps.

(** [step.gateCount || 0] for a count that is a rational
    ([Double.countOrZero] has [-0] and [NaN]). *)
Definition countOrZero (step : Step) : Q :=
  match stepGateCount step with
  | Some c => if Qeq_bool c 0 then 0 else c
  | None => 0
  end.

(** [#profileOne], lines 104-158. *)
Definition profileOne (f : Interaction) : ProfileResult :=
  let name := resolveName f in
  match estimateGas f, profileFull f, sendWait f with
  | inr gas, inr executionSteps, inr _ =>
      {| name := name;
         totalGateCount := sumArray (definedCounts executionSteps);
         gateCounts :=
           map
             (fun step =>
                {| circuitName := functionName step;
                   gateCount := countOrZero step |})
             executionSteps;
         gas := Some gas |}
  | _, _, _ => failedResult name
  end.

(** [profile], lines 40-46. *)
Definition profile (fsToProfile : list Interaction) : list ProfileResult :=
  map profileOne fsToProfile.

(** [{ ...acc }]: the own properties in the order of their enumeration. *)
Definition spread {A : Type} (o : list (jsstring * A))
  : list (jsstring * A) :=
  flat_map
    (fun k => match lookup k o with Some v => [(k, v)] | None => [] end)
    (objectKeys o).

(** [results.reduce((acc, result) => ({ ...acc, [result.name]: v }), {})] *)
Definition reduceByName (value : ProfileResult -> Q)
  (results : list ProfileResult) : list (jsstring * Q) :=
  fold_left (fun acc result => setOwn (spread acc) (name result) (value result))
    results [].

(** The value of line 75-77. *)
Definition totalGas (result : ProfileResult) : Q :=
  match gas result with
  | Some g => sumGas (gasLimits g) + sumGas (teardownGasLimits g)
  | None => 0
  end.

(** [saveResults], lines 54-95: the report given to [JSON.stringify] and
    written to the file. *)
Definition saveResults (results : list ProfileResult) : ProfileReport :=
  match results with
  | [] => {| summary := []; results := []; gasSummary := [] |}
  | _ =>
      {| summary := reduceByName totalGateCount results;
         results := results;
         gasSummary := reduceByName totalGas results |}
  end.

(** What [JSON.parse] gives back for the text [JSON.stringify] writes: a
    property that is [undefined] is left out. *)
Definition optionalField {A : Type} (key : string) (f : A -> value)
  (x : option A) : list (jsstring * value) :=
  match x with Some a => [(lit key, f a)] | None => [] end.

Definition gasJSON (g : Gas) : value :=
  VObj (optionalField "daGas" VNum (daGas g)
        ++ optionalField "l2Gas" VNum (l2Gas g)).

Definition gasLimitsJSON (g : GasLimits) : value :=
  VObj (optionalField "gasLimits" gasJSON (gasLimits g)
        ++ optionalField "teardownGasLimits" gasJSON (teardownGasLimits g)).

Definition gateCountJSON (g : GateCount) : value :=
  VObj [ (lit "circuitName", VStr (circuitName g));
         (lit "gateCount", VNum (gateCount g)) ].

Definition resultJSON (r : ProfileResult) : value :=
  VObj ([ (lit "name", VStr (name r));
          (lit "totalGateCount", VNum (totalGateCount r));
          (lit "gateCounts", VArr (map gateCountJSON (gateCounts r))) ]
        ++ optionalField "gas" gasLimitsJSON (gas r)).

Definition recordJSON (o : list (jsstring * Q)) : value :=
  VObj (map (fun kv => (fst kv, VNum (snd kv))) (spread o)).

Definition reportJSON (report : ProfileReport) : value :=
  VObj [ (lit "summary", recordJSON (summary report));
         (lit "results", VArr (map resultJSON (results report)));
         (lit "gasSummary", recordJSON (gasSummary report)) ].

(** The last result of the given name. *)
Definition lastNamed (n : jsstring) (results : list ProfileResult)
  : option ProfileResult :=
  find (fun r => streq (name r) n) (rev results).

End Profiler.

(** The values the metric extractors are applied to when both documents
    are saved reports. *)
Definition profiledEntry (x : value) : Prop :=
  x = VUndefined \/ exists r, x = Profiler.resultJSON r.

(** Interactions for the examples: one whose gas estimate fails, one that
    goes through with two steps, the second without a gate count. *)
Definition transferCall : Profiler.Call :=
  {| Profiler.callName := Some (lit "transfer");
     Profiler.selector := Some (lit "0x12345678") |}.

Definition failingInteraction : Profiler.Interaction :=
  {| Profiler.request := inr (Some [Some transferCall]);
     Profiler.methodName := Some (lit "transfer");
     Profiler.estimateGas := inl (lit "simulation reverted");
     Profiler.profileFull := inr [];
     Profiler.sendWait := inr tt |}.

Definition passingInteraction : Profiler.Interaction :=
  {| Profiler.request := inr (Some [Some transferCall]);
     Profiler.methodName := Some (lit "transfer");
     Profiler.estimateGas :=
       inr {| Profiler.gasLimits :=
                Some {| Profiler.daGas := Some 10; Profiler.l2Gas := Some 20 |};
              Profiler.teardownGasLimits :=
                Some {| Profiler.daGas := Some 1; Profiler.l2Gas := Some 2 |} |};
     Profiler.profileFull :=
       inr [ {| Profiler.functionName := lit "private_kernel_init";
                Profiler.stepGateCount := Some 300 |};
             {| Profiler.functionName := lit "transfer";
                Profiler.stepGateCount := None |} ];
     Profiler.sendWait := inr tt |}.

(** * Double precision

    The program's numbers are IEEE-754 binary64 values.  [Double] embeds
    the functions of comparison.cjs and profiler.ts that compute with them
    on Rocq's primitive floats, whose operations are those of binary64
    with rounding to nearest, ties to even. *)
Module Double.

(** ** Numbers *)

(** The real number a double stands for; 0 for [NaN] and the infinities. *)
Definition SFvalue (x : spec_float) : Q :=
  match x with
  | S754_finite s m e =>
      (if s then - inject_Z (Zpos m) else inject_Z (Zpos m)) * 2 ^ e
  | _ => 0
  end.

Definition valueOf (x : float) : Q := SFvalue (Prim2SF x).

(** The integer a double stands for, when it stands for one. *)
Definition SFinteger (x : spec_float) : option Z :=
  match x with
  | S754_zero _ => Some 0%Z
  | S754_finite s m e =>
      let z :=
        if (0 <=? e)%Z then Some (Zpos m * 2 ^ e)%Z
        else if (Zpos m mod 2 ^ (- e) =? 0)%Z
             then Some (Zpos m / 2 ^ (- e))%Z
             else None in
      option_map (fun n => if s then (- n)%Z else n) z
  | _ => None
  end.

Definition integerValue (x : float) : option Z := SFinteger (Prim2SF x).

(** The double nearest to a rational, ties to even: what [JSON.parse]
    makes of a number of the text (but for the sign of a zero, which a
    rational does not have). *)
Definition SFofQ (q : Q) : spec_float :=
  match Qnum q with
  | Z0 => S754_zero false
  | Zpos n =>
      let '(mz, ez, lz) :=
        SFdiv_core_binary prec emax (Zpos n) 0 (Zpos (Qden q)) 0 in
      binary_round_aux prec emax false mz ez lz
  | Zneg n =>
      let '(mz, ez, lz) :=
        SFdiv_core_binary prec emax (Zpos n) 0 (Zpos (Qden q)) 0 in
      binary_round_aux prec emax true mz ez lz
  end.

Definition ofQ (q : Q) : float := SF2Prim (SFofQ q).

(** [x > y]; [x < y] is [PrimFloat.ltb], [x === y] is [PrimFloat.eqb],
    [isFinite(x)] is [PrimFloat.is_finite], [Math.abs] is
    [PrimFloat.abs]. *)
Definition gtb (x y : float) : bool := (y <? x)%float.

(** ** getStatusEmoji, lines 46-75 *)

(** The ternary of lines 56-61, for one metric. *)
Definition diffPct (m : MetricPair float) : float :=
  if (main m =? 0)%float
  then (if gtb (pr m) 0 then infinity else 0%float)
  else ((pr m - main m) / main m)%float.

Definition getStatusEmoji (metrics : Metrics float) (threshold : float)
  : Status :=
  let isRemoved :=
    (pr (gates metrics) =? 0)%float && (pr (daGas metrics) =? 0)%float
    && (pr (l2Gas metrics) =? 0)%float
    && (gtb (main (gates metrics)) 0 || gtb (main (daGas metrics)) 0
        || gtb (main (l2Gas metrics)) 0) in
  let isNew :=
    (main (gates metrics) =? 0)%float && (main (daGas metrics) =? 0)%float
    && (main (l2Gas metrics) =? 0)%float
    && (gtb (pr (gates metrics)) 0 || gtb (pr (daGas metrics)) 0
        || gtb (pr (l2Gas metrics)) 0) in
  if isRemoved then Removed
  else if isNew then New
  else
    let gateDiffPct := diffPct (gates metrics) in
    let daGasDiffPct := diffPct (daGas metrics) in
    let l2GasDiffPct := diffPct (l2Gas metrics) in
    let metricsDiffs :=
      filter is_finite [gateDiffPct; daGasDiffPct; l2GasDiffPct] in
    let hasInfiniteIncrease :=
      existsb (fun m => (m =? infinity)%float)
        [gateDiffPct; daGasDiffPct; l2GasDiffPct] in
    let thresholdDecimal := (threshold / 100)%float in
    let hasRegression :=
      hasInfiniteIncrease
      || existsb (fun m => gtb m thresholdDecimal) metricsDiffs in
    let hasImprovement :=
      existsb (fun m => (m <? - thresholdDecimal)%float) metricsDiffs in
    if hasRegression then Regression
    else if hasImprovement then Improvement
    else Unchanged.

(** *** The classification in the specification's words, on doubles *)

Definition metricsOf (M : Metrics float) : list (MetricPair float) :=
  [gates M; daGas M; l2Gas M].

Definition nonNegative (M : Metrics float) : Prop :=
  forall m, In m (metricsOf M) ->
    (0 <=? main m)%float = true /\ (0 <=? pr m)%float = true.

Definition removedCondition (M : Metrics float) : Prop :=
  (forall m, In m (metricsOf M) -> (pr m =? 0)%float = true)
  /\ exists m, In m (metricsOf M) /\ gtb (main m) 0 = true.

Definition newCondition (M : Metrics float) : Prop :=
  (forall m, In m (metricsOf M) -> (main m =? 0)%float = true)
  /\ exists m, In m (metricsOf M) /\ gtb (pr m) 0 = true.

(** The fractional change of a metric is infinite when the base is zero
    and the candidate positive, and when the quotient
    (candidate - base) / base is [Infinity] as a double. *)
Definition zeroBaseIncrease (m : MetricPair float) : Prop :=
  (main m =? 0)%float = true /\ gtb (pr m) 0 = true.

Definition infiniteQuotient (m : MetricPair float) : Prop :=
  (main m =? 0)%float = false
  /\ ((pr m - main m) / main m =? infinity)%float = true.

Definition infiniteChange (m : MetricPair float) : Prop :=
  zeroBaseIncrease m \/ infiniteQuotient m.

(** It is the finite [c] when both sides are zero ([c] is 0) and when the
    quotient is the finite double [c]. *)
Definition finiteChange (m : MetricPair float) (c : float) : Prop :=
  ((main m =? 0)%float = true /\ (pr m =? 0)%float = true /\ c = 0%float)
  \/ ((main m =? 0)%float = false
      /\ c = ((pr m - main m) / main m)%float
      /\ is_finite c = true).

Definition regressionCondition (M : Metrics float) (T : float) : Prop :=
  (exists m, In m (metricsOf M) /\ infiniteChange m)
  \/ (exists m c,
        In m (metricsOf M) /\ finiteChange m c /\ gtb c (T / 100) = true).

Definition improvementCondition (M : Metrics float) (T : float) : Prop :=
  exists m c,
    In m (metricsOf M) /\ finiteChange m c /\ (c <? - (T / 100))%float = true.

(** The regression condition with an infinite change counted for a zero
    base only. *)
Definition zeroBaseRegression (M : Metrics float) (T : float) : Prop :=
  (exists m, In m (metricsOf M) /\ zeroBaseIncrease m)
  \/ (exists m c,
        In m (metricsOf M) /\ finiteChange m c /\ gtb c (T / 100) = true).

(** The conditions of [getStatusEmoji], named for the proofs. *)
Definition isRemoved (metrics : Metrics float) : bool :=
  (pr (gates metrics) =? 0)%float && (pr (daGas metrics) =? 0)%float
  && (pr (l2Gas metrics) =? 0)%float
  && (gtb (main (gates metrics)) 0 || gtb (main (daGas metrics)) 0
      || gtb (main (l2Gas metrics)) 0).

Definition isNew (metrics : Metrics float) : bool :=
  (main (gates metrics) =? 0)%float && (main (daGas metrics) =? 0)%float
  && (main (l2Gas metrics) =? 0)%float
  && (gtb (pr (gates metrics)) 0 || gtb (pr (daGas metrics)) 0
      || gtb (pr (l2Gas metrics)) 0).

Definition diffPcts (metrics : Metrics float) : list float :=
  [diffPct (gates metrics); diffPct (daGas metrics); diffPct (l2Gas metrics)].

Definition hasRegression (metrics : Metrics float) (threshold : float)
  : bool :=
  existsb (fun m => (m =? infinity)%float) (diffPcts metrics)
  || existsb (fun m => gtb m (threshold / 100))
       (filter is_finite (diffPcts metrics)).

Definition hasImprovement (metrics : Metrics float) (threshold : float)
  : bool :=
  existsb (fun m => (m <? - (threshold / 100))%float)
    (filter is_finite (diffPcts metrics)).

(** Examples: gates up by 20% and DA gas down by 50%; a quotient that
    overflows; a change of 3 in 1000. *)
Definition pair (m p : float) : MetricPair float := {| main := m; pr := p |}.

Definition mixedMetrics : Metrics float :=
  {| gates := pair 100 120; daGas := pair 100 50; l2Gas := pair 0 0 |}.

Definition overflowMetrics : Metrics float :=
  {| gates := pair 1e-200 1e200; daGas := pair 0 0; l2Gas := pair 0 0 |}.

Definition smallChange : Metrics float :=
  {| gates := pair 1000 1003; daGas := pair 0 0; l2Gas := pair 0 0 |}.

Definition exactMetrics (M : Metrics float) : Metrics Q :=
  {| gates := {| main := valueOf (main (gates M));
                 pr := valueOf (pr (gates M)) |};
     daGas := {| main := valueOf (main (daGas M));
                 pr := valueOf (pr (daGas M)) |};
     l2Gas := {| main := valueOf (main (l2Gas M));
                 pr := valueOf (pr (l2Gas M)) |} |}.

(** ** formatDiff, lines 24-38 *)

(** [x.toFixed(1)]: the text of [NaN] and of the infinities; for a finite
    [x], the tenth nearest to the real number [x] stands for, the larger
    one in a tie, a negative [x] printed as [-] and the text of [-x].
    From [10^21] on the host prints in exponent notation, which the model
    leaves out. *)
Definition toFixed (x : float) : option jsstring :=
  match Prim2SF x with
  | S754_nan => Some (lit "NaN")
  | S754_infinity false => Some (lit "Infinity")
  | S754_infinity true => Some (lit "-Infinity")
  | _ =>
      if Qle_bool (10 ^ 21) (Qabs (valueOf x)) then None
      else Some (toFixed1 (valueOf x))
  end.

Section FormatDiff.

(** [x.toLocaleString()] is the host's: it prints with the default locale
    of the process.  [None]: a text the model does not know. *)
Variable toLocaleString : float -> option jsstring.

Definition formatDiff (main pr : float) : option jsstring :=
  if (main =? 0)%float && (pr =? 0)%float then Some []
  else if (main =? 0)%float then Some (lit "+Inf%")
  else if (pr =? 0)%float then Some (lit "-100%")
  else
    let diff := (pr - main)%float in
    if (diff =? 0)%float then Some []
    else
      let pct := (diff / main * 100)%float in
      let sign := if gtb diff 0 then lit "+" else [] in
      if (abs pct <? 0.01)%float && (abs diff <? 1)%float then Some []
      else
        match toLocaleString diff, toFixed pct with
        | Some delta, Some percent =>
            Some (sign ++ delta ++ lit " (" ++ sign ++ percent ++ lit "%)")
        | _, _ => None
        end.

End FormatDiff.

(** [-] before a negative number. *)
Definition minus (s : bool) : jsstring := if s then lit "-" else [].

(** [toLocaleString()] in a process whose default locale is [en-US]:
    [NaN], the infinity sign, and the integers up to [2^53] in groups of
    three digits.  Numbers with a fraction and larger integers are printed
    from their shortest decimal form, which the model does not have. *)
Definition enUS (x : float) : option jsstring :=
  match Prim2SF x with
  | S754_nan => Some (lit "NaN")
  | S754_infinity s => Some (minus s ++ [8734%N])
  | S754_zero s => Some (minus s ++ lit "0")
  | S754_finite s m e =>
      match integerValue x with
      | Some z =>
          if (Z.abs z <=? 2 ^ 53)%Z
          then Some (minus s ++ groupThousands (digitsOf (Z.abs z)))
          else None
      | None => None
      end
  end.

(** *** What the printed texts mean *)

Definition isDigit (c : N) : bool := (48 <=? c)%N && (c <=? 57)%N.

Fixpoint readUint (s : jsstring) : option Decimal.uint :=
  match s with
  | [] => Some Decimal.Nil
  | c :: s' =>
      match readUint s' with
      | Some u =>
          match c with
          | 48%N => Some (Decimal.D0 u)
          | 49%N => Some (Decimal.D1 u)
          | 50%N => Some (Decimal.D2 u)
          | 51%N => Some (Decimal.D3 u)
          | 52%N => Some (Decimal.D4 u)
          | 53%N => Some (Decimal.D5 u)
          | 54%N => Some (Decimal.D6 u)
          | 55%N => Some (Decimal.D7 u)
          | 56%N => Some (Decimal.D8 u)
          | 57%N => Some (Decimal.D9 u)
          | _ => None
          end
      | None => None
      end
  end.

(** The natural number a string of decimal digits stands for. *)
Definition numeral (s : jsstring) : option N :=
  match s with
  | [] => None
  | _ => option_map N.of_uint (readUint s)
  end.

(** A numeral without superfluous zeros: [0], or digits the first of which
    is not [0]. *)
Definition canonical (s : jsstring) : bool :=
  forallb isDigit s
  && match s with
     | [] => false
     | [_] => true
     | c :: _ => negb (c =? 48)%N
     end.

(** The text with its commas removed. *)
Definition ungroup (g : jsstring) : jsstring :=
  filter (fun c => negb (c =? 44)%N) g.

(** Counting from the right, every fourth character is a comma and no
    other is; the text does not begin with one. *)
Definition groupedByThree (g : jsstring) : Prop :=
  (forall i, (i < List.length g)%nat ->
     (nth i (rev g) 0%N = 44%N <-> (i mod 4 = 3)%nat))
  /\ hd 0%N g <> 44%N.

(** [text] prints the integer [z] in groups of three digits. *)
Definition groupedInteger (text : jsstring) (z : Z) : Prop :=
  exists g,
    text = minus (z <? 0)%Z ++ g
    /\ groupedByThree g
    /\ canonical (ungroup g) = true
    /\ numeral (ungroup g) = Some (Z.to_N (Z.abs z)).


(** The host prints what [enUS] prints, wherever the model has a text. *)
Definition printsAsEnUS (toLocaleString : float -> option jsstring) : Prop :=
  forall x text, enUS x = Some text -> toLocaleString x = Some text.

(** The [+] of line 33. *)
Definition plusSign (diff : float) : jsstring :=
  if gtb diff 0 then lit "+" else [].

(** Both sides of every metric are the same finite number. *)
Definition sameOnBothSides (M : Metrics float) : Prop :=
  forall m, In m (metricsOf M) ->
    is_finite (main m) = true /\ (main m =? pr m)%float = true.

(** The doubles of a row of numbers read from a report. *)
Definition ofPair (p : MetricPair Q) : MetricPair float :=
  {| main := ofQ (main p); pr := ofQ (pr p) |}.

Definition ofMetrics (M : Metrics Q) : Metrics float :=
  {| gates := ofPair (gates M); daGas := ofPair (daGas M);
     l2Gas := ofPair (l2Gas M) |}.

(** ** The gate counts of a profiled interaction, profiler.ts lines
    131-141 *)

Record GateCount : Type := { circuitName : jsstring; gateCount : float }.

(** A step of [profileResults.executionSteps]; [gateCount] may be
    [undefined]. *)
Record Step : Type :=
  { functionName : jsstring; stepGateCount : option float }.

(** [sumArray], line 18. *)
Definition sumArray (arr : list float) : float :=
  fold_left PrimFloat.add arr 0%float.

(** [steps.map(step => step.gateCount).filter(count => count !== undefined)] *)
Definition definedCounts (steps : list Step) : list float :=
  flat_map
    (fun step => match stepGateCount step with Some c => [c] | None => [] end)
    steps.

(** [step.gateCount || 0]: 0 for [undefined], [0], [-0] and [NaN]. *)
Definition countOrZero (step : Step) : float :=
  match stepGateCount step with
  | Some c => if (c =? 0)%float || is_nan c then 0%float else c
  | None => 0%float
  end.

Definition totalGateCount (executionSteps : list Step) : float :=
  sumArray (definedCounts executionSteps).

Definition gateCounts (executionSteps : list Step) : list GateCount :=
  map
    (fun step =>
       {| circuitName := functionName step; gateCount := countOrZero step |})
    executionSteps.

(** The same double, or two zeros: [a === b], or both are [NaN]. *)
Definition sameNumber (a b : float) : Prop :=
  a = b \/ ((a =? 0)%float = true /\ (b =? 0)%float = true).

(** Steps for the examples: a count, a step without one, a count of
    [-0]. *)
Definition profiledSteps : list Step :=
  [ {| functionName := lit "private_kernel_init";
       stepGateCount := Some 300%float |};
    {| functionName := lit "transfer"; stepGateCount := None |};
    {| functionName := lit "tail"; stepGateCount := Some (-0)%float |} ].

End Double.

(** The sign of a number that is not [NaN]. *)
Definition SFsign (x : spec_float) : option bool :=
  match x with
  | S754_zero s | S754_infinity s | S754_finite s _ _ => Some s
  | S754_nan => None
  end.

(** * Properties *)

(** ** Boolean tests against their propositions *)

Lemma Qgtb_true (x y : Q) : Qgtb x y = true <-> y < x.
Proof.
  unfold Qgtb. rewrite negb_true_iff, <- not_true_iff_false, Qle_bool_iff.
  split; [apply Qnot_le_lt | apply Qlt_not_le].
Qed.


Lemma Qgtb_false (x y : Q) : Qgtb x y = false <-> x <= y.
Proof.
  unfold Qgtb. rewrite negb_false_iff. apply Qle_bool_iff.
Qed.

Lemma Qeq_bool_true (x y : Q) : Qeq_bool x y = true <-> x == y.
Proof. apply Qeq_bool_iff. Qed.

Lemma Qeq_bool_false (x y : Q) : Qeq_bool x y = false <-> ~ x == y.
Proof. rewrite <- not_true_iff_false, Qeq_bool_iff. tauto. Qed.

Lemma existsb_filter {A : Type} (p f : A -> bool) (l : list A) :
  existsb f (filter p l) = existsb (fun x => p x && f x) l.
Proof.
  induction l as [| a l IH]; simpl; [reflexivity |].
  destruct (p a); simpl; rewrite IH; reflexivity.
Qed.

(** ** getStatusEmoji *)

Lemma getStatusEmoji_cases (M : Metrics Q) (T : Q) :
  getStatusEmoji M T =
  if isRemoved M then Removed
  else if isNew M then New
  else if hasRegression M T then Regression
  else if hasImprovement M T then Improvement
  else Unchanged.
Proof. reflexivity. Qed.

Lemma in_metricsOf (M : Metrics Q) (P : MetricPair Q -> Prop) :
  (exists m, In m (metricsOf M) /\ P m)
  <-> P (gates M) \/ P (daGas M) \/ P (l2Gas M).
Proof.
  unfold metricsOf; simpl. split.
  - intros [m [[<- | [<- | [<- | []]]] H]]; tauto.
  - intros [H | [H | H]]; eauto 6.
Qed.

Lemma all_metricsOf (M : Metrics Q) (P : MetricPair Q -> Prop) :
  (forall m, In m (metricsOf M) -> P m)
  <-> P (gates M) /\ P (daGas M) /\ P (l2Gas M).
Proof.
  unfold metricsOf; simpl. split.
  - intros H; repeat split; apply H; tauto.
  - intros [Hg [Hd Hl]] m [<- | [<- | [<- | []]]]; assumption.
Qed.

Lemma isRemoved_spec (M : Metrics Q) :
  isRemoved M = true <-> removedCondition M.
Proof.
  unfold isRemoved, removedCondition.
  rewrite all_metricsOf, in_metricsOf.
  rewrite !andb_true_iff, !orb_true_iff, !Qeq_bool_true, !Qgtb_true.
  tauto.
Qed.

Lemma isNew_spec (M : Metrics Q) : isNew M = true <-> newCondition M.
Proof.
  unfold isNew, newCondition.
  rewrite all_metricsOf, in_metricsOf.
  rewrite !andb_true_iff, !orb_true_iff, !Qeq_bool_true, !Qgtb_true.
  tauto.
Qed.

Lemma removed_excludes_new (M : Metrics Q) :
  ~ (removedCondition M /\ newCondition M).
Proof.
  intros [[_ Hpos] [Hzero _]].
  destruct Hpos as [m [Hin Hm]].
  specialize (Hzero m Hin). rewrite Hzero in Hm.
  exact (Qlt_irrefl 0 Hm).
Qed.

Lemma removed_status (M : Metrics Q) (T : Q) :
  removedCondition M -> getStatusEmoji M T = Removed.
Proof.
  intros H. apply isRemoved_spec in H.
  rewrite getStatusEmoji_cases, H. reflexivity.
Qed.

Lemma new_status (M : Metrics Q) (T : Q) :
  newCondition M -> getStatusEmoji M T = New.
Proof.
  intros H.
  assert (Hr : isRemoved M = false).
  { apply not_true_iff_false. rewrite isRemoved_spec.
    intros Hrem. exact (removed_excludes_new M (conj Hrem H)). }
  apply isNew_spec in H.
  rewrite getStatusEmoji_cases, Hr, H. reflexivity.
Qed.

(** C2. For every metrics triple and threshold, [getStatusEmoji] returns
    the removed emoji exactly when the three candidate-side values are zero
    and some base-side value is positive, and the new emoji exactly when the
    three base-side values are zero and some candidate-side value is
    positive; Removed is tested first, and the two conditions never hold
    together. *)
Theorem C2_removed_and_new (M : Metrics Q) (T : Q) :
  (getStatusEmoji M T = Removed <-> removedCondition M)
  /\ (getStatusEmoji M T = New <-> newCondition M)
  /\ ~ (removedCondition M /\ newCondition M).
Proof.
  pose proof (removed_excludes_new M) as Hex.
  rewrite <- isRemoved_spec, <- isNew_spec in *.
  rewrite getStatusEmoji_cases.
  destruct (isRemoved M), (isNew M), (hasRegression M T),
    (hasImprovement M T);
    repeat split; intros; try discriminate; try reflexivity; try tauto;
    try (intuition discriminate).
Qed.

(** C10. A triple that satisfies the Removed condition is classified
    Removed under every threshold, and one that satisfies the New condition
    is classified New under every threshold: two thresholds can only
    disagree among regression, improvement and unchanged. *)
Theorem C10_threshold_independence (M : Metrics Q) (T1 T2 : Q) :
  (removedCondition M ->
   getStatusEmoji M T1 = Removed /\ getStatusEmoji M T2 = Removed)
  /\ (newCondition M ->
      getStatusEmoji M T1 = New /\ getStatusEmoji M T2 = New)
  /\ (getStatusEmoji M T1 <> getStatusEmoji M T2 ->
      forall T, In (getStatusEmoji M T) [Regression; Improvement; Unchanged]).
Proof.
  split; [| split].
  - intros H. split; apply removed_status; exact H.
  - intros H. split; apply new_status; exact H.
  - rewrite !getStatusEmoji_cases. intros Hne T.
    rewrite getStatusEmoji_cases.
    destruct (isRemoved M); [congruence |].
    destruct (isNew M); [congruence |].
    destruct (hasRegression M T), (hasImprovement M T); simpl; tauto.
Qed.

Lemma C10_witness :
  removedCondition removedMetrics
  /\ newCondition newMetrics
  /\ getStatusEmoji removedMetrics 0 = Removed
  /\ getStatusEmoji removedMetrics 1000 = Removed
  /\ getStatusEmoji newMetrics 0 = New
  /\ getStatusEmoji newMetrics 1000 = New.
Proof.
  assert (Hrem : removedCondition removedMetrics)
    by (rewrite <- isRemoved_spec; vm_compute; reflexivity).
  assert (Hnew : newCondition newMetrics)
    by (rewrite <- isNew_spec; vm_compute; reflexivity).
  pose proof (C10_threshold_independence removedMetrics 0 1000) as [H1 _].
  pose proof (C10_threshold_independence newMetrics 0 1000) as [_ [H2 _]].
  destruct (H1 Hrem) as [Ha Hb]. destruct (H2 Hnew) as [Hc Hd].
  exact (conj Hrem (conj Hnew (conj Ha (conj Hb (conj Hc Hd))))).
Defined.

(** ** formatDiff *)

Lemma Qltb_false (x y : Q) : Qltb x y = false <-> y <= x.
Proof. unfold Qltb. apply (Qgtb_false y x). Qed.

Lemma formatDiff_zero_base (main pr : Q) :
  main == 0 -> ~ pr == 0 -> formatDiff main pr = lit "+Inf%".
Proof.
  intros Hm Hp. unfold formatDiff.
  apply Qeq_bool_true in Hm. apply Qeq_bool_false in Hp.
  rewrite Hm, Hp. reflexivity.
Qed.

Lemma formatDiff_zero_candidate (main pr : Q) :
  ~ main == 0 -> pr == 0 -> formatDiff main pr = lit "-100%".
Proof.
  intros Hm Hp. unfold formatDiff.
  apply Qeq_bool_false in Hm. apply Qeq_bool_true in Hp.
  rewrite Hm, Hp. reflexivity.
Qed.

Lemma formatDiff_equal (main pr : Q) : main == pr -> formatDiff main pr = [].
Proof.
  intros E. unfold formatDiff.
  destruct (Qeq_bool main 0) eqn:Em.
  - apply Qeq_bool_true in Em.
    assert (Ep : Qeq_bool pr 0 = true)
      by (apply Qeq_bool_true; rewrite <- E; exact Em).
    rewrite Ep. reflexivity.
  - apply Qeq_bool_false in Em.
    assert (Ep : Qeq_bool pr 0 = false)
      by (apply Qeq_bool_false; rewrite <- E; exact Em).
    rewrite Ep. simpl.
    assert (Ed : Qeq_bool (pr - main) 0 = true)
      by (apply Qeq_bool_true; rewrite E; ring).
    rewrite Ed. reflexivity.
Qed.

(** The last two branches, for a base, a candidate and a delta that are
    all different from zero. *)
Lemma formatDiff_nonzero (main pr : Q) :
  ~ main == 0 -> ~ pr == 0 -> ~ pr - main == 0 ->
  formatDiff main pr =
  if Qltb (Qabs ((pr - main) / main * 100)) (1 # 100)
     && Qltb (Qabs (pr - main)) 1
  then []
  else
    plusSign (pr - main) ++ toLocaleString (pr - main) ++ lit " ("
    ++ plusSign (pr - main) ++ toFixed1 ((pr - main) / main * 100)
    ++ lit "%)".
Proof.
  intros Hm Hp Hd. unfold formatDiff, plusSign.
  apply Qeq_bool_false in Hm, Hp, Hd.
  rewrite Hm, Hp, Hd. reflexivity.
Qed.

Example toFixed1_samples :
  toFixed1 5 = lit "5.0" /\ toFixed1 (5 # 100) = lit "0.1"
  /\ toFixed1 (- (4 # 100)) = lit "-0.0"
  /\ toFixed1 (12345 # 100) = lit "123.5".
Proof. repeat split. Qed.

Example toLocaleString_samples :
  toLocaleString 0 = lit "0" /\ toLocaleString 999 = lit "999"
  /\ toLocaleString 1000 = lit "1,000"
  /\ toLocaleString 1234567 = lit "1,234,567"
  /\ toLocaleString (- (2500 # 1)) = lit "-2,500"
  /\ toLocaleString (12345 # 10) = lit "1,234.5".
Proof. repeat split. Qed.

(** ** Metric extraction *)

Lemma optProp_returns (v : value) (k : jsstring) :
  optProp v k =
  Returns
    match v with
    | VObj props =>
        match lookup k props with Some x => x | None => VUndefined end
    | _ => VUndefined
    end.
Proof. destruct v; reflexivity. Qed.

Lemma orElse_fieldAt (v : value) : orElse v (VNum 0) = orZero (fieldAt v []).
Proof. destruct v; reflexivity. Qed.

(** One step of an optional chain against one step of the path. *)
Lemma fieldAt_step (v : value) (k : jsstring) (rest : list jsstring) :
  fieldAt v (k :: rest) =
  fieldAt
    match v with
    | VObj props =>
        match lookup k props with Some x => x | None => VUndefined end
    | _ => VUndefined
    end
    rest.
Proof.
  assert (Hu : fieldAt VUndefined rest = None) by (destruct rest; reflexivity).
  destruct v; simpl; try (symmetry; exact Hu).
  destruct (lookup k props); [reflexivity | symmetry; exact Hu].
Qed.

(** C9. Metric extraction never raises: for every value in the place of a
    FunctionResult (an absent record included) the three extractors return,
    and what they return is the field when every step of its path is
    present and its value is not null, and 0 otherwise. *)
Theorem C9_metric_extraction_total (result : value) :
  getTotalGateCount result =
  Returns (orZero (fieldAt result [lit "totalGateCount"]))
  /\ getDaGas result =
     Returns
       (orZero (fieldAt result [lit "gas"; lit "gasLimits"; lit "daGas"]))
  /\ getL2Gas result =
     Returns
       (orZero (fieldAt result [lit "gas"; lit "gasLimits"; lit "l2Gas"])).
Proof.
  unfold getTotalGateCount, getDaGas, getL2Gas.
  rewrite !fieldAt_step, !optProp_returns. unfold bind.
  rewrite !optProp_returns, !orElse_fieldAt. auto.
Qed.

(** The cases the specification lists. *)
Lemma extraction_absent_record :
  getTotalGateCount VUndefined = Returns (VNum 0)
  /\ getDaGas VUndefined = Returns (VNum 0)
  /\ getL2Gas VUndefined = Returns (VNum 0).
Proof. repeat split. Qed.

Lemma extraction_no_gas (props : list (jsstring * value)) :
  lookup (lit "gas") props = None ->
  getDaGas (VObj props) = Returns (VNum 0)
  /\ getL2Gas (VObj props) = Returns (VNum 0).
Proof.
  intros H. unfold getDaGas, getL2Gas, optProp, getProp.
  rewrite H. split; reflexivity.
Qed.

Lemma extraction_no_gasLimits (props gas : list (jsstring * value)) :
  lookup (lit "gas") props = Some (VObj gas) ->
  lookup (lit "gasLimits") gas = None ->
  getDaGas (VObj props) = Returns (VNum 0)
  /\ getL2Gas (VObj props) = Returns (VNum 0).
Proof.
  intros H1 H2. unfold getDaGas, getL2Gas, optProp, getProp.
  rewrite H1. unfold bind. rewrite H2. split; reflexivity.
Qed.

Lemma extraction_no_scalar (props gas limits : list (jsstring * value)) :
  lookup (lit "totalGateCount") props = None ->
  lookup (lit "gas") props = Some (VObj gas) ->
  lookup (lit "gasLimits") gas = Some (VObj limits) ->
  lookup (lit "daGas") limits = None ->
  lookup (lit "l2Gas") limits = None ->
  getTotalGateCount (VObj props) = Returns (VNum 0)
  /\ getDaGas (VObj props) = Returns (VNum 0)
  /\ getL2Gas (VObj props) = Returns (VNum 0).
Proof.
  intros H0 H1 H2 H3 H4.
  unfold getTotalGateCount, getDaGas, getL2Gas, optProp, getProp.
  rewrite H0, H1. unfold bind. rewrite H2, H3, H4. repeat split.
Qed.

(** ** Strings and their order *)

Lemma streq_spec (a b : jsstring) : streq a b = true <-> a = b.
Proof.
  revert b. induction a as [| x a IH]; intros [| y b]; simpl;
    try (split; [discriminate | discriminate]); [tauto |].
  rewrite andb_true_iff, N.eqb_eq, IH.
  split; [intros [-> ->]; reflexivity | intros E; inversion E; auto].
Qed.

Lemma streq_refl (a : jsstring) : streq a a = true.
Proof. apply streq_spec. reflexivity. Qed.

Lemma streq_false (a b : jsstring) : streq a b = false <-> a <> b.
Proof. rewrite <- not_true_iff_false, streq_spec. tauto. Qed.

Lemma strcmp_eq (a b : jsstring) : strcmp a b = Eq <-> a = b.
Proof.
  revert b. induction a as [| x a IH]; intros [| y b]; simpl;
    try (split; [discriminate | discriminate]); [tauto |].
  destruct (N.compare_spec x y) as [E | L | G].
  - subst y. rewrite IH. split; [intros ->; reflexivity |].
    intros H; inversion H; reflexivity.
  - split; [discriminate |]. intros H; inversion H; subst. lia.
  - split; [discriminate |]. intros H; inversion H; subst. lia.
Qed.

Lemma strcmp_antisym (a b : jsstring) : strcmp b a = CompOpp (strcmp a b).
Proof.
  revert b. induction a as [| x a IH]; intros [| y b]; simpl; auto.
  rewrite (N.compare_antisym x y).
  destruct (N.compare x y); simpl; auto.
Qed.

Lemma strcmp_trans (a b c : jsstring) :
  strcmp a b = Lt -> strcmp b c = Lt -> strcmp a c = Lt.
Proof.
  revert b c. induction a as [| x a IH]; intros [| y b] [| z c]; simpl;
    try discriminate; auto.
  destruct (N.compare_spec x y) as [E1 | L1 | G1]; try discriminate;
    destruct (N.compare_spec y z) as [E2 | L2 | G2]; try discriminate;
    intros H1 H2.
  - subst. rewrite N.compare_refl. eapply IH; eauto.
  - subst. rewrite (proj2 (N.compare_lt_iff _ _) L2). reflexivity.
  - subst. rewrite (proj2 (N.compare_lt_iff _ _) L1). reflexivity.
  - rewrite (proj2 (N.compare_lt_iff x z)) by lia. reflexivity.
Qed.

Lemma defaultCompare_le (a b : jsstring) :
  (defaultCompare a b <= 0)%Z <-> a = b \/ strlt a b.
Proof.
  unfold defaultCompare, strlt. rewrite <- strcmp_eq.
  destruct (strcmp a b); split; intros H; try lia; auto;
    destruct H; discriminate.
Qed.

Lemma defaultCompare_consistent : consistentComparator defaultCompare.
Proof.
  split.
  - intros a b. unfold defaultCompare. rewrite (strcmp_antisym a b).
    destruct (strcmp a b); simpl; lia.
  - intros a b c. rewrite !defaultCompare_le. unfold strlt.
    intros [-> | H1] [-> | H2]; auto.
    right. eapply strcmp_trans; eauto.
Qed.

(** ** Sorting *)

Section SortFacts.
Context {A : Type} (cmp : A -> A -> Z).

Lemma insertSorted_Permutation (x : A) (l : list A) :
  Permutation (insertSorted cmp x l) (x :: l).
Proof.
  induction l as [| y l IH]; simpl; [reflexivity |].
  destruct (cmp y x <? 0)%Z; [| reflexivity].
  rewrite IH. apply perm_swap.
Qed.

Lemma sortBy_Permutation (l : list A) : Permutation (sortBy cmp l) l.
Proof.
  induction l as [| x l IH]; simpl; [reflexivity |].
  rewrite insertSorted_Permutation. apply perm_skip. exact IH.
Qed.

Lemma sortBy_In (x : A) (l : list A) : In x (sortBy cmp l) <-> In x l.
Proof.
  split; apply Permutation_in;
    [apply sortBy_Permutation | symmetry; apply sortBy_Permutation].
Qed.

Hypothesis cmp_consistent : consistentComparator cmp.

Lemma insertSorted_sorted (x : A) (l : list A) :
  StronglySorted (notAfter cmp) l ->
  StronglySorted (notAfter cmp) (insertSorted cmp x l).
Proof.
  destruct cmp_consistent as [Hopp Htrans].
  induction 1 as [| y l Hs IH Hall]; simpl.
  - constructor; constructor.
  - destruct (Z.ltb_spec (cmp y x) 0) as [Hlt | Hge].
    + constructor; [exact IH |].
      rewrite Forall_forall. intros z Hz.
      apply (Permutation_in _ (insertSorted_Permutation x l)) in Hz.
      destruct Hz as [<- | Hz]; [unfold notAfter; lia |].
      rewrite Forall_forall in Hall. auto.
    + assert (Hxy : notAfter cmp x y) by (apply Hopp; exact Hge).
      constructor; [constructor; assumption |].
      constructor; [exact Hxy |].
      rewrite Forall_forall in *. intros z Hz.
      apply (Htrans x y z); auto. apply Hall; exact Hz.
Qed.

Lemma sortBy_sorted (l : list A) : StronglySorted (notAfter cmp) (sortBy cmp l).
Proof.
  induction l as [| x l IH]; simpl; [constructor |].
  apply insertSorted_sorted. exact IH.
Qed.

End SortFacts.

Lemma StronglySorted_filter {A : Type} (R : A -> A -> Prop) (f : A -> bool)
  (l : list A) :
  StronglySorted R l -> StronglySorted R (filter f l).
Proof.
  induction 1 as [| x l Hs IH Hall]; simpl; [constructor |].
  destruct (f x); [| exact IH].
  constructor; [exact IH |].
  rewrite Forall_forall in *. intros y Hy.
  apply filter_In in Hy. apply Hall. tauto.
Qed.

(** A duplicate-free list sorted by the default comparator is strictly
    increasing. *)
Lemma sorted_NoDup_strict (l : list jsstring) :
  NoDup l -> StronglySorted (notAfter defaultCompare) l ->
  StronglySorted strlt l.
Proof.
  intros Hnd Hs. induction Hs as [| x l Hs IH Hall]; [constructor |].
  inversion Hnd as [| ? ? Hnotin Hnd']; subst.
  constructor; [auto |].
  rewrite Forall_forall in *. intros y Hy.
  specialize (Hall y Hy). unfold notAfter in Hall.
  apply defaultCompare_le in Hall.
  destruct Hall as [-> | H]; [contradiction | exact H].
Qed.

(** ** The comparison object *)

Lemma setOwn_keys_In {A : Type} (o : list (jsstring * A)) (k : jsstring)
  (v : A) (x : jsstring) :
  In x (map fst (setOwn o k v)) -> x = k \/ In x (map fst o).
Proof.
  induction o as [| [k' v'] o IH]; simpl.
  - intros [<- | []]; auto.
  - destruct (streq k' k); simpl; [tauto |].
    intros [<- | H]; [tauto |]. destruct (IH H); auto.
Qed.

Lemma setOwn_keys_NoDup {A : Type} (o : list (jsstring * A)) (k : jsstring)
  (v : A) :
  NoDup (map fst o) -> NoDup (map fst (setOwn o k v)).
Proof.
  induction o as [| [k' v'] o IH]; simpl; intros Hnd.
  - constructor; [intros [] | constructor].
  - inversion Hnd as [| ? ? Hnotin Hnd']; subst.
    destruct (streq k' k) eqn:E; simpl; [constructor; assumption |].
    apply streq_false in E.
    constructor; [| auto].
    intros Hin. apply setOwn_keys_In in Hin. destruct Hin; auto.
Qed.

Lemma assign_keysInvariant (P : jsstring -> Prop) {A : Type}
  (o : list (jsstring * A)) (k : jsstring) (v : A) :
  P k -> keysInvariant P o -> keysInvariant P (assign o k v).
Proof.
  intros Hk [Hnd Hall]. unfold assign.
  destruct (streq k (lit "__proto__")); [split; assumption |].
  split; [apply setOwn_keys_NoDup; exact Hnd |].
  rewrite Forall_forall in *. intros x Hx.
  apply setOwn_keys_In in Hx. destruct Hx as [-> | Hx]; auto.
Qed.

Lemma survivingName_kept (name : value) (s : jsstring) :
  survivingName name = Returns (Some s) ->
  name = VStr s /\ excludedName s = false.
Proof.
  unfold survivingName, excludedName.
  destruct name as [| | b | q | t | l | o]; simpl;
    try discriminate;
    try (destruct (negb b); discriminate);
    try (destruct (Qeq_bool q 0); discriminate).
  destruct t as [| c t]; [discriminate |].
  destruct (startsWith (c :: t) (lit "unknown_function")
            || includes (c :: t) (lit "(FAILED)")
            || streq (c :: t) (lit "BENCHMARK_RUNNER_ERROR")) eqn:E;
    [discriminate |].
  intros H. inversion H; subst s. split; [reflexivity |].
  simpl in *. exact E.
Qed.

Ltac bind_cases H :=
  repeat match type of H with
    | bind ?c _ = Returns _ =>
        let E := fresh "E" in
        destruct c eqn:E; simpl in H; [| discriminate H | discriminate H]
    end.

Lemma compareNames_keysInvariant (mainResults prResults : value)
  (names : list value) :
  forall comparison result,
    keysInvariant (fun k => excludedName k = false) comparison ->
    compareNames mainResults prResults names comparison = Returns result ->
    keysInvariant (fun k => excludedName k = false) result.
Proof.
  induction names as [| name rest IH]; intros comparison result Hinv H;
    simpl in H.
  - inversion H; subst; exact Hinv.
  - bind_cases H. destruct a as [s |].
    + bind_cases H. apply survivingName_kept in E. destruct E as [_ Ex].
      eapply IH; [| exact H].
      apply assign_keysInvariant; assumption.
    + eapply IH; eauto.
Qed.

Lemma buildComparison_keysInvariant (mainData prData : value)
  (comparison : list (jsstring * Metrics value)) :
  buildComparison mainData prData = Returns comparison ->
  keysInvariant (fun k => excludedName k = false) comparison.
Proof.
  unfold buildComparison. intros H. bind_cases H.
  eapply compareNames_keysInvariant; [| exact H].
  split; constructor.
Qed.

Lemma filter_partition_Permutation {A : Type} (f : A -> bool) (l : list A) :
  Permutation (filter f l ++ filter (fun x => negb (f x)) l) l.
Proof.
  induction l as [| x l IH]; simpl; [reflexivity |].
  destruct (f x); simpl.
  - apply perm_skip. exact IH.
  - rewrite <- Permutation_middle. apply perm_skip. exact IH.
Qed.

Lemma objectKeys_Permutation {A : Type} (o : list (jsstring * A)) :
  Permutation (objectKeys o) (map fst o).
Proof.
  unfold objectKeys.
  rewrite sortBy_Permutation. apply filter_partition_Permutation.
Qed.

Lemma sortedRows_names (comparison : list (jsstring * Metrics value)) :
  map fst (sortedRows comparison) =
  filter
    (fun n => match lookup n comparison with Some _ => true | None => false end)
    (sortBy defaultCompare (objectKeys comparison)).
Proof.
  unfold sortedRows.
  induction (sortBy defaultCompare (objectKeys comparison)) as [| n l IH];
    simpl; [reflexivity |].
  destruct (lookup n comparison); simpl; rewrite IH; reflexivity.
Qed.

Lemma numericRows_names (rows : list (jsstring * Metrics value)) :
  forall numeric,
    numericRows rows = Returns numeric -> map fst numeric = map fst rows.
Proof.
  induction rows as [| [n m] rows IH]; simpl; intros numeric H.
  - inversion H; reflexivity.
  - destruct (numericMetrics m); [| discriminate].
    bind_cases H. inversion H; subst. simpl. f_equal. auto.
Qed.

Lemma sortedRows_keys (comparison : list (jsstring * Metrics value)) :
  keysInvariant (fun k => excludedName k = false) comparison ->
  Forall (fun name => excludedName name = false)
    (map fst (sortedRows comparison))
  /\ StronglySorted strlt (map fst (sortedRows comparison)).
Proof.
  intros [Hnd Hall]. rewrite sortedRows_names.
  pose proof (objectKeys_Permutation comparison) as Hperm.
  pose proof (sortBy_Permutation defaultCompare (objectKeys comparison))
    as Hsort.
  split.
  - rewrite Forall_forall in *. intros n Hn.
    apply filter_In in Hn. destruct Hn as [Hn _].
    apply Hall. eapply Permutation_in; [exact Hperm |].
    eapply Permutation_in; [exact Hsort | exact Hn].
  - apply StronglySorted_filter. apply sorted_NoDup_strict.
    + eapply Permutation_NoDup; [symmetry; exact Hsort |].
      eapply Permutation_NoDup; [symmetry; exact Hperm | exact Hnd].
    + apply sortBy_sorted. exact defaultCompare_consistent.
Qed.

Lemma buildComparison_rows (mainData prData : value)
  (comparison : list (jsstring * Metrics value)) :
  buildComparison mainData prData = Returns comparison ->
  Forall (fun row => excludedName (fst row) = false) (sortedRows comparison)
  /\ StronglySorted strlt (map fst (sortedRows comparison)).
Proof.
  intros H. apply buildComparison_keysInvariant in H.
  destruct (sortedRows_keys comparison H) as [Hex Hs].
  rewrite Forall_map in Hex. split; assumption.
Qed.

Lemma sortedRows_wellFormed (comparison : list (jsstring * Metrics value))
  (rows : list (jsstring * Metrics Q)) :
  keysInvariant (fun k => excludedName k = false) comparison ->
  numericRows (sortedRows comparison) = Returns rows ->
  wellFormedRows rows.
Proof.
  intros Hinv H. unfold wellFormedRows.
  rewrite (numericRows_names _ _ H). apply sortedRows_keys. exact Hinv.
Qed.

Lemma compareDocuments_returns (contractName : jsstring)
  (mainData prData : value) (threshold : Q) (text : jsstring) :
  compareDocuments contractName mainData prData threshold = Returns text ->
  text = invalidStructureMessage contractName
  \/ text = noFunctionsMessage
  \/ exists rows, text = tableText threshold rows /\ wellFormedRows rows.
Proof.
  unfold compareDocuments. intros H.
  destruct (lacksResults mainData) as [mainLacks | |]; simpl in H;
    try discriminate.
  destruct (if mainLacks then Returns true else lacksResults prData)
    as [prLacks | |]; simpl in H; try discriminate.
  destruct prLacks; [inversion H; auto |].
  destruct (buildComparison mainData prData) as [comparison | |] eqn:Eb;
    simpl in H; try discriminate.
  destruct (List.length (sortBy defaultCompare (objectKeys comparison))
            =? 0)%nat;
    [inversion H; auto |].
  destruct (numericRows (sortedRows comparison)) as [rows | |] eqn:Er;
    simpl in H; try discriminate.
  inversion H; subst. right. right.
  exists rows. split; [reflexivity |].
  eapply sortedRows_wellFormed; [| exact Er].
  eapply buildComparison_keysInvariant; exact Eb.
Qed.

Lemma generateContractComparisonTable_returns (h : Host)
  (pair : BenchmarkPair) (threshold : Q) (text : jsstring) :
  generateContractComparisonTable h pair threshold = Returns text ->
  placeholder (contractName pair) text
  \/ exists rows, text = tableText threshold rows /\ wellFormedRows rows.
Proof.
  unfold generateContractComparisonTable, placeholder, errorPlaceholder.
  destruct (negb (existsSync h (baseJsonPath pair))
            || negb (existsSync h (prJsonPath pair))).
  - intros H; inversion H; auto.
  - destruct (readJSON h (baseJsonPath pair)) as [msg | mainData].
    + intros H; inversion H; eauto 6.
    + destruct (readJSON h (prJsonPath pair)) as [msg | prData].
      * intros H; inversion H; eauto 6.
      * intros H. apply compareDocuments_returns in H.
        destruct H as [-> | [-> | H]]; auto.
Qed.

(** C4. Whatever the two report documents and the threshold, what
    [generateContractComparisonTable] returns is a placeholder text or a
    table none of whose rows names a function with an excluded name
    (empty, starting with [unknown_function], containing [(FAILED)], or
    equal to [BENCHMARK_RUNNER_ERROR]); and for any two parsed documents
    none of the entries the rows are made from has such a name. *)
Theorem C4_excluded_names_have_no_row (h : Host) (pair : BenchmarkPair)
  (threshold : Q) :
  (forall text,
     generateContractComparisonTable h pair threshold = Returns text ->
     placeholder (contractName pair) text
     \/ exists rows,
          text = tableText threshold rows
          /\ Forall (fun row => excludedName (fst row) = false) rows)
  /\ (forall mainData prData comparison,
        buildComparison mainData prData = Returns comparison ->
        Forall (fun row => excludedName (fst row) = false)
          (sortedRows comparison)).
Proof.
  split.
  - intros text H. apply generateContractComparisonTable_returns in H.
    destruct H as [H | [rows [Htext [Hex _]]]]; [left; exact H | right].
    exists rows. split; [exact Htext |].
    rewrite Forall_map in Hex. exact Hex.
  - intros mainData prData comparison H.
    apply (buildComparison_rows _ _ _ H).
Qed.

Lemma C4_witness :
  generateContractComparisonTable tokenHost (pairOf (lit "Token")) 5
  = Returns (tableText 5 tokenRows)
  /\ (placeholder (lit "Token") (tableText 5 tokenRows)
      \/ exists rows,
           tableText 5 tokenRows = tableText 5 rows
           /\ Forall (fun row => excludedName (fst row) = false) rows).
Proof.
  assert (H : generateContractComparisonTable tokenHost
                (pairOf (lit "Token")) 5
              = Returns (tableText 5 tokenRows))
    by (vm_compute; reflexivity).
  split; [exact H |].
  exact (proj1 (C4_excluded_names_have_no_row tokenHost
                  (pairOf (lit "Token")) 5)
           (tableText 5 tokenRows) H).
Defined.

(** ** The document *)

Lemma startsWith_app (p s : jsstring) : startsWith (p ++ s) p = true.
Proof.
  induction p as [| x p IH]; simpl; [destruct s; reflexivity |].
  rewrite N.eqb_refl. exact IH.
Qed.

Lemma join_cons (sep a b : jsstring) (rest : list jsstring) :
  join sep (a :: b :: rest) = a ++ sep ++ join sep (b :: rest).
Proof. reflexivity. Qed.

Lemma documentOf_marker (sections : list (BenchmarkPair * jsstring)) :
  startsWith (documentOf sections) marker = true.
Proof.
  unfold documentOf.
  change ([marker ++ nl; lit "# Benchmark Comparison" ++ nl]
          ++ flat_map sectionLines sections)
    with ((marker ++ nl) :: (lit "# Benchmark Comparison" ++ nl)
          :: flat_map sectionLines sections).
  rewrite join_cons, <- app_assoc. apply startsWith_app.
Qed.

Lemma sections_returns (h : Host) (threshold : Q)
  (pairs : list BenchmarkPair) :
  forall body,
    sections h threshold pairs = Returns body ->
    exists tables,
      Forall2
        (fun p t => generateContractComparisonTable h p threshold = Returns t)
        pairs tables
      /\ body = flat_map sectionLines (combine pairs tables).
Proof.
  induction pairs as [| p pairs IH]; simpl; intros body H.
  - inversion H. exists []. split; [constructor | reflexivity].
  - destruct (generateContractComparisonTable h p threshold)
      as [t | |] eqn:Et; simpl in H; try discriminate.
    destruct (sections h threshold pairs) as [more | |]; simpl in H;
      try discriminate.
    destruct (IH more eq_refl) as [tables [Hall Hmore]].
    inversion H; subst. exists (t :: tables).
    split; [constructor; assumption | reflexivity].
Qed.

Lemma sections_total (h : Host) (threshold : Q)
  (pairs : list BenchmarkPair) :
  (forall p, In p pairs ->
     exists t, generateContractComparisonTable h p threshold = Returns t) ->
  exists body, sections h threshold pairs = Returns body.
Proof.
  induction pairs as [| p pairs IH]; simpl; intros Hall.
  - eexists; reflexivity.
  - destruct (Hall p (or_introl eq_refl)) as [t Ht]. rewrite Ht. simpl.
    destruct IH as [more Hmore]; [intros q Hq; apply Hall; auto |].
    rewrite Hmore. simpl. eexists; reflexivity.
Qed.

Lemma length_zero_nil {A : Type} (l : list A) :
  (List.length l =? 0)%nat = true <-> l = [].
Proof.
  destruct l; simpl; split; intros H; try reflexivity; discriminate.
Qed.

(** What [runComparison] returns: the fixed text when no pair is
    discovered, otherwise the document of the sorted pairs. *)
Lemma runComparison_returns (h : Host) (inputs : Inputs) (doc : jsstring) :
  runComparison h inputs = Returns doc ->
  (discoveredPairs h inputs = [] /\ doc = noPairsDocument)
  \/ (discoveredPairs h inputs <> []
      /\ exists tables,
           Forall2
             (fun p t =>
                generateContractComparisonTable h p (threshold inputs)
                = Returns t)
             (sortedPairs h inputs) tables
           /\ doc = documentOf (combine (sortedPairs h inputs) tables)).
Proof.
  unfold runComparison, sortedPairs, discoveredPairs.
  set (pairs := findBenchmarkPairs h (reportsDir inputs) (baseSuffix inputs)
                  (prSuffix inputs)).
  destruct (List.length pairs =? 0)%nat eqn:E.
  - apply length_zero_nil in E. intros H. inversion H. auto.
  - intros H. right. split.
    + intros Hnil. rewrite Hnil in E. discriminate.
    + destruct (sections h (threshold inputs) (sortBy (comparePairs h) pairs))
        as [body | |] eqn:Es; simpl in H; try discriminate.
      apply sections_returns in Es. destruct Es as [tables [Hall Hbody]].
      exists tables. split; [exact Hall |].
      inversion H. subst body. reflexivity.
Qed.

Lemma runComparison_eq (h : Host) (inputs : Inputs) :
  runComparison h inputs =
  if (List.length (discoveredPairs h inputs) =? 0)%nat
  then Returns noPairsDocument
  else
    let* body := sections h (threshold inputs) (sortedPairs h inputs) in
    Returns
      (join nl ([marker ++ nl; lit "# Benchmark Comparison" ++ nl] ++ body)).
Proof. reflexivity. Qed.

Lemma runComparison_no_pairs (h : Host) (inputs : Inputs) :
  discoveredPairs h inputs = [] ->
  runComparison h inputs = Returns noPairsDocument.
Proof.
  unfold runComparison, discoveredPairs. intros ->. reflexivity.
Qed.

(** C6, as the code has it. When at least one pair is discovered, the
    document [runComparison] returns begins with the marker comment; when
    none is discovered (a missing reports directory included) it returns
    the fixed text reporting that no pairs were found, and that text does
    not carry the marker. *)
Theorem C6_marker_when_pairs_found (h : Host) (inputs : Inputs) :
  (discoveredPairs h inputs <> [] ->
   forall doc,
     runComparison h inputs = Returns doc -> startsWith doc marker = true)
  /\ (discoveredPairs h inputs = [] ->
      runComparison h inputs = Returns noPairsDocument
      /\ startsWith noPairsDocument marker = false).
Proof.
  split.
  - intros Hne doc H. apply runComparison_returns in H.
    destruct H as [[Hnil _] | [_ [tables [_ ->]]]]; [contradiction |].
    apply documentOf_marker.
  - intros Hnil. split; [apply runComparison_no_pairs; exact Hnil |].
    reflexivity.
Qed.

Lemma C6_witness :
  discoveredPairs tokenHost (actionInputs 5) <> []
  /\ runComparison tokenHost (actionInputs 5)
     = Returns
         (documentOf [(pairOf (lit "Token"), tableText 5 tokenRows)])
  /\ startsWith
       (documentOf [(pairOf (lit "Token"), tableText 5 tokenRows)]) marker
     = true.
Proof.
  assert (Hne : discoveredPairs tokenHost (actionInputs 5) <> [])
    by (vm_compute; discriminate).
  assert (Hrun : runComparison tokenHost (actionInputs 5)
                 = Returns
                     (documentOf
                        [(pairOf (lit "Token"), tableText 5 tokenRows)]))
    by (vm_compute; reflexivity).
  split; [exact Hne |]. split; [exact Hrun |].
  exact (proj1 (C6_marker_when_pairs_found tokenHost (actionInputs 5))
           Hne _ Hrun).
Defined.

(** C6 as stated fails: with no reports directory the returned document
    reports that no pairs were found and does not begin with the marker. *)
Lemma C6_counterexample :
  readdirSync bareHost (reportsDir (actionInputs 5)) = None
  /\ runComparison bareHost (actionInputs 5) = Returns noPairsDocument
  /\ startsWith noPairsDocument marker = false.
Proof. repeat split. Qed.

(** ** The order of sections and rows *)

Lemma collate_consistent : consistentComparator collate.
Proof.
  destruct defaultCompare_consistent as [Dopp Dtrans].
  split.
  - intros a b. unfold collate.
    rewrite (strcmp_antisym (map primaryWeight a) (map primaryWeight b)).
    destruct (strcmp (map primaryWeight a) (map primaryWeight b)); simpl;
      try lia.
    apply Dopp.
  - intros a b c. unfold collate.
    destruct (strcmp (map primaryWeight a) (map primaryWeight b)) eqn:Eab;
      destruct (strcmp (map primaryWeight b) (map primaryWeight c)) eqn:Ebc;
      try lia.
    + apply strcmp_eq in Eab, Ebc. rewrite Eab, Ebc.
      rewrite (proj2 (strcmp_eq _ _) eq_refl). apply Dtrans.
    + apply strcmp_eq in Eab. rewrite Eab, Ebc. lia.
    + apply strcmp_eq in Ebc. rewrite <- Ebc, Eab. lia.
    + rewrite (strcmp_trans _ _ _ Eab Ebc). lia.
Qed.

Lemma comparePairs_consistent (h : Host) :
  consistentComparator (localeCompare h) ->
  consistentComparator (comparePairs h).
Proof.
  intros [Hopp Htrans]. unfold comparePairs. split.
  - intros a b. apply Hopp.
  - intros a b c. apply Htrans.
Qed.

Lemma StronglySorted_map {A B : Type} (f : A -> B) (R : B -> B -> Prop)
  (l : list A) :
  StronglySorted (fun x y => R (f x) (f y)) l -> StronglySorted R (map f l).
Proof.
  induction 1 as [| x l Hs IH Hall]; simpl; constructor; auto.
  rewrite Forall_map. exact Hall.
Qed.

Lemma sortedPairs_sorted (h : Host) (inputs : Inputs) :
  consistentComparator (localeCompare h) ->
  StronglySorted (notAfter (localeCompare h))
    (map contractName (sortedPairs h inputs)).
Proof.
  intros Hc. apply StronglySorted_map.
  exact (sortBy_sorted (comparePairs h) (comparePairs_consistent h Hc) _).
Qed.

Lemma Forall2_length_eq {A B : Type} (R : A -> B -> Prop) (l : list A)
  (l' : list B) :
  Forall2 R l l' -> List.length l' = List.length l.
Proof. induction 1; simpl; congruence. Qed.

(** C5, as the code has it. The sections of the document follow the order
    of [localeCompare] on the contract names (the host's collation, not the
    order of code units), and the rows of every table are sorted by
    function name in code-unit order. *)
Theorem C5_sections_by_collation_rows_by_code_units (h : Host)
  (inputs : Inputs) :
  consistentComparator (localeCompare h) ->
  StronglySorted (notAfter (localeCompare h))
    (map contractName (sortedPairs h inputs))
  /\ Permutation (sortedPairs h inputs) (discoveredPairs h inputs)
  /\ (forall doc,
        runComparison h inputs = Returns doc ->
        discoveredPairs h inputs <> [] ->
        exists tables,
          List.length tables = List.length (sortedPairs h inputs)
          /\ doc = documentOf (combine (sortedPairs h inputs) tables))
  /\ (forall pair text,
        generateContractComparisonTable h pair (threshold inputs)
        = Returns text ->
        placeholder (contractName pair) text
        \/ exists rows,
             text = tableText (threshold inputs) rows
             /\ StronglySorted strlt (map fst rows))
  /\ (forall mainData prData comparison,
        buildComparison mainData prData = Returns comparison ->
        StronglySorted strlt (map fst (sortedRows comparison))).
Proof.
  intros Hc. split; [apply sortedPairs_sorted; exact Hc |].
  split; [apply sortBy_Permutation |]. split; [| split].
  - intros doc H Hne. apply runComparison_returns in H.
    destruct H as [[Hnil _] | [_ [tables [Hall ->]]]]; [contradiction |].
    exists tables. split; [| reflexivity].
    eapply Forall2_length_eq; exact Hall.
  - intros pair text H. apply generateContractComparisonTable_returns in H.
    destruct H as [H | [rows [Htext [_ Hs]]]]; [left; exact H | right].
    exists rows. split; assumption.
  - intros mainData prData comparison H.
    apply (buildComparison_rows _ _ _ H).
Qed.

Lemma C5_witness :
  consistentComparator (localeCompare zooHost)
  /\ StronglySorted (notAfter (localeCompare zooHost))
       (map contractName (sortedPairs zooHost (actionInputs 5)))
  /\ Permutation (sortedPairs zooHost (actionInputs 5))
       (discoveredPairs zooHost (actionInputs 5)).
Proof.
  split; [exact collate_consistent |].
  destruct (C5_sections_by_collation_rows_by_code_units zooHost
              (actionInputs 5) collate_consistent) as [H1 [H2 _]].
  split; assumption.
Defined.

(** C5 as stated fails: for the contracts [Zebra] and [apple] the section
    of [apple] comes first, although [Zebra] has the smaller code units. *)
Lemma C5_counterexample :
  map contractName (sortedPairs zooHost (actionInputs 5))
  = [lit "apple"; lit "Zebra"]
  /\ strlt (lit "Zebra") (lit "apple")
  /\ runComparison zooHost (actionInputs 5)
     = Returns
         (documentOf [ (pairOf (lit "apple"), noFunctionsMessage);
                       (pairOf (lit "Zebra"), noFunctionsMessage) ])
  /\ ~ StronglySorted (notAfter defaultCompare)
         (map contractName (sortedPairs zooHost (actionInputs 5))).
Proof.
  assert (E : map contractName (sortedPairs zooHost (actionInputs 5))
              = [lit "apple"; lit "Zebra"]) by (vm_compute; reflexivity).
  split; [exact E |]. split; [vm_compute; reflexivity |].
  split; [vm_compute; reflexivity |].
  rewrite E. intros Hs. inversion Hs as [| ? ? _ Hall]; subst.
  inversion Hall as [| ? ? Hle _]; subst.
  vm_compute in Hle. apply Hle. reflexivity.
Qed.

(** ** Failures of one pair *)

Lemma lacksResults_total (data : value) :
  exists b, lacksResults data = Returns b.
Proof.
  unfold lacksResults. destruct (falsy data) eqn:E; [eauto |].
  destruct data; simpl in *; try discriminate; eauto.
Qed.

Lemma lacksResults_field (data : value) :
  lacksResultsField data -> lacksResults data = Returns true.
Proof.
  unfold lacksResults, lacksResultsField.
  destruct (falsy data) eqn:E; [reflexivity |].
  destruct data; simpl in *; try discriminate; try reflexivity.
  intros ->. reflexivity.
Qed.

Lemma compareDocuments_lacking (contractName : jsstring)
  (mainData prData : value) (threshold : Q) :
  lacksResultsField mainData \/ lacksResultsField prData ->
  compareDocuments contractName mainData prData threshold
  = Returns (invalidStructureMessage contractName).
Proof.
  unfold compareDocuments. intros [H | H].
  - rewrite (lacksResults_field _ H). reflexivity.
  - destruct (lacksResults_total mainData) as [b ->]. simpl.
    destruct b; [reflexivity |].
    rewrite (lacksResults_field _ H). reflexivity.
Qed.

Lemma pairFailure_placeholder (h : Host) (pair : BenchmarkPair)
  (threshold : Q) :
  pairFailure h pair ->
  exists text,
    generateContractComparisonTable h pair threshold = Returns text
    /\ errorPlaceholder (contractName pair) text.
Proof.
  unfold generateContractComparisonTable, errorPlaceholder, pairFailure.
  intros Hfail.
  destruct (negb (existsSync h (baseJsonPath pair))
            || negb (existsSync h (prJsonPath pair))); [eauto |].
  destruct (readJSON h (baseJsonPath pair)) as [m1 | mainData] eqn:E1;
    [eauto 6 |].
  destruct (readJSON h (prJsonPath pair)) as [m2 | prData] eqn:E2;
    [eauto 6 |].
  destruct Hfail as [[m H] | [[m H] | [md [pd [H1 [H2 H]]]]]];
    try discriminate.
  inversion H1; inversion H2; subst.
  rewrite (compareDocuments_lacking _ _ _ _ H). eauto.
Qed.

(** C7, as the code has it. A pair one of whose files cannot be read or
    parsed, or one of whose documents has no [results] field, gets a
    textual error placeholder and nothing is raised; and when the
    comparison of every discovered pair returns, [runComparison] returns a
    document with one section per discovered pair. *)
Theorem C7_pair_failures_become_placeholders (h : Host) (inputs : Inputs) :
  (forall pair,
     pairFailure h pair ->
     exists text,
       generateContractComparisonTable h pair (threshold inputs)
       = Returns text
       /\ errorPlaceholder (contractName pair) text)
  /\ ((forall p, In p (discoveredPairs h inputs) ->
         exists t,
           generateContractComparisonTable h p (threshold inputs)
           = Returns t) ->
      exists doc,
        runComparison h inputs = Returns doc
        /\ (discoveredPairs h inputs <> [] ->
            exists tables,
              Forall2
                (fun p t =>
                   generateContractComparisonTable h p (threshold inputs)
                   = Returns t)
                (sortedPairs h inputs) tables
              /\ doc = documentOf (combine (sortedPairs h inputs) tables)
              /\ Permutation (sortedPairs h inputs)
                   (discoveredPairs h inputs))).
Proof.
  split; [intros pair; apply pairFailure_placeholder |].
  intros Hall.
  assert (Hbody : exists body,
            sections h (threshold inputs) (sortedPairs h inputs)
            = Returns body).
  { apply sections_total. intros p Hp. apply Hall.
    unfold sortedPairs in Hp. apply sortBy_In in Hp. exact Hp. }
  destruct Hbody as [body Hbody].
  assert (Hrun : exists doc, runComparison h inputs = Returns doc).
  { rewrite runComparison_eq.
    destruct (List.length (discoveredPairs h inputs) =? 0)%nat;
      [eauto |].
    rewrite Hbody. simpl. eauto. }
  destruct Hrun as [doc Hrun]. exists doc. split; [exact Hrun |].
  intros Hne. apply runComparison_returns in Hrun.
  destruct Hrun as [[Hnil _] | [_ [tables [Htables Hdoc]]]];
    [contradiction |].
  exists tables. split; [exact Htables |]. split; [exact Hdoc |].
  apply sortBy_Permutation.
Qed.

Lemma C7_witness :
  pairFailure brokenFileHost (pairOf (lit "A"))
  /\ (exists text,
        generateContractComparisonTable brokenFileHost (pairOf (lit "A"))
          (threshold (actionInputs 5))
        = Returns text
        /\ errorPlaceholder (lit "A") text)
  /\ (exists doc,
        runComparison brokenFileHost (actionInputs 5) = Returns doc)
  /\ runComparison brokenFileHost (actionInputs 5)
     = Returns
         (documentOf
            [ (pairOf (lit "A"),
               parseErrorMessage (lit "A")
                 (lit "Unexpected end of JSON input"));
              (pairOf (lit "B"), noFunctionsMessage) ]).
Proof.
  assert (Hfail : pairFailure brokenFileHost (pairOf (lit "A")))
    by (left; eexists; vm_compute; reflexivity).
  assert (Hall : forall p,
            In p (discoveredPairs brokenFileHost (actionInputs 5)) ->
            exists t,
              generateContractComparisonTable brokenFileHost p
                (threshold (actionInputs 5))
              = Returns t).
  { intros p [<- | [<- | []]]; eexists; vm_compute; reflexivity. }
  destruct (C7_pair_failures_become_placeholders brokenFileHost
              (actionInputs 5)) as [Hone Hrun].
  split; [exact Hfail |].
  split; [exact (Hone _ Hfail) |].
  split; [| vm_compute; reflexivity].
  destruct (Hrun Hall) as [doc [Hdoc _]]. exists doc. exact Hdoc.
Defined.

(** C7 as stated fails: a [null] entry in the [results] of [B] makes the
    comparison of [B] raise a TypeError, which leaves [runComparison]
    without a document, although the comparison of [A] returns. *)
Lemma C7_counterexample :
  readJSON nullEntryHost (prJsonPath (pairOf (lit "B")))
  = inr (report [VNull])
  /\ generateContractComparisonTable nullEntryHost (pairOf (lit "B")) 5
     = Throws TypeError
  /\ generateContractComparisonTable nullEntryHost (pairOf (lit "A")) 5
     = Returns noFunctionsMessage
  /\ runComparison nullEntryHost (actionInputs 5) = Throws TypeError.
Proof. repeat split. Qed.

(** ** The order of the directory listing *)

Lemma withListing_table (h : Host) (files : list jsstring)
  (pair : BenchmarkPair) (threshold : Q) :
  generateContractComparisonTable (withListing h files) pair threshold
  = generateContractComparisonTable h pair threshold.
Proof. reflexivity. Qed.

Lemma withListing_sections (h : Host) (files : list jsstring)
  (threshold : Q) (pairs : list BenchmarkPair) :
  sections (withListing h files) threshold pairs
  = sections h threshold pairs.
Proof.
  induction pairs as [| p pairs IH]; simpl; [reflexivity |].
  rewrite withListing_table, IH. reflexivity.
Qed.

(** The pairs discovered from two listings of the same entries are the
    same up to their order. *)
Lemma findBenchmarkPairs_listing (h : Host) (files files' : list jsstring)
  (reportsDir baseSuffix prSuffix : jsstring) :
  readdirSync h reportsDir = Some files ->
  Permutation files files' ->
  Permutation
    (findBenchmarkPairs h reportsDir baseSuffix prSuffix)
    (findBenchmarkPairs (withListing h files') reportsDir baseSuffix
       prSuffix).
Proof.
  intros Hdir Hperm. unfold findBenchmarkPairs. simpl readdirSync.
  rewrite Hdir.
  apply Permutation_flat_map. exact Hperm.
Qed.

Lemma startsWith_prefix (s p : jsstring) :
  startsWith s p = true -> exists rest, s = p ++ rest.
Proof.
  revert s. induction p as [| y p IH]; intros s H.
  - exists s. reflexivity.
  - destruct s as [| x s]; simpl in H; [discriminate |].
    apply andb_true_iff in H. destruct H as [Hx Hs].
    apply N.eqb_eq in Hx. subst y.
    destruct (IH s Hs) as [rest ->]. exists rest. reflexivity.
Qed.

Lemma endsWith_split (file pattern : jsstring) :
  endsWith file pattern = true ->
  file
  = substring0 file (List.length file - List.length pattern) ++ pattern.
Proof.
  unfold endsWith, substring0. intros H.
  apply startsWith_prefix in H. destruct H as [rest H].
  apply (f_equal (@rev N)) in H. rewrite rev_involutive, rev_app_distr in H.
  rewrite rev_involutive in H. rewrite H at 2 3.
  rewrite length_app. replace (List.length (rev rest) + List.length pattern
                               - List.length pattern)%nat
    with (List.length (rev rest) + 0)%nat by lia.
  rewrite firstn_app_2. simpl. rewrite app_nil_r. exact H.
Qed.

(** A discovered pair is determined by its contract name. *)
Lemma findBenchmarkPairs_In (h : Host)
  (reportsDir baseSuffix prSuffix : jsstring) (p : BenchmarkPair) :
  In p (findBenchmarkPairs h reportsDir baseSuffix prSuffix) ->
  p = {| contractName := contractName p;
         baseJsonPath :=
           pathJoin h reportsDir
             (contractName p ++ baseSuffix ++ lit ".benchmark.json");
         prJsonPath :=
           pathJoin h reportsDir
             (contractName p ++ prSuffix ++ lit ".benchmark.json") |}.
Proof.
  unfold findBenchmarkPairs.
  destruct (readdirSync h reportsDir) as [files |]; [| intros []].
  intros H. apply in_flat_map in H. destruct H as [file [_ H]].
  unfold pairsOfFile in H.
  destruct (endsWith file (prSuffix ++ lit ".benchmark.json")) eqn:E;
    [| destruct H].
  destruct (existsSync h _); [| destruct H].
  destruct H as [<- | []]. simpl.
  rewrite <- (endsWith_split _ _ E). reflexivity.
Qed.

Lemma sorted_Permutation_eq {A : Type} (R : A -> A -> Prop) (l : list A) :
  forall l',
    (forall a b, In a l -> In b l -> R a b -> R b a -> a = b) ->
    StronglySorted R l -> StronglySorted R l' -> Permutation l l' ->
    l = l'.
Proof.
  induction l as [| x l IH]; intros l' Hanti Hs Hs' Hperm.
  - apply Permutation_nil in Hperm. auto.
  - destruct l' as [| y l'];
      [apply Permutation_sym, Permutation_nil in Hperm; discriminate |].
    inversion Hs as [| ? ? Hsl Hall]; subst.
    inversion Hs' as [| ? ? Hsl' Hall']; subst.
    rewrite Forall_forall in Hall, Hall'.
    assert (Hy : In y (x :: l))
      by (apply (Permutation_in _ (Permutation_sym Hperm)); left;
          reflexivity).
    assert (Hx : In x (y :: l'))
      by (apply (Permutation_in _ Hperm); left; reflexivity).
    assert (E : x = y).
    { destruct Hy as [E | Hy]; [exact E |].
      destruct Hx as [E | Hx]; [symmetry; exact E |].
      apply Hanti; simpl; auto. }
    subst y. f_equal.
    apply IH; auto.
    + intros a b Ha Hb. apply Hanti; simpl; auto.
    + eapply Permutation_cons_inv; exact Hperm.
Qed.

(** Where no two discovered contract names tie under [localeCompare], the
    document does not depend on the order of the directory listing. *)
Lemma listing_order_irrelevant_without_ties (h : Host) (inputs : Inputs)
  (files files' : list jsstring) :
  consistentComparator (localeCompare h) ->
  distinguishes (localeCompare h)
    (map contractName (discoveredPairs h inputs)) ->
  readdirSync h (reportsDir inputs) = Some files ->
  Permutation files files' ->
  runComparison (withListing h files') inputs = runComparison h inputs.
Proof.
  intros Hc Hties Hdir Hperm.
  pose proof (findBenchmarkPairs_listing h files files' (reportsDir inputs)
                (baseSuffix inputs) (prSuffix inputs) Hdir Hperm) as Hpairs.
  fold (discoveredPairs h inputs) in Hpairs.
  fold (discoveredPairs (withListing h files') inputs) in Hpairs.
  assert (Hsorted : sortedPairs (withListing h files') inputs
                    = sortedPairs h inputs).
  { symmetry.
    apply (sorted_Permutation_eq (notAfter (comparePairs h))).
    - intros a b Ha Hb Hab Hba.
      apply sortBy_In in Ha, Hb.
      assert (En : contractName a = contractName b).
      { apply Hties; auto; apply in_map; assumption. }
      rewrite (findBenchmarkPairs_In _ _ _ _ _ Ha).
      rewrite (findBenchmarkPairs_In _ _ _ _ _ Hb).
      rewrite En. reflexivity.
    - apply sortBy_sorted. apply comparePairs_consistent. exact Hc.
    - exact (sortBy_sorted (comparePairs h)
               (comparePairs_consistent h Hc) _).
    - unfold sortedPairs.
      fold (discoveredPairs h inputs).
      fold (discoveredPairs (withListing h files') inputs).
      rewrite (sortBy_Permutation (comparePairs h) (discoveredPairs h inputs)).
      rewrite Hpairs. symmetry.
      exact (sortBy_Permutation (comparePairs h) _). }
  rewrite !runComparison_eq, Hsorted, withListing_sections.
  rewrite (Permutation_length Hpairs). reflexivity.
Qed.

(** C8 at its failing input. The directory holds the reports of two
    contracts whose names are the ohm sign and the Greek capital omega,
    which [localeCompare] does not tell apart; listed in one order and in
    the reverse order, the same files give two different documents. *)
Theorem C8_listing_order_changes_document :
  readdirSync omegaHost benchmarksDir = Some omegaListing
  /\ Permutation omegaListing (rev omegaListing)
  /\ localeCompare omegaHost ohm omega = 0%Z
  /\ runComparison omegaHost (actionInputs 5)
     = Returns
         (documentOf [ (pairOf ohm, noFunctionsMessage);
                       (pairOf omega, noFunctionsMessage) ])
  /\ runComparison (withListing omegaHost (rev omegaListing))
       (actionInputs 5)
     = Returns
         (documentOf [ (pairOf omega, noFunctionsMessage);
                       (pairOf ohm, noFunctionsMessage) ])
  /\ documentOf [ (pairOf ohm, noFunctionsMessage);
                  (pairOf omega, noFunctionsMessage) ]
     <> documentOf [ (pairOf omega, noFunctionsMessage);
                     (pairOf ohm, noFunctionsMessage) ].
Proof.
  split; [reflexivity |].
  split; [apply Permutation_rev |].
  split; [reflexivity |].
  split; [vm_compute; reflexivity |].
  split; [vm_compute; reflexivity |].
  vm_compute. discriminate.
Qed.

(** ** The examples of the specification *)

(** Gates up from 100 to 120 with a threshold of 10 is a regression. *)
Example status_regression_example :
  getStatusEmoji
    {| gates := metricPair 100 120; daGas := metricPair 0 0;
       l2Gas := metricPair 0 0 |} 10
  = Regression.
Proof. reflexivity. Qed.

(** The base report has [a] with 100 gates, the candidate report has [a]
    with 100 gates and [b] with 50; with a threshold of 5 the table has the
    two rows [a], unchanged, and [b], new. *)
Example end_to_end_example :
  generateContractComparisonTable tokenHost (pairOf (lit "Token")) 5
  = Returns (tableText 5 tokenRows)
  /\ map (fun row => (fst row, getStatusEmoji (snd row) 5)) tokenRows
     = [(lit "a", Unchanged); (lit "b", New)].
Proof. split; vm_compute; reflexivity. Qed.

(** * Further properties of the comparison engine *)

(** ** Pair discovery *)

Lemma endsWith_app (c pattern : jsstring) :
  endsWith (c ++ pattern) pattern = true.
Proof. unfold endsWith. rewrite rev_app_distr. apply startsWith_app. Qed.

Lemma substring0_app (c pattern : jsstring) :
  substring0 (c ++ pattern)
    (List.length (c ++ pattern) - List.length pattern)
  = c.
Proof.
  unfold substring0. rewrite length_app.
  replace (List.length c + List.length pattern - List.length pattern)%nat
    with (List.length c + 0)%nat by lia.
  rewrite firstn_app_2. simpl. apply app_nil_r.
Qed.

Lemma findBenchmarkPairs_complete (h : Host)
  (reportsDir baseSuffix prSuffix : jsstring) (files : list jsstring)
  (c : jsstring) :
  readdirSync h reportsDir = Some files ->
  In (c ++ prSuffix ++ lit ".benchmark.json") files ->
  existsSync h
    (pathJoin h reportsDir (c ++ baseSuffix ++ lit ".benchmark.json"))
  = true ->
  In {| contractName := c;
        baseJsonPath :=
          pathJoin h reportsDir (c ++ baseSuffix ++ lit ".benchmark.json");
        prJsonPath :=
          pathJoin h reportsDir (c ++ prSuffix ++ lit ".benchmark.json") |}
    (findBenchmarkPairs h reportsDir baseSuffix prSuffix).
Proof.
  intros Hdir Hin Hex. unfold findBenchmarkPairs. rewrite Hdir.
  apply in_flat_map. exists (c ++ prSuffix ++ lit ".benchmark.json").
  split; [exact Hin |].
  unfold pairsOfFile. rewrite endsWith_app, substring0_app, Hex.
  left. reflexivity.
Qed.

Lemma findBenchmarkPairs_sound (h : Host)
  (reportsDir baseSuffix prSuffix : jsstring) (files : list jsstring)
  (p : BenchmarkPair) :
  readdirSync h reportsDir = Some files ->
  In p (findBenchmarkPairs h reportsDir baseSuffix prSuffix) ->
  In (contractName p ++ prSuffix ++ lit ".benchmark.json") files
  /\ existsSync h (baseJsonPath p) = true.
Proof.
  intros Hdir. unfold findBenchmarkPairs. rewrite Hdir.
  intros H. apply in_flat_map in H. destruct H as [file [Hfile H]].
  unfold pairsOfFile in H.
  destruct (endsWith file (prSuffix ++ lit ".benchmark.json")) eqn:E;
    [| destruct H].
  destruct (existsSync h _) eqn:Ex; [| destruct H].
  destruct H as [<- | []]. simpl.
  rewrite <- (endsWith_split _ _ E). split; assumption.
Qed.

(** X1. With a readable reports directory, [findBenchmarkPairs] returns
    exactly the pairs of the contract names [c] for which the entry
    [c + prSuffix + ".benchmark.json"] is listed and the file
    [c + baseSuffix + ".benchmark.json"] exists in the directory; the
    paths of a pair are those two files. *)
Theorem X1_discovered_pairs (h : Host)
  (reportsDir baseSuffix prSuffix : jsstring) (files : list jsstring)
  (p : BenchmarkPair) :
  readdirSync h reportsDir = Some files ->
  (In p (findBenchmarkPairs h reportsDir baseSuffix prSuffix)
   <-> In (contractName p ++ prSuffix ++ lit ".benchmark.json") files
       /\ existsSync h
            (pathJoin h reportsDir
               (contractName p ++ baseSuffix ++ lit ".benchmark.json"))
          = true
       /\ baseJsonPath p
          = pathJoin h reportsDir
              (contractName p ++ baseSuffix ++ lit ".benchmark.json")
       /\ prJsonPath p
          = pathJoin h reportsDir
              (contractName p ++ prSuffix ++ lit ".benchmark.json")).
Proof.
  intros Hdir. split.
  - intros Hin.
    destruct (findBenchmarkPairs_sound _ _ _ _ _ _ Hdir Hin) as [Hf Hex].
    pose proof (findBenchmarkPairs_In _ _ _ _ _ Hin) as Hp.
    assert (Hb : baseJsonPath p
                 = pathJoin h reportsDir
                     (contractName p ++ baseSuffix ++ lit ".benchmark.json"))
      by (rewrite Hp at 1; reflexivity).
    assert (Hc : prJsonPath p
                 = pathJoin h reportsDir
                     (contractName p ++ prSuffix ++ lit ".benchmark.json"))
      by (rewrite Hp at 1; reflexivity).
    rewrite <- Hb. auto.
  - intros [Hf [Hex [Hb Hc]]].
    pose proof (findBenchmarkPairs_complete h reportsDir baseSuffix prSuffix
                  files (contractName p) Hdir Hf Hex) as Hin.
    rewrite <- Hb, <- Hc in Hin. destruct p; exact Hin.
Qed.

Lemma X1_witness :
  readdirSync tokenHost benchmarksDir
  = Some [ lit "Token_latest.benchmark.json";
           lit "Token_base.benchmark.json" ]
  /\ In (pairOf (lit "Token"))
       (findBenchmarkPairs tokenHost benchmarksDir (lit "_base")
          (lit "_latest")).
Proof.
  assert (Hdir : readdirSync tokenHost benchmarksDir
                 = Some [ lit "Token_latest.benchmark.json";
                          lit "Token_base.benchmark.json" ])
    by reflexivity.
  split; [exact Hdir |].
  apply (X1_discovered_pairs tokenHost benchmarksDir (lit "_base")
           (lit "_latest") _ (pairOf (lit "Token")) Hdir).
  split; [left; reflexivity |]. repeat split.
Defined.

(** X2. A reports directory that cannot be listed, or in which no
    candidate file has its base file, makes [runComparison] return the
    fixed document reporting that no pairs were found; nothing is
    raised. *)
Theorem X2_nothing_to_compare (h : Host) (inputs : Inputs) :
  (readdirSync h (reportsDir inputs) = None ->
   runComparison h inputs = Returns noPairsDocument)
  /\ (forall files,
        readdirSync h (reportsDir inputs) = Some files ->
        (forall c,
           In (c ++ prSuffix inputs ++ lit ".benchmark.json") files ->
           existsSync h
             (pathJoin h (reportsDir inputs)
                (c ++ baseSuffix inputs ++ lit ".benchmark.json"))
           = false) ->
        runComparison h inputs = Returns noPairsDocument).
Proof.
  split.
  - intros Hdir. apply runComparison_no_pairs.
    unfold discoveredPairs, findBenchmarkPairs. rewrite Hdir. reflexivity.
  - intros files Hdir Horphan. apply runComparison_no_pairs.
    destruct (discoveredPairs h inputs) as [| p rest] eqn:E; [reflexivity |].
    assert (Hin : In p (discoveredPairs h inputs))
      by (rewrite E; left; reflexivity).
    unfold discoveredPairs in Hin.
    destruct (findBenchmarkPairs_sound _ _ _ _ _ _ Hdir Hin) as [Hf Hex].
    rewrite (findBenchmarkPairs_In _ _ _ _ _ Hin) in Hex. simpl in Hex.
    rewrite (Horphan _ Hf) in Hex. discriminate.
Qed.

Lemma X2_witness :
  readdirSync bareHost (reportsDir (actionInputs 5)) = None
  /\ runComparison bareHost (actionInputs 5) = Returns noPairsDocument.
Proof.
  assert (Hdir : readdirSync bareHost (reportsDir (actionInputs 5)) = None)
    by reflexivity.
  split; [exact Hdir |].
  exact (proj1 (X2_nothing_to_compare bareHost (actionInputs 5)) Hdir).
Defined.

(** X3. Two listings of the same directory entries make
    [findBenchmarkPairs] discover the same pairs, up to their order. *)
Theorem X3_pairs_independent_of_listing_order (h : Host)
  (files files' : list jsstring) (reportsDir baseSuffix prSuffix : jsstring) :
  readdirSync h reportsDir = Some files ->
  Permutation files files' ->
  Permutation
    (findBenchmarkPairs h reportsDir baseSuffix prSuffix)
    (findBenchmarkPairs (withListing h files') reportsDir baseSuffix
       prSuffix).
Proof.
  intros Hdir Hperm. unfold findBenchmarkPairs. simpl readdirSync.
  rewrite Hdir. apply Permutation_flat_map. exact Hperm.
Qed.

Lemma X3_witness :
  readdirSync omegaHost benchmarksDir = Some omegaListing
  /\ Permutation omegaListing (rev omegaListing)
  /\ Permutation
       (findBenchmarkPairs omegaHost benchmarksDir (lit "_base")
          (lit "_latest"))
       (findBenchmarkPairs (withListing omegaHost (rev omegaListing))
          benchmarksDir (lit "_base") (lit "_latest")).
Proof.
  assert (Hdir : readdirSync omegaHost benchmarksDir = Some omegaListing)
    by reflexivity.
  split; [exact Hdir |]. split; [apply Permutation_rev |].
  exact (X3_pairs_independent_of_listing_order omegaHost omegaListing
           (rev omegaListing) benchmarksDir (lit "_base") (lit "_latest")
           Hdir (Permutation_rev omegaListing)).
Defined.

(** X4. When [localeCompare] is a consistent comparator under which no two
    discovered contract names tie, the document of [runComparison] is the
    same for every order in which the directory entries are listed. *)
Theorem X4_document_independent_of_listing_order (h : Host)
  (inputs : Inputs) (files files' : list jsstring) :
  consistentComparator (localeCompare h) ->
  distinguishes (localeCompare h)
    (map contractName (discoveredPairs h inputs)) ->
  readdirSync h (reportsDir inputs) = Some files ->
  Permutation files files' ->
  runComparison (withListing h files') inputs = runComparison h inputs.
Proof.
  intros Hc Hties Hdir Hperm.
  pose proof (findBenchmarkPairs_listing h files files' (reportsDir inputs)
                (baseSuffix inputs) (prSuffix inputs) Hdir Hperm) as Hpairs.
  fold (discoveredPairs h inputs) in Hpairs.
  fold (discoveredPairs (withListing h files') inputs) in Hpairs.
  pose proof (comparePairs_consistent h Hc) as Hcp.
  assert (Hsorted : sortedPairs h inputs
                    = sortedPairs (withListing h files') inputs).
  { apply (sorted_Permutation_eq (notAfter (comparePairs h))).
    - intros a b Ha Hb Hab Hba. apply sortBy_In in Ha, Hb.
      rewrite (findBenchmarkPairs_In _ _ _ _ _ Ha).
      rewrite (findBenchmarkPairs_In _ _ _ _ _ Hb).
      rewrite (Hties (contractName a) (contractName b));
        auto using in_map.
    - exact (sortBy_sorted (comparePairs h) Hcp _).
    - exact (sortBy_sorted (comparePairs h) Hcp _).
    - unfold sortedPairs.
      fold (discoveredPairs h inputs).
      fold (discoveredPairs (withListing h files') inputs).
      rewrite (sortBy_Permutation (comparePairs h) (discoveredPairs h inputs)).
      rewrite Hpairs. symmetry.
      exact (sortBy_Permutation (comparePairs h) _). }
  rewrite !runComparison_eq, <- Hsorted, withListing_sections.
  rewrite (Permutation_length Hpairs). reflexivity.
Qed.

Lemma zooHost_distinguishes :
  distinguishes (localeCompare zooHost)
    (map contractName (discoveredPairs zooHost (actionInputs 5))).
Proof.
  intros a b Ha Hb.
  destruct Ha as [<- | [<- | []]]; destruct Hb as [<- | [<- | []]];
    vm_compute; intros H1 H2; try reflexivity;
    exfalso; try (apply H1; reflexivity); apply H2; reflexivity.
Defined.

Lemma X4_witness :
  consistentComparator (localeCompare zooHost)
  /\ readdirSync zooHost (reportsDir (actionInputs 5))
     = Some (map fst
               (reportFiles (lit "Zebra") (inr (report [])) (inr (report []))
                ++ reportFiles (lit "apple") (inr (report []))
                     (inr (report []))))
  /\ runComparison
       (withListing zooHost
          (rev (map fst
                  (reportFiles (lit "Zebra") (inr (report []))
                     (inr (report []))
                   ++ reportFiles (lit "apple") (inr (report []))
                        (inr (report []))))))
       (actionInputs 5)
     = runComparison zooHost (actionInputs 5).
Proof.
  split; [exact collate_consistent |]. split; [reflexivity |].
  apply (X4_document_independent_of_listing_order zooHost (actionInputs 5)
           _ _ collate_consistent zooHost_distinguishes eq_refl).
  apply Permutation_rev.
Defined.

(** ** When the comparison of two documents raises *)

Lemma getProp_name (r : value) :
  getProp r (lit "name") =
  match r with
  | VUndefined | VNull => Throws TypeError
  | _ => Returns (entryName r)
  end.
Proof. destruct r; reflexivity. Qed.

Lemma getProp_results (doc : value) :
  getProp doc (lit "results") =
  match doc with
  | VUndefined | VNull => Throws TypeError
  | _ => Returns (resultsOf doc)
  end.
Proof. destruct doc; reflexivity. Qed.

Lemma lacksResults_eq (doc : value) :
  lacksResults doc = Returns (falsy (resultsOf doc)).
Proof.
  unfold lacksResults. destruct (falsy doc) eqn:E.
  - destruct doc; simpl in *; try discriminate; reflexivity.
  - rewrite getProp_results. destruct doc; simpl in *; try discriminate;
      reflexivity.
Qed.

Lemma extractors_return (r : value) :
  getTotalGateCount r
  = Returns (orZero (fieldAt r [lit "totalGateCount"]))
  /\ getDaGas r
     = Returns (orZero (fieldAt r [lit "gas"; lit "gasLimits"; lit "daGas"]))
  /\ getL2Gas r
     = Returns (orZero (fieldAt r [lit "gas"; lit "gasLimits"; lit "l2Gas"])).
Proof.
  unfold getTotalGateCount, getDaGas, getL2Gas.
  rewrite !fieldAt_step, !optProp_returns. unfold bind.
  rewrite !optProp_returns, !orElse_fieldAt. auto.
Qed.

(** One turn of the loop of lines 154-167. *)
Lemma compareNames_cons (mainResults prResults name : value)
  (rest : list value) (comparison : list (jsstring * Metrics value)) :
  compareNames mainResults prResults (name :: rest) comparison =
  let* surviving := survivingName name in
  match surviving with
  | None => compareNames mainResults prResults rest comparison
  | Some s =>
      let* mainResult := arrayFind mainResults (hasName s) in
      let* prResult := arrayFind prResults (hasName s) in
      compareNames mainResults prResults rest
        (assign comparison s (rawMetrics mainResult prResult))
  end.
Proof.
  simpl. destruct (survivingName name) as [[s |] | |]; try reflexivity.
  simpl. destruct (arrayFind mainResults (hasName s)) as [mr | |];
    try reflexivity.
  simpl. destruct (arrayFind prResults (hasName s)) as [pr' | |];
    try reflexivity.
  simpl.
  destruct (extractors_return mr) as [-> [-> ->]].
  destruct (extractors_return pr') as [-> [-> ->]].
  reflexivity.
Qed.

Lemma hasName_eq (name : jsstring) (r : value) :
  hasName name r =
  match r with
  | VUndefined | VNull => Throws TypeError
  | _ => Returns (isNamed name r)
  end.
Proof.
  unfold hasName, isNamed. rewrite getProp_name. destruct r; reflexivity.
Qed.

Lemma hasName_defined (name : jsstring) (r : value) :
  nullish r = false -> hasName name r = Returns (isNamed name r).
Proof. rewrite hasName_eq. destruct r; simpl; congruence. Qed.

Lemma findM_hasName (name : jsstring) (elems : list value) :
  forallb (fun r => negb (nullish r)) elems = true ->
  findM (hasName name) elems = Returns (firstNamed name elems).
Proof.
  unfold firstNamed. induction elems as [| r elems IH]; [reflexivity |].
  cbn [forallb findM find]. intros H.
  apply andb_true_iff in H. destruct H as [Hr Hall].
  apply negb_true_iff in Hr. rewrite (hasName_defined _ _ Hr).
  cbn [bind]. destruct (isNamed name r); auto.
Qed.

Lemma findM_hasName_returns (name : jsstring) (elems : list value)
  (v : value) :
  findM (hasName name) elems = Returns v -> v = firstNamed name elems.
Proof.
  unfold firstNamed. induction elems as [| r elems IH].
  - intros H; inversion H; reflexivity.
  - cbn [findM find]. rewrite hasName_eq.
    destruct (nullish r) eqn:Hr.
    + destruct r; simpl in *; discriminate.
    + replace (match r with
               | VUndefined | VNull => Throws TypeError
               | _ => Returns (isNamed name r)
               end) with (Returns (isNamed name r))
        by (destruct r; simpl in *; congruence).
      cbn [bind]. destruct (isNamed name r); auto.
      intros H; inversion H; reflexivity.
Qed.

Lemma entryOK_nullish (elems : list value) :
  forallb entryOK elems = true ->
  forallb (fun r => negb (nullish r)) elems = true.
Proof.
  rewrite !forallb_forall. intros H r Hr. specialize (H r Hr).
  destruct r; simpl in *; auto.
Qed.

Lemma mapM_names (elems : list value) :
  mapM (fun r => getProp r (lit "name")) elems =
  if forallb (fun r => negb (nullish r)) elems
  then Returns (map entryName elems)
  else Throws TypeError.
Proof.
  induction elems as [| r elems IH]; [reflexivity |].
  cbn [mapM map forallb]. rewrite getProp_name, IH.
  destruct r; simpl; try reflexivity;
    destruct (forallb (fun r => negb (nullish r)) elems); reflexivity.
Qed.

Lemma survivingName_outcome (name : value) :
  match survivingName name with
  | Returns _ => nameOK name = true
  | Throws _ => nameOK name = false
  | Unmodelled => False
  end.
Proof.
  unfold survivingName, nameOK.
  destruct (falsy name) eqn:E; [reflexivity |].
  destruct name; simpl; try reflexivity.
  destruct (startsWith s (lit "unknown_function")
            || includes s (lit "(FAILED)")
            || streq s (lit "BENCHMARK_RUNNER_ERROR")); reflexivity.
Qed.

(** With two arrays of entries that are not [null], the loop raises
    exactly when it meets a truthy name that is not a string. *)
Lemma compareNames_outcome (mainElems prElems : list value)
  (names : list value) :
  forallb (fun r => negb (nullish r)) mainElems = true ->
  forallb (fun r => negb (nullish r)) prElems = true ->
  forall comparison,
    match compareNames (VArr mainElems) (VArr prElems) names comparison with
    | Returns _ => forallb nameOK names = true
    | Throws _ => forallb nameOK names = false
    | Unmodelled => False
    end.
Proof.
  intros Hm Hp. induction names as [| name rest IH]; intros comparison.
  - reflexivity.
  - rewrite compareNames_cons. cbn [forallb].
    pose proof (survivingName_outcome name) as Hs.
    destruct (survivingName name) as [[s |] | |]; simpl;
      try contradiction; rewrite Hs; simpl; auto.
    + rewrite (findM_hasName s mainElems Hm). simpl.
      rewrite (findM_hasName s prElems Hp). simpl. apply IH.
    + apply IH.
Qed.

Lemma nameOK_sameValueZero (v w : value) :
  sameValueZero v w = true -> nameOK v = nameOK w.
Proof.
  unfold nameOK.
  destruct v, w; simpl; try discriminate; try reflexivity; intros H.
  - apply Bool.eqb_prop in H. subst. reflexivity.
  - apply Qeq_bool_true in H.
    destruct (Qeq_bool q 0) eqn:E1, (Qeq_bool q0 0) eqn:E2; try reflexivity.
    + apply Qeq_bool_true in E1. apply Qeq_bool_false in E2.
      exfalso. apply E2. rewrite <- H. exact E1.
    + apply Qeq_bool_false in E1. apply Qeq_bool_true in E2.
      exfalso. apply E1. rewrite H. exact E2.
  - apply streq_spec in H. subst. reflexivity.
Qed.

Lemma setAdd_forallb (P : value -> bool) :
  (forall v w, sameValueZero v w = true -> P v = P w) ->
  forall l seen,
    forallb P (setAdd seen l) = forallb P seen && forallb P l.
Proof.
  intros HP. induction l as [| v l IH]; intros seen; simpl.
  - rewrite andb_true_r. reflexivity.
  - destruct (existsb (sameValueZero v) seen) eqn:E.
    + rewrite IH. apply existsb_exists in E. destruct E as [w [Hw Hvw]].
      destruct (forallb P seen) eqn:Hs; [| reflexivity].
      rewrite forallb_forall in Hs.
      rewrite (HP v w Hvw), (Hs w Hw). reflexivity.
    + rewrite IH, forallb_app. simpl. rewrite andb_true_r, andb_assoc.
      reflexivity.
Qed.

Lemma newSet_nameOK (l : list value) :
  forallb nameOK (newSet l) = forallb nameOK l.
Proof.
  unfold newSet. rewrite (setAdd_forallb nameOK nameOK_sameValueZero).
  reflexivity.
Qed.

Lemma forallb_entryOK (elems : list value) :
  forallb entryOK elems =
  forallb (fun r => negb (nullish r)) elems
  && forallb nameOK (map entryName elems).
Proof.
  induction elems as [| r elems IH]; [reflexivity |].
  cbn [forallb map]. rewrite IH.
  destruct r; simpl; try reflexivity;
    match goal with
    | |- context [nameOK ?x] => destruct (nameOK x)
    end; simpl;
    try rewrite andb_false_r; reflexivity.
Qed.

Lemma arrayMap_names (arr : value) :
  arrayMap arr (fun r => getProp r (lit "name")) =
  match arr with
  | VArr elems =>
      if forallb (fun r => negb (nullish r)) elems
      then Returns (map entryName elems)
      else Throws TypeError
  | _ => Throws TypeError
  end.
Proof. destruct arr; try reflexivity. apply mapM_names. Qed.

Lemma comparable_eq (doc : value) :
  comparable doc =
  match resultsOf doc with
  | VArr elems =>
      forallb (fun r => negb (nullish r)) elems
      && forallb nameOK (map entryName elems)
  | _ => false
  end.
Proof.
  unfold comparable. destruct (resultsOf doc); try reflexivity.
  apply forallb_entryOK.
Qed.

Lemma getProp_results_defined (doc : value) :
  nullish doc = false ->
  getProp doc (lit "results") = Returns (resultsOf doc).
Proof. rewrite getProp_results. destruct doc; simpl; congruence. Qed.

Lemma resultsOf_nullish (doc : value) :
  nullish doc = true -> resultsOf doc = VUndefined.
Proof. destruct doc; simpl; congruence. Qed.

Lemma buildComparison_outcome (mainData prData : value) :
  match buildComparison mainData prData with
  | Returns _ => comparable mainData && comparable prData = true
  | Throws _ => comparable mainData && comparable prData = false
  | Unmodelled => False
  end.
Proof.
  unfold buildComparison. rewrite !comparable_eq.
  destruct (nullish mainData) eqn:Nm.
  { rewrite (resultsOf_nullish _ Nm).
    destruct mainData; try discriminate; reflexivity. }
  rewrite (getProp_results_defined _ Nm). cbn [bind].
  rewrite arrayMap_names.
  destruct (resultsOf mainData) as [| | | | | mainElems |];
    try reflexivity.
  destruct (forallb (fun r => negb (nullish r)) mainElems) eqn:Hm;
    [| reflexivity].
  cbn [bind andb].
  destruct (nullish prData) eqn:Np.
  { rewrite (resultsOf_nullish _ Np), andb_false_r.
    destruct prData; try discriminate; reflexivity. }
  rewrite (getProp_results_defined _ Np). cbn [bind].
  rewrite arrayMap_names.
  destruct (resultsOf prData) as [| | | | | prElems |];
    try (rewrite andb_false_r; reflexivity).
  destruct (forallb (fun r => negb (nullish r)) prElems) eqn:Hp;
    [| rewrite andb_false_r; reflexivity].
  cbn [bind andb].
  pose proof (compareNames_outcome mainElems prElems
                (newSet (map entryName mainElems ++ map entryName prElems))
                Hm Hp []) as H.
  rewrite newSet_nameOK, forallb_app in H. exact H.
Qed.

Lemma numericRows_never_throws (rows : list (jsstring * Metrics value)) :
  forall e, numericRows rows <> Throws e.
Proof.
  induction rows as [| [n m] rows IH]; simpl; intros e; [discriminate |].
  destruct (numericMetrics m); [| discriminate].
  destruct (numericRows rows) as [more | e' |]; simpl; try discriminate.
  exfalso. apply (IH e'). reflexivity.
Qed.

Lemma compareDocuments_throws (contractName : jsstring)
  (mainData prData : value) (threshold : Q) :
  (exists e,
     compareDocuments contractName mainData prData threshold = Throws e)
  <-> falsy (resultsOf mainData) = false
      /\ falsy (resultsOf prData) = false
      /\ comparable mainData && comparable prData = false.
Proof.
  unfold compareDocuments. rewrite lacksResults_eq. cbn [bind].
  destruct (falsy (resultsOf mainData)).
  { cbn [bind]. split; [intros [e H]; discriminate | intros [H _]].
    discriminate. }
  rewrite lacksResults_eq. cbn [bind].
  destruct (falsy (resultsOf prData)).
  { split; [intros [e H]; discriminate | intros [_ [H _]]]. discriminate. }
  pose proof (buildComparison_outcome mainData prData) as Hb.
  destruct (buildComparison mainData prData) as [comparison | e |];
    cbn [bind]; [| | contradiction].
  - split; [| intros [_ [_ H]]; congruence].
    intros [e H]. exfalso.
    destruct (List.length (sortBy defaultCompare (objectKeys comparison))
              =? 0)%nat; [discriminate |].
    destruct (numericRows (sortedRows comparison)) eqn:En; simpl in H;
      try discriminate.
    inversion H; subst. exact (numericRows_never_throws _ _ En).
  - split; [auto | intros _; eauto].
Qed.

(** X5. An exception leaves [generateContractComparisonTable] exactly when
    both files exist and parse, both documents have a truthy [results],
    and one of the two [results] is not an array, has a [null] entry, or
    has an entry whose [name] is truthy and not a string.  (The exceptions
    are those of lines 149-167; rows whose metrics are not numbers are
    outside the model, which gives [Unmodelled] for them and neither a
    text nor an exception.) *)
Theorem X5_when_the_comparison_raises (h : Host) (pair : BenchmarkPair)
  (threshold : Q) :
  (exists e,
     generateContractComparisonTable h pair threshold = Throws e)
  <-> existsSync h (baseJsonPath pair) = true
      /\ existsSync h (prJsonPath pair) = true
      /\ exists mainData prData,
           readJSON h (baseJsonPath pair) = inr mainData
           /\ readJSON h (prJsonPath pair) = inr prData
           /\ falsy (resultsOf mainData) = false
           /\ falsy (resultsOf prData) = false
           /\ (comparable mainData = false \/ comparable prData = false).
Proof.
  unfold generateContractComparisonTable.
  destruct (existsSync h (baseJsonPath pair)); simpl;
    [| split; [intros [e H]; discriminate | intros [H _]; discriminate]].
  destruct (existsSync h (prJsonPath pair)); simpl;
    [| split; [intros [e H]; discriminate | intros [_ [H _]]; discriminate]].
  destruct (readJSON h (baseJsonPath pair)) as [msg | mainData].
  { split; [intros [e H]; discriminate |].
    intros [_ [_ [m [p [H _]]]]]. discriminate. }
  destruct (readJSON h (prJsonPath pair)) as [msg | prData].
  { split; [intros [e H]; discriminate |].
    intros [_ [_ [m [p [_ [H _]]]]]]. discriminate. }
  rewrite compareDocuments_throws, andb_false_iff. split.
  - intros [H1 [H2 H3]]. repeat split; auto.
    exists mainData, prData. auto.
  - intros [_ [_ [m [p [Hm [Hp H]]]]]].
    inversion Hm; inversion Hp; subst. tauto.
Qed.

Lemma X5_witness :
  comparable (report [VNull]) = false
  /\ exists e,
       generateContractComparisonTable nullEntryHost (pairOf (lit "B")) 5
       = Throws e.
Proof.
  split; [reflexivity |].
  apply (X5_when_the_comparison_raises nullEntryHost (pairOf (lit "B")) 5).
  split; [reflexivity |]. split; [reflexivity |].
  exists (report []), (report [VNull]).
  repeat split. right. reflexivity.
Defined.

(** ** Which functions get a row, and with which metrics *)

Lemma setOwn_keys_intro {A : Type} (o : list (jsstring * A)) (k : jsstring)
  (v : A) (x : jsstring) :
  x = k \/ In x (map fst o) -> In x (map fst (setOwn o k v)).
Proof.
  induction o as [| [k' v'] o IH]; simpl.
  - intros [-> | []]; auto.
  - destruct (streq k' k) eqn:E; simpl.
    + apply streq_spec in E. subst k'. intros [-> | [-> | H]]; auto.
    + intros [-> | [-> | H]]; auto.
Qed.

Lemma assign_keys {A : Type} (o : list (jsstring * A)) (k : jsstring) (v : A)
  (x : jsstring) :
  In x (map fst (assign o k v))
  <-> In x (map fst o) \/ (x = k /\ k <> lit "__proto__").
Proof.
  unfold assign. destruct (streq k (lit "__proto__")) eqn:E.
  - apply streq_spec in E. tauto.
  - apply streq_false in E. split.
    + intros H. apply setOwn_keys_In in H. tauto.
    + intros H. apply setOwn_keys_intro. tauto.
Qed.

Lemma survivingName_skipped (name : value) (k : jsstring) :
  survivingName name = Returns None -> name = VStr k ->
  excludedName k = true.
Proof.
  intros H ->. unfold survivingName in H. unfold excludedName.
  destruct k as [| c k]; [reflexivity |].
  cbn [falsy] in H.
  destruct (startsWith (c :: k) (lit "unknown_function")
            || includes (c :: k) (lit "(FAILED)")
            || streq (c :: k) (lit "BENCHMARK_RUNNER_ERROR")) eqn:E;
    [exact E | discriminate].
Qed.

Lemma compareNames_keys (mainResults prResults : value)
  (names : list value) :
  forall comparison result,
    compareNames mainResults prResults names comparison = Returns result ->
    forall k,
      In k (map fst result)
      <-> In k (map fst comparison) \/ (In (VStr k) names /\ keptName k).
Proof.
  unfold keptName.
  induction names as [| name rest IH]; intros comparison result H k.
  - inversion H; subst. simpl. tauto.
  - rewrite compareNames_cons in H.
    destruct (survivingName name) as [[s |] | |] eqn:Es; simpl in H;
      try discriminate.
    + destruct (arrayFind mainResults (hasName s)) as [mr | |];
        simpl in H; try discriminate.
      destruct (arrayFind prResults (hasName s)) as [pr' | |];
        simpl in H; try discriminate.
      rewrite (IH _ _ H k), assign_keys.
      apply survivingName_kept in Es. destruct Es as [-> Hex].
      simpl. split.
      * intros [[Hc | [-> Hp]] | [Hin Hk]]; auto.
      * intros [Hc | [[E | Hin] Hk]]; auto.
        inversion E; subst. tauto.
    + rewrite (IH _ _ H k). simpl. split.
      * intros [Hc | [Hin Hk]]; auto.
      * intros [Hc | [[E | Hin] Hk]]; auto.
        exfalso. rewrite (survivingName_skipped _ _ Es E) in Hk.
        destruct Hk; discriminate.
Qed.

Lemma setAdd_In_string (k : jsstring) :
  forall l seen,
    In (VStr k) (setAdd seen l) <-> In (VStr k) seen \/ In (VStr k) l.
Proof.
  induction l as [| v l IH]; intros seen; simpl; [tauto |].
  destruct (existsb (sameValueZero v) seen) eqn:E.
  - rewrite IH. split; [tauto |].
    intros [H | [-> | H]]; auto.
    apply existsb_exists in E. destruct E as [w [Hw Hvw]].
    destruct w; simpl in Hvw; try discriminate.
    apply streq_spec in Hvw. subst. auto.
  - rewrite IH, in_app_iff. simpl. tauto.
Qed.

Lemma newSet_In_string (k : jsstring) (l : list value) :
  In (VStr k) (newSet l) <-> In (VStr k) l.
Proof. unfold newSet. rewrite setAdd_In_string. simpl. tauto. Qed.

(** What [buildComparison] went through when it returns. *)
Lemma buildComparison_returns (mainData prData : value)
  (comparison : list (jsstring * Metrics value)) :
  buildComparison mainData prData = Returns comparison ->
  resultsOf mainData = VArr (entriesOf mainData)
  /\ resultsOf prData = VArr (entriesOf prData)
  /\ compareNames (resultsOf mainData) (resultsOf prData)
       (newSet (map entryName (entriesOf mainData)
                ++ map entryName (entriesOf prData)))
       []
     = Returns comparison.
Proof.
  unfold buildComparison, entriesOf. intros H.
  destruct (nullish mainData) eqn:Nm.
  { rewrite getProp_results in H. destruct mainData; discriminate. }
  rewrite (getProp_results_defined _ Nm) in H. cbn [bind] in H.
  rewrite arrayMap_names in H.
  destruct (resultsOf mainData) as [| | | | | mainElems |];
    try discriminate.
  destruct (forallb (fun r => negb (nullish r)) mainElems);
    [| discriminate].
  cbn [bind] in H.
  destruct (nullish prData) eqn:Np.
  { rewrite getProp_results in H. destruct prData; discriminate. }
  rewrite (getProp_results_defined _ Np) in H. cbn [bind] in H.
  rewrite arrayMap_names in H.
  destruct (resultsOf prData) as [| | | | | prElems |]; try discriminate.
  destruct (forallb (fun r => negb (nullish r)) prElems); [| discriminate].
  cbn [bind] in H. auto.
Qed.

Lemma lookup_In {A : Type} (k : jsstring) (o : list (jsstring * A)) (v : A) :
  lookup k o = Some v -> In (k, v) o.
Proof.
  induction o as [| [k' v'] o IH]; simpl; [discriminate |].
  destruct (streq k' k) eqn:E.
  - apply streq_spec in E. subst. intros H; inversion H; auto.
  - auto.
Qed.

Lemma lookup_key {A : Type} (k : jsstring) (o : list (jsstring * A)) :
  In k (map fst o) -> exists v, lookup k o = Some v.
Proof.
  induction o as [| [k' v'] o IH]; simpl; [intros [] |].
  destruct (streq k' k) eqn:E; [eauto |].
  apply streq_false in E. intros [H | H]; [contradiction | auto].
Qed.

Lemma sortedRows_In (comparison : list (jsstring * Metrics value))
  (k : jsstring) (m : Metrics value) :
  In (k, m) (sortedRows comparison)
  <-> In k (map fst comparison) /\ lookup k comparison = Some m.
Proof.
  unfold sortedRows. rewrite in_flat_map. split.
  - intros [n [Hn H]]. destruct (lookup n comparison) eqn:E; [| destruct H].
    destruct H as [H | []]. inversion H; subst. split; [| exact E].
    apply sortBy_In in Hn.
    exact (Permutation_in _ (objectKeys_Permutation comparison) Hn).
  - intros [Hk Hl]. exists k. split.
    + apply sortBy_In.
      exact (Permutation_in _
               (Permutation_sym (objectKeys_Permutation comparison)) Hk).
    + rewrite Hl. left. reflexivity.
Qed.

Lemma in_map_entryName (k : jsstring) (elems : list value) :
  In (VStr k) (map entryName elems)
  <-> exists r, In r elems /\ entryName r = VStr k.
Proof.
  rewrite in_map_iff. split; intros [r [H1 H2]]; exists r; auto.
Qed.

(** X6. When the comparison of two documents goes through, a function
    name gets a row exactly when it is the name of an entry of either
    report, is not excluded, and is not [__proto__]; no name gets two
    rows. *)
Theorem X6_rows_are_the_union_of_names (mainData prData : value)
  (comparison : list (jsstring * Metrics value)) :
  buildComparison mainData prData = Returns comparison ->
  (forall k,
     In k (map fst (sortedRows comparison))
     <-> keptName k
         /\ exists r,
              In r (entriesOf mainData ++ entriesOf prData)
              /\ entryName r = VStr k)
  /\ NoDup (map fst (sortedRows comparison)).
Proof.
  intros H.
  pose proof (buildComparison_keysInvariant _ _ _ H) as Hinv.
  destruct (buildComparison_returns _ _ _ H) as [_ [_ Hloop]].
  split.
  - intros k.
    assert (Hrow : In k (map fst (sortedRows comparison))
                   <-> In k (map fst comparison)).
    { rewrite in_map_iff. split.
      - intros [[k' m] [E Hin]]. simpl in E. subst k'.
        apply sortedRows_In in Hin. tauto.
      - intros Hk. destruct (lookup_key _ _ Hk) as [m Hm].
        exists (k, m). split; [reflexivity |].
        apply sortedRows_In. auto. }
    rewrite Hrow, (compareNames_keys _ _ _ _ _ Hloop k).
    rewrite newSet_In_string, <- map_app, in_map_entryName.
    simpl. tauto.
  - destruct (sortedRows_keys comparison Hinv) as [_ Hs].
    clear - Hs. induction Hs as [| x l Hs IH Hall]; constructor; auto.
    intros Hin. rewrite Forall_forall in Hall.
    specialize (Hall x Hin). unfold strlt in Hall.
    rewrite (proj2 (strcmp_eq x x) eq_refl) in Hall. discriminate.
Qed.

Lemma X6_witness :
  exists comparison,
    buildComparison
      (report [functionResult "a" 100 0 0; functionResult "x (FAILED)" 0 0 0])
      (report [functionResult "a" 100 0 0; functionResult "b" 50 0 0])
    = Returns comparison
    /\ map fst (sortedRows comparison) = [lit "a"; lit "b"]
    /\ NoDup (map fst (sortedRows comparison)).
Proof.
  eexists. split; [vm_compute; reflexivity |].
  split; [vm_compute; reflexivity |].
  apply (X6_rows_are_the_union_of_names
           (report [functionResult "a" 100 0 0;
                    functionResult "x (FAILED)" 0 0 0])
           (report [functionResult "a" 100 0 0; functionResult "b" 50 0 0])).
  vm_compute. reflexivity.
Defined.

Lemma setOwn_In {A : Type} (o : list (jsstring * A)) (k : jsstring) (v : A)
  (x : jsstring) (y : A) :
  In (x, y) (setOwn o k v) -> In (x, y) o \/ (x = k /\ y = v).
Proof.
  induction o as [| [k' v'] o IH]; simpl.
  - intros [H | []]. inversion H. auto.
  - destruct (streq k' k) eqn:E; simpl.
    + apply streq_spec in E. subst k'.
      intros [H | H]; [inversion H; auto | auto].
    + intros [H | H]; [auto |]. destruct (IH H); auto.
Qed.

Lemma compareNames_entries (mainElems prElems : list value)
  (names : list value) :
  forall comparison result,
    compareNames (VArr mainElems) (VArr prElems) names comparison
    = Returns result ->
    (forall k m, In (k, m) comparison ->
       m = rawMetrics (firstNamed k mainElems) (firstNamed k prElems)) ->
    forall k m, In (k, m) result ->
      m = rawMetrics (firstNamed k mainElems) (firstNamed k prElems).
Proof.
  induction names as [| name rest IH]; intros comparison result H Hinv.
  - inversion H; subst. exact Hinv.
  - rewrite compareNames_cons in H.
    destruct (survivingName name) as [[s |] | |]; simpl in H;
      try discriminate; [| eapply IH; eauto].
    destruct (findM (hasName s) mainElems) as [mr | |] eqn:Em;
      simpl in H; try discriminate.
    destruct (findM (hasName s) prElems) as [pr' | |] eqn:Ep;
      simpl in H; try discriminate.
    apply findM_hasName_returns in Em, Ep. subst mr pr'.
    eapply IH; [exact H |].
    intros k m Hin. unfold assign in Hin.
    destruct (streq s (lit "__proto__")); [auto |].
    apply setOwn_In in Hin. destruct Hin as [Hin | [-> ->]]; auto.
Qed.

(** X7. The metrics of the row of a function are read from the first
    entry of that name in the base report and the first entry of that name
    in the candidate report, every absent entry or field counting as 0. *)
Theorem X7_row_metrics_from_first_entries (mainData prData : value)
  (comparison : list (jsstring * Metrics value)) (k : jsstring)
  (raw : Metrics value) :
  buildComparison mainData prData = Returns comparison ->
  In (k, raw) (sortedRows comparison) ->
  raw = rawMetrics (firstNamed k (entriesOf mainData))
          (firstNamed k (entriesOf prData)).
Proof.
  intros H Hrow.
  destruct (buildComparison_returns _ _ _ H) as [Em [Ep Hloop]].
  rewrite Em, Ep in Hloop.
  apply sortedRows_In in Hrow. destruct Hrow as [_ Hl].
  apply lookup_In in Hl.
  apply (compareNames_entries _ _ _ _ _ Hloop); [intros ? ? [] | exact Hl].
Qed.

Lemma X7_witness :
  buildComparison duplicateBase duplicateCandidate
  = Returns duplicateComparison
  /\ In (lit "a",
         rawMetrics (functionResult "a" 100 7 9) (functionResult "a" 120 7 9))
       (sortedRows duplicateComparison)
  /\ rawMetrics (functionResult "a" 100 7 9) (functionResult "a" 120 7 9)
     = rawMetrics (firstNamed (lit "a") (entriesOf duplicateBase))
         (firstNamed (lit "a") (entriesOf duplicateCandidate)).
Proof.
  assert (H : buildComparison duplicateBase duplicateCandidate
              = Returns duplicateComparison) by (vm_compute; reflexivity).
  assert (Hin : In (lit "a",
                    rawMetrics (functionResult "a" 100 7 9)
                      (functionResult "a" 120 7 9))
                  (sortedRows duplicateComparison))
    by (vm_compute; left; reflexivity).
  split; [exact H |]. split; [exact Hin |].
  exact (X7_row_metrics_from_first_entries _ _ _ _ _ H Hin).
Defined.

Lemma firstNamed_absent (k : jsstring) (elems : list value) :
  (forall r, In r elems -> entryName r <> VStr k) ->
  firstNamed k elems = VUndefined.
Proof.
  unfold firstNamed. induction elems as [| r elems IH]; [reflexivity |].
  intros H. simpl.
  assert (E : isNamed k r = false).
  { unfold isNamed. pose proof (H r (or_introl eq_refl)) as Hr.
    destruct (entryName r); try reflexivity.
    apply streq_false. intros ->. apply Hr. reflexivity. }
  rewrite E. apply IH. intros r' Hr'. apply H. right. exact Hr'.
Qed.

Lemma numericPair_sides (p : MetricPair value) (q : MetricPair Q) :
  numericPair p = Some q ->
  main p = VNum (main q) /\ pr p = VNum (pr q).
Proof.
  unfold numericPair, numericValue. destruct p as [m c]; simpl.
  destruct m; try discriminate. destruct c; try discriminate.
  intros H; inversion H; subst. split; reflexivity.
Qed.

Lemma numericMetrics_sides (raw : Metrics value) (M : Metrics Q) :
  numericMetrics raw = Some M ->
  forall side : forall T, MetricPair T -> T,
    (side = @main \/ side = @pr) ->
    side value (gates raw) = VNum (side Q (gates M))
    /\ side value (daGas raw) = VNum (side Q (daGas M))
    /\ side value (l2Gas raw) = VNum (side Q (l2Gas M)).
Proof.
  unfold numericMetrics.
  destruct (numericPair (gates raw)) as [g |] eqn:Eg; [| discriminate].
  destruct (numericPair (daGas raw)) as [d |] eqn:Ed; [| discriminate].
  destruct (numericPair (l2Gas raw)) as [l |] eqn:El; [| discriminate].
  intros H; inversion H; subst; simpl.
  apply numericPair_sides in Eg, Ed, El.
  intros side [-> | ->]; tauto.
Qed.

(** X8. A function that has no entry in the base report and some
    positive candidate metric is classified New, and one that has no
    entry in the candidate report and some positive base metric is
    classified Removed, under every threshold. *)
Theorem X8_one_sided_functions (mainData prData : value)
  (comparison : list (jsstring * Metrics value)) (k : jsstring)
  (raw : Metrics value) (M : Metrics Q) :
  buildComparison mainData prData = Returns comparison ->
  In (k, raw) (sortedRows comparison) ->
  numericMetrics raw = Some M ->
  ((forall r, In r (entriesOf mainData) -> entryName r <> VStr k) ->
   (exists m, In m (metricsOf M) /\ 0 < pr m) ->
   forall T, getStatusEmoji M T = New)
  /\ ((forall r, In r (entriesOf prData) -> entryName r <> VStr k) ->
      (exists m, In m (metricsOf M) /\ 0 < main m) ->
      forall T, getStatusEmoji M T = Removed).
Proof.
  intros H Hrow Hnum.
  destruct (buildComparison_returns _ _ _ H) as [Em [Ep Hloop]].
  rewrite Em, Ep in Hloop.
  assert (Hraw : raw = rawMetrics (firstNamed k (entriesOf mainData))
                         (firstNamed k (entriesOf prData))).
  { apply sortedRows_In in Hrow. destruct Hrow as [_ Hl].
    apply lookup_In in Hl.
    apply (compareNames_entries _ _ _ _ _ Hloop); [intros ? ? [] | exact Hl]. }
  split.
  - intros Habs Hpos T. apply new_status. split; [| exact Hpos].
    rewrite (firstNamed_absent _ _ Habs) in Hraw.
    destruct (numericMetrics_sides _ _ Hnum (@main) (or_introl eq_refl))
      as [Hg [Hd Hl]].
    subst raw. simpl in Hg, Hd, Hl.
    inversion Hg as [Eg]; inversion Hd as [Ed]; inversion Hl as [El].
    apply all_metricsOf. rewrite <- Eg, <- Ed, <- El.
    repeat split; reflexivity.
  - intros Habs Hpos T. apply removed_status. split; [| exact Hpos].
    rewrite (firstNamed_absent _ _ Habs) in Hraw.
    destruct (numericMetrics_sides _ _ Hnum (@pr) (or_intror eq_refl))
      as [Hg [Hd Hl]].
    subst raw. simpl in Hg, Hd, Hl.
    inversion Hg as [Eg]; inversion Hd as [Ed]; inversion Hl as [El].
    apply all_metricsOf. rewrite <- Eg, <- Ed, <- El.
    repeat split; reflexivity.
Qed.

Lemma X8_witness :
  buildComparison duplicateBase duplicateCandidate
  = Returns duplicateComparison
  /\ In (lit "b",
         rawMetrics VUndefined (functionResult "b" 50 0 0))
       (sortedRows duplicateComparison)
  /\ getStatusEmoji
       {| gates := metricPair 0 50; daGas := metricPair 0 0;
          l2Gas := metricPair 0 0 |} 5
     = New.
Proof.
  assert (H : buildComparison duplicateBase duplicateCandidate
              = Returns duplicateComparison) by (vm_compute; reflexivity).
  assert (Hin : In (lit "b",
                    rawMetrics VUndefined (functionResult "b" 50 0 0))
                  (sortedRows duplicateComparison))
    by (vm_compute; right; left; reflexivity).
  split; [exact H |]. split; [exact Hin |].
  refine (proj1 (X8_one_sided_functions _ _ _ _ _
                   {| gates := metricPair 0 50; daGas := metricPair 0 0;
                      l2Gas := metricPair 0 0 |} H Hin eq_refl) _ _ 5).
  - intros r [<- | [<- | []]]; vm_compute; discriminate.
  - exists (metricPair 0 50). split; [left; reflexivity | reflexivity].
Defined.

(** X9. When both documents have a [results] array of well-shaped
    entries and no entry bears a name that gets a row (the two arrays may
    be empty), the text returned for the pair is the notice that no
    comparable functions were found. *)
Theorem X9_no_comparable_functions (contractName : jsstring)
  (mainData prData : value) (threshold : Q) :
  comparable mainData = true -> comparable prData = true ->
  (forall r k,
     In r (entriesOf mainData ++ entriesOf prData) ->
     entryName r = VStr k -> ~ keptName k) ->
  compareDocuments contractName mainData prData threshold
  = Returns noFunctionsMessage.
Proof.
  intros Hm Hp Hnone. unfold compareDocuments.
  assert (Hfm : falsy (resultsOf mainData) = false)
    by (unfold comparable in Hm; destruct (resultsOf mainData);
        try discriminate; reflexivity).
  assert (Hfp : falsy (resultsOf prData) = false)
    by (unfold comparable in Hp; destruct (resultsOf prData);
        try discriminate; reflexivity).
  rewrite lacksResults_eq, Hfm. cbn [bind].
  rewrite lacksResults_eq, Hfp. cbn [bind].
  pose proof (buildComparison_outcome mainData prData) as Hb.
  destruct (buildComparison mainData prData) as [comparison | e |] eqn:Eb;
    [| rewrite Hm, Hp in Hb; discriminate | contradiction].
  cbn [bind].
  assert (Hkeys : map fst comparison = []).
  { destruct (buildComparison_returns _ _ _ Eb) as [_ [_ Hloop]].
    destruct (map fst comparison) as [| k ks] eqn:E; [reflexivity |].
    exfalso.
    assert (Hk : In k (map fst comparison)) by (rewrite E; left; reflexivity).
    apply (compareNames_keys _ _ _ _ _ Hloop) in Hk.
    destruct Hk as [[] | [Hin Hkept]].
    rewrite newSet_In_string, <- map_app, in_map_entryName in Hin.
    destruct Hin as [r [Hr Hn]].
    exact (Hnone r k Hr Hn Hkept). }
  unfold objectKeys. rewrite Hkeys. reflexivity.
Qed.

Lemma X9_witness :
  comparable (report []) = true
  /\ comparable
       (report [functionResult "unknown_function" 0 0 0;
                functionResult "mint (FAILED)" 0 0 0])
     = true
  /\ compareDocuments (lit "Token") (report [])
       (report [functionResult "unknown_function" 0 0 0;
                functionResult "mint (FAILED)" 0 0 0]) 5
     = Returns noFunctionsMessage.
Proof.
  split; [reflexivity |]. split; [reflexivity |].
  apply X9_no_comparable_functions; try reflexivity.
  intros r k [<- | [<- | []]] E; inversion E; subst; intros [Hex _];
    vm_compute in Hex; discriminate.
Defined.

(** ** Classification and rendering of one row *)







Lemma inject_Z_eq0 (a : Z) : inject_Z a == 0 <-> a = 0%Z.
Proof. unfold Qeq, inject_Z. simpl. lia. Qed.

Lemma inject_Z_delta_eq0 (a b : Z) :
  inject_Z b - inject_Z a == 0 <-> a = b.
Proof. unfold Qeq, Qminus, Qplus, Qopp, inject_Z. simpl. lia. Qed.

Lemma inject_Z_delta_large (a b : Z) :
  a <> b -> Qltb (Qabs (inject_Z b - inject_Z a)) 1 = false.
Proof.
  intros H. apply Qltb_false.
  unfold Qle, Qabs, Qminus, Qplus, Qopp, inject_Z. simpl. lia.
Qed.

Lemma app_lit_not_nil (a b c : jsstring) (s : string) :
  lit s <> [] -> a ++ b ++ lit s ++ c <> [].
Proof.
  intros Hs H. apply app_eq_nil in H. destruct H as [_ H].
  apply app_eq_nil in H. destruct H as [_ H].
  apply app_eq_nil in H. destruct H as [H _]. exact (Hs H).
Qed.

(** X12. For integer metrics (gate counts), the Diff cell is empty
    exactly when base and candidate are equal: the suppression of small
    changes never hides a change between two integers. *)
Theorem X12_integer_changes_are_shown (a b : Z) :
  formatDiff (inject_Z a) (inject_Z b) = [] <-> a = b.
Proof.
  split; [| intros ->; apply formatDiff_equal; reflexivity].
  intros H. destruct (Z.eq_dec a b) as [E | Hne]; [exact E | exfalso].
  destruct (Z.eq_dec a 0) as [Ea | Ha].
  - rewrite formatDiff_zero_base in H; [discriminate | |].
    + apply inject_Z_eq0. exact Ea.
    + rewrite inject_Z_eq0. congruence.
  - destruct (Z.eq_dec b 0) as [Eb | Hb].
    + rewrite formatDiff_zero_candidate in H; [discriminate | |].
      * rewrite inject_Z_eq0. exact Ha.
      * apply inject_Z_eq0. exact Eb.
    + rewrite formatDiff_nonzero in H.
      * rewrite (inject_Z_delta_large a b Hne), andb_false_r in H.
        revert H. apply app_lit_not_nil. discriminate.
      * rewrite inject_Z_eq0. exact Ha.
      * rewrite inject_Z_eq0. exact Hb.
      * rewrite inject_Z_delta_eq0. exact Hne.
Qed.

(** ** The profiler *)

Lemma startsWith_refl (p : jsstring) : startsWith p p = true.
Proof.
  rewrite <- (app_nil_r p) at 1. apply startsWith_app.
Qed.

Lemma includes_suffix (a b : jsstring) : includes (a ++ b) b = true.
Proof.
  induction a as [| x a IH].
  - simpl app. destruct b as [| y b]; [reflexivity |].
    cbn [includes]. rewrite startsWith_refl. reflexivity.
  - cbn [app includes]. rewrite IH. apply orb_true_r.
Qed.

Lemma failed_name_excluded (name : jsstring) :
  excludedName (name ++ lit " (FAILED)") = true.
Proof.
  unfold excludedName.
  assert (H : includes (name ++ lit " (FAILED)") (lit "(FAILED)") = true).
  { change (lit " (FAILED)") with (lit " " ++ lit "(FAILED)").
    rewrite app_assoc. apply includes_suffix. }
  rewrite H. rewrite !orb_true_r. reflexivity.
Qed.

(** X16. When the gas estimate, the profiling or the transaction of an
    interaction fails, the profiler reports a result with no gates whose
    name the comparison excludes; and so does it, whatever succeeds, for an
    interaction whose name could not be determined. *)
Theorem X16_failed_profiles_are_excluded (f : Profiler.Interaction) :
  ((exists e, Profiler.estimateGas f = inl e)
   \/ (exists e, Profiler.profileFull f = inl e)
   \/ (exists e, Profiler.sendWait f = inl e) ->
   excludedName (Profiler.name (Profiler.profileOne f)) = true
   /\ Profiler.totalGateCount (Profiler.profileOne f) = 0
   /\ Profiler.gateCounts (Profiler.profileOne f) = []
   /\ Profiler.totalGas (Profiler.profileOne f) == 0)
  /\ (Profiler.resolveName f = lit "unknown_function" ->
      excludedName (Profiler.name (Profiler.profileOne f)) = true).
Proof.
  split.
  - intros Hfail.
    assert (E : Profiler.profileOne f
                = Profiler.failedResult (Profiler.resolveName f)).
    { unfold Profiler.profileOne.
      destruct (Profiler.estimateGas f) as [e | gas]; [reflexivity |].
      destruct (Profiler.profileFull f) as [e | steps]; [reflexivity |].
      destruct (Profiler.sendWait f) as [e | u]; [reflexivity |].
      destruct Hfail as [[e H] | [[e H] | [e H]]]; discriminate. }
    rewrite E. simpl.
    split; [apply failed_name_excluded |]. repeat split.
  - intros Hname. unfold Profiler.profileOne.
    destruct (Profiler.estimateGas f) as [e | gas];
      [apply failed_name_excluded |].
    destruct (Profiler.profileFull f) as [e | steps];
      [apply failed_name_excluded |].
    destruct (Profiler.sendWait f) as [e | u];
      [apply failed_name_excluded |].
    simpl. rewrite Hname. reflexivity.
Qed.

Lemma X16_witness :
  (exists e, Profiler.estimateGas failingInteraction = inl e)
  /\ Profiler.name (Profiler.profileOne failingInteraction)
     = lit "transfer (FAILED)"
  /\ excludedName (Profiler.name (Profiler.profileOne failingInteraction))
     = true.
Proof.
  assert (H : exists e, Profiler.estimateGas failingInteraction = inl e)
    by (eexists; reflexivity).
  split; [exact H |]. split; [reflexivity |].
  exact (proj1 (proj1 (X16_failed_profiles_are_excluded failingInteraction)
                  (or_introl H))).
Defined.

(** ** The report the profiler saves *)

Lemma lookup_setOwn {A : Type} (o : list (jsstring * A)) (k n : jsstring)
  (v : A) :
  lookup n (setOwn o k v) = if streq k n then Some v else lookup n o.
Proof.
  induction o as [| [k' v'] o IH]; simpl.
  - destruct (streq k n); reflexivity.
  - destruct (streq k' k) eqn:E1; simpl.
    + apply streq_spec in E1. subst k'.
      destruct (streq k n); reflexivity.
    + destruct (streq k' n) eqn:E2; [| exact IH].
      apply streq_spec in E2. subst k'.
      assert (E3 : streq k n = false).
      { apply streq_false. apply streq_false in E1. congruence. }
      rewrite E3. reflexivity.
Qed.

Lemma lookup_none {A : Type} (o : list (jsstring * A)) (n : jsstring) :
  ~ In n (map fst o) -> lookup n o = None.
Proof.
  induction o as [| [k v] o IH]; simpl; [reflexivity |].
  intros H. destruct (streq k n) eqn:E.
  - apply streq_spec in E. tauto.
  - apply IH. tauto.
Qed.

Lemma lookup_entries {A : Type} (o : list (jsstring * A)) (n : jsstring)
  (l : list jsstring) :
  lookup n
    (flat_map
       (fun k => match lookup k o with Some v => [(k, v)] | None => [] end) l)
  = if existsb (fun k => streq k n) l then lookup n o else None.
Proof.
  induction l as [| k l IH]; [reflexivity |].
  cbn [flat_map existsb].
  destruct (streq k n) eqn:E.
  - apply streq_spec in E. subst k. cbn [orb].
    destruct (lookup n o) as [v |] eqn:Ev.
    + cbn [app lookup]. rewrite streq_refl. reflexivity.
    + cbn [app]. rewrite IH. destruct (existsb _ l); reflexivity.
  - cbn [orb]. destruct (lookup k o) as [v |]; cbn [app lookup];
      [rewrite E |]; exact IH.
Qed.

Lemma lookup_spread {A : Type} (o : list (jsstring * A)) (n : jsstring) :
  lookup n (Profiler.spread o) = lookup n o.
Proof.
  unfold Profiler.spread. rewrite lookup_entries.
  destruct (existsb (fun k => streq k n) (objectKeys o)) eqn:E;
    [reflexivity |].
  symmetry. apply lookup_none. intros Hin.
  apply (Permutation_in _ (Permutation_sym (objectKeys_Permutation o)))
    in Hin.
  assert (Ht : existsb (fun k => streq k n) (objectKeys o) = true).
  { apply existsb_exists. exists n. split; [exact Hin | apply streq_refl]. }
  congruence.
Qed.

Lemma find_snoc {A : Type} (f : A -> bool) (l : list A) (x : A) :
  find f (l ++ [x]) =
  match find f l with
  | Some y => Some y
  | None => if f x then Some x else None
  end.
Proof.
  induction l as [| y l IH]; simpl; [reflexivity |].
  destruct (f y); [reflexivity | exact IH].
Qed.

Lemma reduceByName_lookup (value : Profiler.ProfileResult -> Q)
  (n : jsstring) (results : list Profiler.ProfileResult) :
  forall acc,
    lookup n
      (fold_left
         (fun acc result =>
            setOwn (Profiler.spread acc) (Profiler.name result)
              (value result))
         results acc)
    = match Profiler.lastNamed n results with
      | Some r => Some (value r)
      | None => lookup n acc
      end.
Proof.
  unfold Profiler.lastNamed.
  induction results as [| r results IH]; intros acc; [reflexivity |].
  cbn [fold_left rev]. rewrite IH, find_snoc.
  destruct (find (fun r0 => streq (Profiler.name r0) n) (rev results));
    [reflexivity |].
  rewrite lookup_setOwn, lookup_spread.
  destruct (streq (Profiler.name r) n); reflexivity.
Qed.

(** X17. In the report [saveResults] builds, the summary gives for each
    name the total gate count of the last result of that name, the gas
    summary gives its total gas (limits plus teardown limits, 0 without
    gas), and a name that no result has is in neither. *)
Theorem X17_summaries_keep_the_last_result
  (results : list Profiler.ProfileResult) (n : jsstring) :
  lookup n (Profiler.summary (Profiler.saveResults results))
  = option_map Profiler.totalGateCount (Profiler.lastNamed n results)
  /\ lookup n (Profiler.gasSummary (Profiler.saveResults results))
     = option_map Profiler.totalGas (Profiler.lastNamed n results).
Proof.
  destruct results as [| r results]; [split; reflexivity |].
  unfold Profiler.saveResults, Profiler.reduceByName.
  cbn [Profiler.summary Profiler.gasSummary].
  rewrite !reduceByName_lookup.
  destruct (Profiler.lastNamed n (r :: results)); split; reflexivity.
Qed.

Lemma X17_witness :
  lookup (lit "transfer")
    (Profiler.summary
       (Profiler.saveResults
          (Profiler.profile [passingInteraction; passingInteraction])))
  = Some (Profiler.sumArray [300])
  /\ lookup (lit "transfer (FAILED)")
       (Profiler.gasSummary
          (Profiler.saveResults (Profiler.profile [failingInteraction])))
     = Some (0 + 0 + (0 + 0)).
Proof.
  split.
  - rewrite (proj1 (X17_summaries_keep_the_last_result _ _)). reflexivity.
  - rewrite (proj2 (X17_summaries_keep_the_last_result _ _)). reflexivity.
Defined.

(** ** Saved reports under the comparison *)

Lemma saveResults_results (results : list Profiler.ProfileResult) :
  Profiler.results (Profiler.saveResults results) = results.
Proof. destruct results; reflexivity. Qed.

Lemma resultsOf_reportJSON (report : Profiler.ProfileReport) :
  resultsOf (Profiler.reportJSON report)
  = VArr (map Profiler.resultJSON (Profiler.results report)).
Proof. reflexivity. Qed.

Lemma entryName_resultJSON (r : Profiler.ProfileResult) :
  entryName (Profiler.resultJSON r) = VStr (Profiler.name r).
Proof. reflexivity. Qed.

Lemma comparable_reportJSON (report : Profiler.ProfileReport) :
  comparable (Profiler.reportJSON report) = true.
Proof.
  unfold comparable. rewrite resultsOf_reportJSON.
  apply forallb_forall. intros x Hx.
  apply in_map_iff in Hx. destruct Hx as [r [<- _]].
  unfold entryOK. change (Profiler.resultJSON r)
    with (VObj ([ (lit "name", VStr (Profiler.name r));
                  (lit "totalGateCount", VNum (Profiler.totalGateCount r));
                  (lit "gateCounts",
                   VArr (map Profiler.gateCountJSON (Profiler.gateCounts r))) ]
                ++ Profiler.optionalField "gas" Profiler.gasLimitsJSON
                     (Profiler.gas r))) at 1.
  rewrite entryName_resultJSON. unfold nameOK. apply orb_true_r.
Qed.

Lemma profiledEntry_numeric (x : value) :
  profiledEntry x ->
  numericValue (orZero (fieldAt x [lit "totalGateCount"])) <> None
  /\ numericValue
       (orZero (fieldAt x [lit "gas"; lit "gasLimits"; lit "daGas"]))
     <> None
  /\ numericValue
       (orZero (fieldAt x [lit "gas"; lit "gasLimits"; lit "l2Gas"]))
     <> None.
Proof.
  intros [-> | [r ->]]; [repeat split; discriminate |].
  destruct r as [n t gc g].
  destruct g as [[gl td] |];
    [destruct td; (destruct gl as [[d l] |]; [destruct d, l |]) |];
    repeat split; intros H; cbv in H; discriminate H.
Qed.

Lemma firstNamed_profiled (k : jsstring)
  (results : list Profiler.ProfileResult) :
  profiledEntry (firstNamed k (map Profiler.resultJSON results)).
Proof.
  unfold firstNamed.
  destruct (find (isNamed k) (map Profiler.resultJSON results)) as [x |] eqn:E;
    [| left; reflexivity].
  apply find_some in E. destruct E as [Hin _].
  apply in_map_iff in Hin. destruct Hin as [r [<- _]]. right. eauto.
Qed.

Lemma rawMetrics_numeric (x y : value) :
  profiledEntry x -> profiledEntry y ->
  exists M, numericMetrics (rawMetrics x y) = Some M.
Proof.
  intros Hx Hy.
  destruct (profiledEntry_numeric x Hx) as [Ha [Hb Hc]].
  destruct (profiledEntry_numeric y Hy) as [Ha' [Hb' Hc']].
  unfold numericMetrics, numericPair, rawMetrics.
  cbn [gates daGas l2Gas main pr].
  destruct (numericValue (orZero (fieldAt x [lit "totalGateCount"])));
    [| contradiction].
  destruct (numericValue (orZero (fieldAt y [lit "totalGateCount"])));
    [| contradiction].
  destruct (numericValue
              (orZero (fieldAt x [lit "gas"; lit "gasLimits"; lit "daGas"])));
    [| contradiction].
  destruct (numericValue
              (orZero (fieldAt y [lit "gas"; lit "gasLimits"; lit "daGas"])));
    [| contradiction].
  destruct (numericValue
              (orZero (fieldAt x [lit "gas"; lit "gasLimits"; lit "l2Gas"])));
    [| contradiction].
  destruct (numericValue
              (orZero (fieldAt y [lit "gas"; lit "gasLimits"; lit "l2Gas"])));
    [| contradiction].
  eauto.
Qed.

Lemma numericRows_total (rows : list (jsstring * Metrics value)) :
  (forall k raw, In (k, raw) rows ->
     exists M, numericMetrics raw = Some M) ->
  exists numeric, numericRows rows = Returns numeric.
Proof.
  induction rows as [| [k raw] rows IH]; intros H; [eexists; reflexivity |].
  simpl. destruct (H k raw (or_introl eq_refl)) as [M ->].
  destruct IH as [more ->]; [intros k' raw' Hin; eapply H; right; eauto |].
  simpl. eauto.
Qed.

(** X18. The comparison of two reports saved by the profiler never raises
    and never leaves the numbers: whatever the two lists of results, it
    returns the notice that no comparable functions were found or a table
    whose rows bear no excluded name and are sorted by name. *)
Theorem X18_saved_reports_always_compare
  (base candidate : list Profiler.ProfileResult) (contractName : jsstring)
  (threshold : Q) :
  exists text,
    compareDocuments contractName
      (Profiler.reportJSON (Profiler.saveResults base))
      (Profiler.reportJSON (Profiler.saveResults candidate)) threshold
    = Returns text
    /\ (text = noFunctionsMessage
        \/ exists rows,
             text = tableText threshold rows /\ wellFormedRows rows).
Proof.
  set (mainData := Profiler.reportJSON (Profiler.saveResults base)).
  set (prData := Profiler.reportJSON (Profiler.saveResults candidate)).
  assert (Hfm : falsy (resultsOf mainData) = false) by reflexivity.
  assert (Hfp : falsy (resultsOf prData) = false) by reflexivity.
  unfold compareDocuments.
  rewrite lacksResults_eq, Hfm. cbn [bind].
  rewrite lacksResults_eq, Hfp. cbn [bind].
  pose proof (buildComparison_outcome mainData prData) as Hb.
  destruct (buildComparison mainData prData) as [comparison | e |] eqn:Eb;
    [| | contradiction].
  2: { unfold mainData, prData in Hb.
       rewrite !comparable_reportJSON in Hb. discriminate. }
  cbn [bind].
  destruct (List.length (sortBy defaultCompare (objectKeys comparison)) =? 0)%nat;
    [eauto |].
  assert (Hnum : exists rows,
            numericRows (sortedRows comparison) = Returns rows).
  { apply numericRows_total. intros k raw Hin.
    destruct (buildComparison_returns _ _ _ Eb) as [Em [Ep Hloop]].
    rewrite Em, Ep in Hloop.
    apply sortedRows_In in Hin. destruct Hin as [_ Hl].
    apply lookup_In in Hl.
    assert (Hraw : raw = rawMetrics (firstNamed k (entriesOf mainData))
                           (firstNamed k (entriesOf prData))).
    { apply (compareNames_entries _ _ _ _ _ Hloop);
        [intros ? ? [] | exact Hl]. }
    rewrite Hraw.
    unfold entriesOf, mainData, prData. rewrite !resultsOf_reportJSON.
    apply rawMetrics_numeric; apply firstNamed_profiled. }
  destruct Hnum as [rows Hrows]. rewrite Hrows. cbn [bind].
  exists (tableText threshold rows). split; [reflexivity |].
  right. exists rows. split; [reflexivity |].
  eapply sortedRows_wellFormed; [| exact Hrows].
  eapply buildComparison_keysInvariant; exact Eb.
Qed.

(** * Double precision: properties *)

(** ** Comparisons of doubles *)

Lemma Prim2SF_zero : Prim2SF 0 = S754_zero false.
Proof. reflexivity. Qed.

Lemma Prim2SF_infinity : Prim2SF infinity = S754_infinity false.
Proof. reflexivity. Qed.

(** [x === 0] *)
Lemma eqb_zero (x : float) :
  (x =? 0)%float = true <-> exists s, Prim2SF x = S754_zero s.
Proof.
  rewrite eqb_spec, Prim2SF_zero.
  destruct (Prim2SF x) as [s | s | | s m e]; cbn.
  - split; eauto.
  - destruct s; split; try discriminate; intros [s' H]; discriminate.
  - split; try discriminate; intros [s' H]; discriminate.
  - destruct s; split; try discriminate; intros [s' H]; discriminate.
Qed.

(** [x > 0] *)
Lemma gtb_zero (x : float) :
  Double.gtb x 0 = true
  <-> Prim2SF x = S754_infinity false
      \/ exists m e, Prim2SF x = S754_finite false m e.
Proof.
  unfold Double.gtb. rewrite ltb_spec, Prim2SF_zero.
  destruct (Prim2SF x) as [s | s | | s m e]; cbn.
  - split; [discriminate | intros [H | [m [e H]]]; discriminate].
  - destruct s; split; auto; try discriminate.
    intros [H | [m [e H]]]; discriminate.
  - split; [discriminate | intros [H | [m [e H]]]; discriminate].
  - destruct s; split; eauto; try discriminate.
    intros [H | [m' [e' H]]]; discriminate.
Qed.

(** [0 <= x] *)
Lemma leb_zero (x : float) :
  (0 <=? x)%float = true
  <-> (exists s, Prim2SF x = S754_zero s)
      \/ Prim2SF x = S754_infinity false
      \/ exists m e, Prim2SF x = S754_finite false m e.
Proof.
  rewrite leb_spec, Prim2SF_zero.
  destruct (Prim2SF x) as [s | s | | s m e]; cbn.
  - split; eauto.
  - destruct s; split; auto; try discriminate.
    intros [[s H] | [H | [m [e H]]]]; discriminate.
  - split; [discriminate |].
    intros [[s H] | [H | [m [e H]]]]; discriminate.
  - destruct s; split; eauto; try discriminate.
    intros [[s H] | [H | [m' [e' H]]]]; discriminate.
Qed.

Lemma positive_not_zero (x : float) :
  Double.gtb x 0 = true -> (x =? 0)%float = false.
Proof.
  intros H. apply not_true_iff_false. rewrite eqb_zero.
  apply gtb_zero in H. intros [s E].
  destruct H as [H | [m [e H]]]; congruence.
Qed.

Lemma nonNegative_not_positive (x : float) :
  (0 <=? x)%float = true -> Double.gtb x 0 = false -> (x =? 0)%float = true.
Proof.
  intros Hle Hgt. apply eqb_zero. apply leb_zero in Hle.
  destruct Hle as [H | H]; [exact H |].
  apply gtb_zero in H. congruence.
Qed.

(** ** getStatusEmoji on doubles *)

Lemma double_getStatusEmoji_cases (M : Metrics float) (T : float) :
  Double.getStatusEmoji M T =
  if Double.isRemoved M then Removed
  else if Double.isNew M then New
  else if Double.hasRegression M T then Regression
  else if Double.hasImprovement M T then Improvement
  else Unchanged.
Proof. reflexivity. Qed.

Lemma double_in_metricsOf (M : Metrics float) (P : MetricPair float -> Prop) :
  (exists m, In m (Double.metricsOf M) /\ P m)
  <-> P (gates M) \/ P (daGas M) \/ P (l2Gas M).
Proof.
  unfold Double.metricsOf; simpl. split.
  - intros [m [[<- | [<- | [<- | []]]] H]]; tauto.
  - intros [H | [H | H]]; eauto 6.
Qed.

Lemma double_all_metricsOf (M : Metrics float)
  (P : MetricPair float -> Prop) :
  (forall m, In m (Double.metricsOf M) -> P m)
  <-> P (gates M) /\ P (daGas M) /\ P (l2Gas M).
Proof.
  unfold Double.metricsOf; simpl. split.
  - intros H; repeat split; apply H; tauto.
  - intros [Hg [Hd Hl]] m [<- | [<- | [<- | []]]]; assumption.
Qed.

Lemma double_isRemoved_spec (M : Metrics float) :
  Double.isRemoved M = true <-> Double.removedCondition M.
Proof.
  unfold Double.isRemoved, Double.removedCondition.
  rewrite double_all_metricsOf, double_in_metricsOf.
  rewrite !andb_true_iff, !orb_true_iff. tauto.
Qed.

Lemma double_isNew_spec (M : Metrics float) :
  Double.isNew M = true <-> Double.newCondition M.
Proof.
  unfold Double.isNew, Double.newCondition.
  rewrite double_all_metricsOf, double_in_metricsOf.
  rewrite !andb_true_iff, !orb_true_iff. tauto.
Qed.

(** One metric: the code's [diffPct] against the two kinds of change. *)
Lemma double_diffPct_infinite (m : MetricPair float) :
  (Double.diffPct m =? infinity)%float = true <-> Double.infiniteChange m.
Proof.
  unfold Double.diffPct, Double.infiniteChange, Double.zeroBaseIncrease,
    Double.infiniteQuotient.
  destruct (main m =? 0)%float eqn:Em.
  - destruct (Double.gtb (pr m) 0) eqn:Ep.
    + split; [intros _; left; auto | reflexivity].
    + split; [discriminate |].
      intros [[_ H] | [H _]]; discriminate.
  - split.
    + intros H. right. auto.
    + intros [[H _] | [_ H]]; [discriminate | exact H].
Qed.

Lemma double_diffPct_finite (m : MetricPair float) (rb : float -> bool) :
  (0 <=? pr m)%float = true ->
  (is_finite (Double.diffPct m) && rb (Double.diffPct m) = true
   <-> exists c, Double.finiteChange m c /\ rb c = true).
Proof.
  intros Hpr. unfold Double.diffPct, Double.finiteChange.
  destruct (main m =? 0)%float eqn:Em.
  - destruct (Double.gtb (pr m) 0) eqn:Ep.
    + split; [discriminate |].
      intros [c [[[_ [Hz _]] | [Hn _]] _]]; [| discriminate].
      rewrite (positive_not_zero _ Ep) in Hz. discriminate.
    + pose proof (nonNegative_not_positive _ Hpr Ep) as Hz.
      change (is_finite 0) with true. rewrite andb_true_l. split.
      * intros H. exists 0%float. split; [left; auto | exact H].
      * intros [c [[[_ [_ ->]] | [Hn _]] Hr]]; [exact Hr | discriminate].
  - rewrite andb_true_iff. split.
    + intros [Hf Hr]. exists ((pr m - main m) / main m)%float.
      split; [right; auto | exact Hr].
    + intros [c [[[Hz _] | [_ [-> Hf]]] Hr]]; [discriminate | auto].
Qed.

Lemma double_hasRegression_spec (M : Metrics float) (T : float) :
  Double.nonNegative M ->
  (Double.hasRegression M T = true <-> Double.regressionCondition M T).
Proof.
  intros Hnn. apply double_all_metricsOf in Hnn.
  destruct Hnn as [Hg [Hd Hl]].
  unfold Double.hasRegression, Double.regressionCondition, Double.diffPcts.
  rewrite existsb_filter. simpl existsb.
  rewrite double_in_metricsOf.
  rewrite !orb_false_r, !orb_true_iff, !double_diffPct_infinite.
  rewrite (double_diffPct_finite (gates M)
             (fun c => Double.gtb c (T / 100))) by tauto.
  rewrite (double_diffPct_finite (daGas M)
             (fun c => Double.gtb c (T / 100))) by tauto.
  rewrite (double_diffPct_finite (l2Gas M)
             (fun c => Double.gtb c (T / 100))) by tauto.
  split.
  - intros [H | H]; [left; exact H | right].
    destruct H as [[c H] | [[c H] | [c H]]];
      [exists (gates M) | exists (daGas M) | exists (l2Gas M)];
      exists c; unfold Double.metricsOf; simpl; tauto.
  - intros [H | [m [c [Hin H]]]]; [left; exact H | right].
    unfold Double.metricsOf in Hin; simpl in Hin.
    destruct Hin as [<- | [<- | [<- | []]]]; eauto.
Qed.

Lemma double_hasImprovement_spec (M : Metrics float) (T : float) :
  Double.nonNegative M ->
  (Double.hasImprovement M T = true <-> Double.improvementCondition M T).
Proof.
  intros Hnn. apply double_all_metricsOf in Hnn.
  destruct Hnn as [Hg [Hd Hl]].
  unfold Double.hasImprovement, Double.improvementCondition, Double.diffPcts.
  rewrite existsb_filter. simpl existsb.
  rewrite !orb_false_r, !orb_true_iff.
  rewrite (double_diffPct_finite (gates M)
             (fun c => (c <? - (T / 100))%float)) by tauto.
  rewrite (double_diffPct_finite (daGas M)
             (fun c => (c <? - (T / 100))%float)) by tauto.
  rewrite (double_diffPct_finite (l2Gas M)
             (fun c => (c <? - (T / 100))%float)) by tauto.
  split.
  - intros [[c H] | [[c H] | [c H]]];
      [exists (gates M) | exists (daGas M) | exists (l2Gas M)];
      exists c; unfold Double.metricsOf; simpl; tauto.
  - intros [m [c [Hin H]]].
    unfold Double.metricsOf in Hin; simpl in Hin.
    destruct Hin as [<- | [<- | [<- | []]]]; eauto.
Qed.

(** C1. For a metrics triple of doubles with non-negative values that is
    neither Removed nor New, and any threshold T, [getStatusEmoji] returns
    the regression emoji exactly when the fractional change of some metric
    is infinite (base 0 and candidate > 0, or a quotient
    (candidate - base) / base that is [Infinity] as a double) or some
    finite fractional change is greater than T/100; otherwise the
    improvement emoji exactly when some finite fractional change is below
    -(T/100); otherwise the unchanged emoji.  The changes, T/100 and the
    comparisons are those of double arithmetic.  Regression is decided
    first: a triple that satisfies both conditions is a regression. *)
Theorem C1_regression_improvement_unchanged (M : Metrics float) (T : float) :
  Double.nonNegative M ->
  ~ Double.removedCondition M -> ~ Double.newCondition M ->
  (Double.getStatusEmoji M T = Regression <-> Double.regressionCondition M T)
  /\ (Double.getStatusEmoji M T = Improvement
      <-> ~ Double.regressionCondition M T
          /\ Double.improvementCondition M T)
  /\ (Double.getStatusEmoji M T = Unchanged
      <-> ~ Double.regressionCondition M T
          /\ ~ Double.improvementCondition M T).
Proof.
  intros Hnn Hrem Hnew.
  rewrite <- double_isRemoved_spec in Hrem.
  rewrite <- double_isNew_spec in Hnew.
  rewrite <- (double_hasRegression_spec M T Hnn),
    <- (double_hasImprovement_spec M T Hnn).
  rewrite double_getStatusEmoji_cases.
  destruct (Double.isRemoved M); [exfalso; auto |].
  destruct (Double.isNew M); [exfalso; auto |].
  destruct (Double.hasRegression M T), (Double.hasImprovement M T);
    repeat split; intros; try discriminate; try tauto;
    try (intuition discriminate).
Qed.

(** ** Removed and New on doubles

    The two conditions use only the tests [=== 0] and [> 0]: on doubles
    they classify as they do in exact arithmetic. *)

Lemma double_removed_excludes_new (M : Metrics float) :
  ~ (Double.removedCondition M /\ Double.newCondition M).
Proof.
  intros [[_ Hpos] [Hzero _]].
  destruct Hpos as [m [Hin Hm]].
  specialize (Hzero m Hin). rewrite (positive_not_zero _ Hm) in Hzero.
  discriminate.
Qed.

Lemma double_removed_and_new (M : Metrics float) (T : float) :
  (Double.getStatusEmoji M T = Removed <-> Double.removedCondition M)
  /\ (Double.getStatusEmoji M T = New <-> Double.newCondition M)
  /\ ~ (Double.removedCondition M /\ Double.newCondition M).
Proof.
  pose proof (double_removed_excludes_new M) as Hex.
  rewrite <- double_isRemoved_spec, <- double_isNew_spec in *.
  rewrite double_getStatusEmoji_cases.
  destruct (Double.isRemoved M), (Double.isNew M),
    (Double.hasRegression M T), (Double.hasImprovement M T);
    repeat split; intros; try discriminate; try reflexivity; try tauto;
    try (intuition discriminate).
Qed.

(** ** Decimal numerals *)

Lemma readUint_uint_digits (u : Decimal.uint) :
  Double.readUint (uint_digits u) = Some u.
Proof. induction u; cbn; try rewrite IHu; reflexivity. Qed.

Lemma isDigit_uint_digits (u : Decimal.uint) :
  forallb Double.isDigit (uint_digits u) = true.
Proof. induction u; cbn; try rewrite IHu; reflexivity. Qed.

Lemma uint_digits_nil (u : Decimal.uint) :
  uint_digits u = [] -> u = Decimal.Nil.
Proof. destruct u; cbn; intros H; try discriminate; reflexivity. Qed.

Lemma to_uint_normal (k : N) : Decimal.unorm (N.to_uint k) = N.to_uint k.
Proof.
  rewrite <- DecimalN.Unsigned.to_of, DecimalN.Unsigned.of_to. reflexivity.
Qed.

Lemma digitsOf_not_nil (n : Z) : digitsOf n <> [].
Proof.
  unfold digitsOf. intros H. apply uint_digits_nil in H.
  pose proof (to_uint_normal (Z.to_N n)) as E. rewrite H in E.
  discriminate E.
Qed.

Lemma numeral_digitsOf (n : Z) :
  Double.numeral (digitsOf n) = Some (Z.to_N n).
Proof.
  unfold Double.numeral.
  destruct (digitsOf n) eqn:E; [exfalso; exact (digitsOf_not_nil n E) |].
  rewrite <- E. unfold digitsOf. rewrite readUint_uint_digits. cbn.
  rewrite DecimalN.Unsigned.of_to. reflexivity.
Qed.

Lemma canonical_digitsOf (n : Z) : Double.canonical (digitsOf n) = true.
Proof.
  unfold Double.canonical, digitsOf.
  rewrite isDigit_uint_digits. cbn [andb].
  pose proof (to_uint_normal (Z.to_N n)) as E.
  destruct (N.to_uint (Z.to_N n)) as [| u | u | u | u | u | u | u | u | u | u];
    cbn; try discriminate E; try (destruct (uint_digits u); reflexivity).
  destruct (uint_digits u) eqn:Eu; [reflexivity | exfalso].
  unfold Decimal.unorm in E. cbn [Decimal.nzhead] in E.
  destruct (Decimal.nzhead u) eqn:En.
  - injection E as E. subst u. discriminate Eu.
  - pose proof (DecimalFacts.nzhead_nonzero u u) as Hn. congruence.
  - discriminate E.
  - discriminate E.
  - discriminate E.
  - discriminate E.
  - discriminate E.
  - discriminate E.
  - discriminate E.
  - discriminate E.
  - discriminate E.
Qed.





(** ** Grouping by three *)

Lemma isDigit_not_comma (c : N) :
  Double.isDigit c = true -> (c =? 44)%N = false.
Proof.
  unfold Double.isDigit. rewrite andb_true_iff, !N.leb_le, N.eqb_neq. lia.
Qed.

Lemma ungroup_groupRev (rds : jsstring) (k : nat) :
  forallb Double.isDigit rds = true ->
  Double.ungroup (groupRev rds k) = rds.
Proof.
  revert k. induction rds as [| d rest IH]; intros k H; [reflexivity |].
  cbn in H. apply andb_true_iff in H. destruct H as [Hd Hrest].
  pose proof (isDigit_not_comma d Hd) as Hc.
  cbn [groupRev].
  destruct k as [| [| [| [| k']]]]; unfold Double.ungroup in *;
    cbn [filter N.eqb negb]; rewrite ?Hc; cbn [negb]; rewrite IH; auto.
Qed.

Lemma forallb_rev {A : Type} (f : A -> bool) (l : list A) :
  forallb f (rev l) = forallb f l.
Proof.
  induction l as [| a l IH]; [reflexivity |].
  cbn. rewrite forallb_app, IH. cbn. rewrite andb_true_r. apply andb_comm.
Qed.

Lemma filter_rev_comm {A : Type} (f : A -> bool) (l : list A) :
  filter f (rev l) = rev (filter f l).
Proof.
  induction l as [| a l IH]; [reflexivity |].
  cbn. rewrite filter_app, IH. cbn. destruct (f a); cbn.
  - reflexivity.
  - apply app_nil_r.
Qed.

Lemma ungroup_groupThousands (ds : jsstring) :
  forallb Double.isDigit ds = true ->
  Double.ungroup (groupThousands ds) = ds.
Proof.
  intros H. unfold groupThousands, Double.ungroup.
  rewrite filter_rev_comm.
  change (filter (fun c => negb (c =? 44)%N) (groupRev (rev ds) 0))
    with (Double.ungroup (groupRev (rev ds) 0)).
  rewrite ungroup_groupRev by (rewrite forallb_rev; exact H).
  apply rev_involutive.
Qed.

Lemma groupRev_commas (rds : jsstring) :
  forallb Double.isDigit rds = true ->
  forall k i,
    (k <= 3)%nat -> (i < List.length (groupRev rds k))%nat ->
    (nth i (groupRev rds k) 0%N = 44%N <-> ((i + k) mod 4 = 3)%nat).
Proof.
  induction rds as [| d rest IH]; intros H k i Hk Hi;
    [cbn in Hi; lia |].
  cbn in H. apply andb_true_iff in H. destruct H as [Hd Hrest].
  pose proof (isDigit_not_comma d Hd) as Hc. apply N.eqb_neq in Hc.
  destruct k as [| [| [| [| k']]]]; [| | | | lia]; cbn [groupRev] in *.
  - destruct i as [| j]; cbn [nth].
    + cbn. split; [congruence | discriminate].
    + cbn [List.length] in Hi.
      rewrite (IH Hrest 1%nat j) by lia.
      replace (S j + 0)%nat with (j + 1)%nat by lia. reflexivity.
  - destruct i as [| j]; cbn [nth].
    + cbn. split; [congruence | discriminate].
    + cbn [List.length] in Hi.
      rewrite (IH Hrest 2%nat j) by lia.
      replace (S j + 1)%nat with (j + 2)%nat by lia. reflexivity.
  - destruct i as [| j]; cbn [nth].
    + cbn. split; [congruence | discriminate].
    + cbn [List.length] in Hi.
      rewrite (IH Hrest 3%nat j) by lia.
      replace (S j + 2)%nat with (j + 3)%nat by lia. reflexivity.
  - destruct i as [| [| j]]; cbn [nth].
    + cbn. split; reflexivity.
    + cbn. split; [congruence | discriminate].
    + cbn [List.length] in Hi.
      rewrite (IH Hrest 1%nat j) by lia.
      replace (S (S j) + 3)%nat with (j + 1 + 1 * 4)%nat by lia.
      rewrite Nat.Div0.mod_add. reflexivity.
Qed.

Lemma groupRev_not_nil (rds : jsstring) (k : nat) :
  rds <> [] -> groupRev rds k <> [].
Proof.
  destruct rds as [| d rest]; [congruence |]. intros _.
  destruct k as [| [| [| [| k']]]]; cbn; discriminate.
Qed.

Lemma last_cons_not_nil {A : Type} (a d : A) (l : list A) :
  l <> [] -> last (a :: l) d = last l d.
Proof. destruct l; [congruence | reflexivity]. Qed.

Lemma groupRev_last (rds : jsstring) :
  forallb Double.isDigit rds = true -> rds <> [] ->
  forall k, last (groupRev rds k) 0%N <> 44%N.
Proof.
  induction rds as [| d rest IH]; intros H Hne k; [congruence |].
  cbn in H. apply andb_true_iff in H. destruct H as [Hd Hrest].
  pose proof (isDigit_not_comma d Hd) as Hc. apply N.eqb_neq in Hc.
  destruct rest as [| d' rest'].
  - destruct k as [| [| [| [| k']]]]; cbn; exact Hc.
  - assert (Hne' : d' :: rest' <> []) by discriminate.
    pose proof (IH Hrest Hne') as IH'.
    pose proof (fun k => groupRev_not_nil (d' :: rest') k Hne') as Hnil.
    assert (Hstep : forall j,
              last (d :: groupRev (d' :: rest') j) 0%N <> 44%N).
    { intros j. rewrite last_cons_not_nil by apply Hnil. apply IH'. }
    destruct k as [| [| [| [| k']]]];
      [exact (Hstep 1%nat) | exact (Hstep 2%nat) | exact (Hstep 3%nat) |
      | exact (Hstep (S (S (S (S (S k'))))))].
    change (groupRev (d :: d' :: rest') 3)
      with (44%N :: d :: groupRev (d' :: rest') 1).
    rewrite last_cons_not_nil by discriminate. apply Hstep.
Qed.

Lemma hd_rev_last {A : Type} (d : A) (l : list A) :
  hd d (rev l) = last l d.
Proof.
  induction l as [| a l IH]; [reflexivity |].
  cbn [rev]. destruct l as [| b l']; [reflexivity |].
  rewrite last_cons_not_nil by discriminate. rewrite <- IH.
  cbn [rev]. destruct (rev l' ++ [b]) eqn:E; [| reflexivity].
  apply app_eq_nil in E. destruct E; discriminate.
Qed.

Lemma groupThousands_groupedByThree (ds : jsstring) :
  forallb Double.isDigit ds = true -> ds <> [] ->
  Double.groupedByThree (groupThousands ds).
Proof.
  intros H Hne. unfold Double.groupedByThree, groupThousands.
  assert (Hr : forallb Double.isDigit (rev ds) = true)
    by (rewrite forallb_rev; exact H).
  split.
  - intros i Hi. rewrite rev_involutive. rewrite length_rev in Hi.
    rewrite (groupRev_commas (rev ds) Hr 0%nat i) by (auto; lia).
    rewrite Nat.add_0_r. reflexivity.
  - rewrite hd_rev_last. apply groupRev_last; [exact Hr |].
    intros E. apply (f_equal (@rev N)) in E. rewrite rev_involutive in E.
    exact (Hne E).
Qed.

(** ** Shapes of doubles *)

Lemma SFeqb_finite_refl (s : bool) (m : positive) (e : Z) :
  SFeqb (S754_finite s m e) (S754_finite s m e) = true.
Proof.
  unfold SFeqb, SFcompare.
  rewrite Z.compare_refl, Pos.compare_cont_refl. destruct s; reflexivity.
Qed.

Lemma SFeqb_finite_eq (s s' : bool) (m m' : positive) (e e' : Z) :
  SFeqb (S754_finite s m e) (S754_finite s' m' e') = true ->
  s = s' /\ m = m' /\ e = e'.
Proof.
  unfold SFeqb, SFcompare.
  destruct (Z.compare e e') eqn:Ee;
    destruct (Pos.compare_cont Eq m m') eqn:Em;
    destruct s, s'; cbn; try discriminate; intros _;
    apply Z.compare_eq in Ee; apply Pos.compare_eq in Em; auto.
Qed.

(** [isFinite(x)] *)
Lemma is_finite_spec (x : float) :
  is_finite x = true
  <-> (exists s, Prim2SF x = S754_zero s)
      \/ (exists s m e, Prim2SF x = S754_finite s m e).
Proof.
  unfold is_finite, is_nan, is_infinity.
  rewrite !eqb_spec, abs_spec, Prim2SF_infinity.
  destruct (Prim2SF x) as [s | s | | s m e].
  - cbn. split; eauto.
  - destruct s; cbn; (split; [discriminate |]);
      intros [[s' H] | [s' [m [e H]]]]; discriminate.
  - cbn. split; [discriminate |].
    intros [[s' H] | [s' [m [e H]]]]; discriminate.
  - rewrite SFeqb_finite_refl. cbn. split; eauto.
Qed.

(** [x === y] for a finite [x]: both are zero, or they are the same
    double. *)
Lemma eqb_finite (x y : float) :
  is_finite x = true -> (x =? y)%float = true ->
  ((x =? 0)%float = true /\ (y =? 0)%float = true)
  \/ ((x =? 0)%float = false /\ x = y).
Proof.
  intros Hf He. rewrite eqb_spec in He. apply is_finite_spec in Hf.
  destruct Hf as [[s Hx] | [s [m [e Hx]]]].
  - left. split; [apply eqb_zero; eauto |].
    apply eqb_zero. rewrite Hx in He.
    destruct (Prim2SF y) as [s' | s' | | s' m' e']; eauto;
      cbn in He; try destruct s'; discriminate.
  - right. split.
    + apply not_true_iff_false. rewrite eqb_zero. intros [s' H]. congruence.
    + apply Prim2SF_inj. rewrite Hx in *.
      destruct (Prim2SF y) as [s' | s' | | s' m' e'];
        try (cbn in He; try destruct s; try destruct s'; discriminate).
      apply SFeqb_finite_eq in He. destruct He as [-> [-> ->]]. reflexivity.
Qed.

(** [x - x] is zero for a finite [x]. *)
Lemma sub_diag (x : float) :
  is_finite x = true -> (x - x =? 0)%float = true.
Proof.
  intros Hf. apply eqb_zero. rewrite sub_spec. apply is_finite_spec in Hf.
  destruct Hf as [[s Hx] | [s [m [e Hx]]]]; rewrite Hx.
  - destruct s; cbn; eauto.
  - unfold SF64sub, SFsub. rewrite Z.min_id. unfold shl_align.
    rewrite Z.sub_diag. cbv beta iota zeta. cbn [fst].
    exists false. reflexivity.
Qed.

Lemma binary_round_aux_sign (sx : bool) (mx ex : Z) (lx : location) :
  binary_round_aux prec emax sx mx ex lx = S754_nan
  \/ SFsign (binary_round_aux prec emax sx mx ex lx) = Some sx.
Proof.
  unfold binary_round_aux.
  destruct (shr_fexp prec emax mx ex lx) as [mrs e'].
  destruct (shr_fexp prec emax _ e' loc_Exact) as [mrs' e''].
  destruct (shr_m mrs'); auto.
  destruct (e'' <=? emax - prec)%Z; auto.
Qed.

(** A quotient and a product that are not [NaN] have the sign their
    operands give them. *)
Lemma SFdiv_sign (x y : spec_float) (sx sy : bool) :
  SFsign x = Some sx -> SFsign y = Some sy ->
  SF64div x y = S754_nan \/ SFsign (SF64div x y) = Some (xorb sx sy).
Proof.
  unfold SF64div, SFdiv.
  destruct x as [s | s | | s m e], y as [s' | s' | | s' m' e']; cbn;
    intros [= <-] [= <-]; auto.
  destruct (SFdiv_core_binary prec emax (Z.pos m) e (Z.pos m') e')
    as [[mz ez] lz].
  apply binary_round_aux_sign.
Qed.


(** ** Integers among the doubles *)

Lemma SFinteger_finite (s : bool) (m : positive) (e z : Z) :
  Double.SFinteger (S754_finite s m e) = Some z ->
  (z <? 0)%Z = s /\ z <> 0%Z.
Proof.
  unfold Double.SFinteger.
  assert (Hpos : forall n, (0 < n)%Z ->
            ((if s then (- n)%Z else n) <? 0)%Z = s
            /\ (if s then (- n)%Z else n) <> 0%Z).
  { intros n Hn. destruct s; split; lia. }
  destruct (0 <=? e)%Z eqn:Ee.
  - assert (Hn : (0 < Z.pos m * 2 ^ e)%Z).
    { apply Z.leb_le in Ee. apply Z.mul_pos_pos; [lia |].
      apply Z.pow_pos_nonneg; lia. }
    revert Hn. generalize (Z.pos m * 2 ^ e)%Z. intros n Hn.
    cbn [option_map]. intros [= <-]. apply Hpos. exact Hn.
  - destruct (Z.pos m mod 2 ^ (- e) =? 0)%Z eqn:Em; [| discriminate].
    assert (Hn : (0 < Z.pos m / 2 ^ (- e))%Z).
    { apply Z.leb_gt in Ee. apply Z.eqb_eq in Em.
      assert (Hp : (0 < 2 ^ (- e))%Z) by (apply Z.pow_pos_nonneg; lia).
      pose proof (Z.div_exact (Z.pos m) (2 ^ (- e)) ltac:(lia)) as Hex.
      apply Hex in Em. nia. }
    revert Hn. generalize (Z.pos m / 2 ^ (- e))%Z. intros n Hn.
    cbn [option_map]. intros [= <-]. apply Hpos. exact Hn.
Qed.

(** [enUS] prints a non-zero integer up to [2^53] in groups of three
    digits, after its sign. *)
Lemma enUS_groupedInteger (x : float) (z : Z) :
  (x =? 0)%float = false ->
  Double.integerValue x = Some z -> (Z.abs z <= 2 ^ 53)%Z ->
  exists text, Double.enUS x = Some text /\ Double.groupedInteger text z.
Proof.
  intros Hx Hz Hbound. unfold Double.enUS. rewrite Hz.
  unfold Double.integerValue in Hz.
  destruct (Prim2SF x) as [s | s | | s m e] eqn:Ex; try discriminate Hz.
  - exfalso. apply not_true_iff_false in Hx. apply Hx. apply eqb_zero. eauto.
  - apply Z.leb_le in Hbound. rewrite Hbound.
    destruct (SFinteger_finite s m e z Hz) as [Hs Hnz].
    eexists. split; [reflexivity |].
    exists (groupThousands (digitsOf (Z.abs z))).
    rewrite Hs. split; [reflexivity |].
    pose proof (canonical_digitsOf (Z.abs z)) as Hcan.
    assert (Hdig : forallb Double.isDigit (digitsOf (Z.abs z)) = true).
    { unfold Double.canonical in Hcan. apply andb_true_iff in Hcan. tauto. }
    rewrite ungroup_groupThousands by exact Hdig.
    split; [| split].
    + apply groupThousands_groupedByThree;
        [exact Hdig | apply digitsOf_not_nil].
    + exact Hcan.
    + apply numeral_digitsOf.
Qed.




(** ** formatDiff on doubles *)

Section FormatDiffFacts.

Variable L : float -> option jsstring.

Lemma double_formatDiff_zero_zero (main pr : float) :
  (main =? 0)%float = true -> (pr =? 0)%float = true ->
  Double.formatDiff L main pr = Some [].
Proof. intros Hm Hp. unfold Double.formatDiff. rewrite Hm, Hp. reflexivity. Qed.

Lemma double_formatDiff_zero_base (main pr : float) :
  (main =? 0)%float = true -> (pr =? 0)%float = false ->
  Double.formatDiff L main pr = Some (lit "+Inf%").
Proof. intros Hm Hp. unfold Double.formatDiff. rewrite Hm, Hp. reflexivity. Qed.

Lemma double_formatDiff_zero_candidate (main pr : float) :
  (main =? 0)%float = false -> (pr =? 0)%float = true ->
  Double.formatDiff L main pr = Some (lit "-100%").
Proof. intros Hm Hp. unfold Double.formatDiff. rewrite Hm, Hp. reflexivity. Qed.

Lemma double_formatDiff_same (main pr : float) :
  is_finite main = true -> (main =? pr)%float = true ->
  Double.formatDiff L main pr = Some [].
Proof.
  intros Hf He.
  destruct (eqb_finite main pr Hf He) as [[Hm Hp] | [Hm <-]].
  - apply double_formatDiff_zero_zero; assumption.
  - unfold Double.formatDiff. rewrite Hm. cbn [andb].
    rewrite (sub_diag main Hf). reflexivity.
Qed.

Lemma double_formatDiff_nonzero (main pr : float) :
  (main =? 0)%float = false -> (pr =? 0)%float = false ->
  (pr - main =? 0)%float = false ->
  Double.formatDiff L main pr =
  if (abs ((pr - main) / main * 100) <? 0.01)%float
     && (abs (pr - main) <? 1)%float
  then Some []
  else
    match L (pr - main)%float,
          Double.toFixed ((pr - main) / main * 100)%float with
    | Some delta, Some percent =>
        Some (Double.plusSign (pr - main) ++ delta ++ lit " ("
              ++ Double.plusSign (pr - main) ++ percent ++ lit "%)")
    | _, _ => None
    end.
Proof.
  intros Hm Hp Hd. unfold Double.formatDiff, Double.plusSign.
  rewrite Hm, Hp, Hd. reflexivity.
Qed.

End FormatDiffFacts.

(** A double that is an integer other than zero has the sign of that
    integer. *)
Lemma integer_sign (x : float) (z : Z) :
  (x =? 0)%float = false -> Double.integerValue x = Some z ->
  SFsign (Prim2SF x) = Some (z <? 0)%Z
  /\ (Double.gtb x 0 = true <-> (0 < z)%Z)
  /\ (Double.gtb x 0 = false <-> (z < 0)%Z).
Proof.
  intros Hx Hz. unfold Double.integerValue in Hz.
  assert (Hg : Double.gtb x 0 = negb (z <? 0)%Z
               /\ SFsign (Prim2SF x) = Some (z <? 0)%Z /\ z <> 0%Z).
  { destruct (Prim2SF x) as [s | s | | s m e] eqn:Ex; try discriminate Hz.
    - exfalso. apply not_true_iff_false in Hx. apply Hx.
      apply eqb_zero. eauto.
    - destruct (SFinteger_finite s m e z Hz) as [Hs Hnz]. rewrite Hs.
      split; [| split; [reflexivity | exact Hnz]].
      destruct s; cbn [negb].
      + apply not_true_iff_false. rewrite gtb_zero.
        intros [H | [m' [e' H]]]; congruence.
      + apply gtb_zero. eauto. }
  destruct Hg as [Hg [Hs Hnz]]. split; [exact Hs |]. rewrite Hg.
  destruct (z <? 0)%Z eqn:E; cbn.
  - apply Z.ltb_lt in E. split; split; auto; try discriminate; lia.
  - apply Z.ltb_ge in E. split; split; auto; try discriminate; lia.
Qed.


Lemma enUS_printsAsEnUS : Double.printsAsEnUS Double.enUS.
Proof. intros x text H. exact H. Defined.



(** The percentage printed is the tenth nearest to the double computed:
    for 2000 and 2003 this is the double just below 3/20, printed [0.1],
    where exact arithmetic has a tie, printed [0.2]. *)
Example formatDiff_rounds_the_double :
  Double.formatDiff Double.enUS 2000 2003 = Some (lit "+3 (+0.1%)")
  /\ formatDiff 2000 2003 = lit "+3 (+0.2%)".
Proof. split; vm_compute; reflexivity. Qed.

(** ** getStatusEmoji: examples *)

Lemma mixedMetrics_nonNegative : Double.nonNegative Double.mixedMetrics.
Proof.
  intros m [<- | [<- | [<- | []]]]; split; reflexivity.
Defined.

Lemma C1_witness :
  Double.nonNegative Double.mixedMetrics
  /\ ~ Double.removedCondition Double.mixedMetrics
  /\ ~ Double.newCondition Double.mixedMetrics
  /\ Double.regressionCondition Double.mixedMetrics 10
  /\ Double.improvementCondition Double.mixedMetrics 10
  /\ Double.getStatusEmoji Double.mixedMetrics 10 = Regression.
Proof.
  assert (Hrem : ~ Double.removedCondition Double.mixedMetrics)
    by (rewrite <- double_isRemoved_spec; vm_compute; discriminate).
  assert (Hnew : ~ Double.newCondition Double.mixedMetrics)
    by (rewrite <- double_isNew_spec; vm_compute; discriminate).
  pose proof (C1_regression_improvement_unchanged Double.mixedMetrics 10
                mixedMetrics_nonNegative Hrem Hnew) as [Hreg _].
  assert (Hr : Double.regressionCondition Double.mixedMetrics 10).
  { right. exists (gates Double.mixedMetrics), ((120 - 100) / 100)%float.
    split; [left; reflexivity |]. split; [| reflexivity].
    right. split; [reflexivity |]. split; reflexivity. }
  assert (Hi : Double.improvementCondition Double.mixedMetrics 10).
  { exists (daGas Double.mixedMetrics), ((50 - 100) / 100)%float.
    split; [right; left; reflexivity |]. split; [| reflexivity].
    right. split; [reflexivity |]. split; reflexivity. }
  split; [exact mixedMetrics_nonNegative |].
  split; [exact Hrem |]. split; [exact Hnew |].
  split; [exact Hr |]. split; [exact Hi |].
  apply Hreg. exact Hr.
Defined.

(** C1, where the claim's sentence fails: with the finite, non-negative
    values 1e-200 and 1e200 for the gates the quotient overflows to
    [Infinity]; the triple is a regression under the threshold 5 although
    no base is 0 and no finite change exceeds 5/100. *)
Theorem C1_counterexample :
  Double.nonNegative Double.overflowMetrics
  /\ ~ Double.removedCondition Double.overflowMetrics
  /\ ~ Double.newCondition Double.overflowMetrics
  /\ is_finite 1e-200 = true /\ is_finite 1e200 = true
  /\ Double.getStatusEmoji Double.overflowMetrics 5 = Regression
  /\ ~ Double.zeroBaseRegression Double.overflowMetrics 5.
Proof.
  split.
  { intros m [<- | [<- | [<- | []]]]; split; reflexivity. }
  split; [rewrite <- double_isRemoved_spec; vm_compute; discriminate |].
  split; [rewrite <- double_isNew_spec; vm_compute; discriminate |].
  split; [reflexivity |]. split; [reflexivity |].
  split; [reflexivity |].
  intros [[m [Hin [Hz Hp]]] | [m [c [Hin [Hf Hg]]]]].
  - destruct Hin as [<- | [<- | [<- | []]]]; vm_compute in Hz, Hp;
      discriminate.
  - destruct Hin as [<- | [<- | [<- | []]]];
      destruct Hf as [[Hm [Hp ->]] | [Hm [-> Hfin]]];
      vm_compute in Hm; try discriminate Hm;
      try (vm_compute in Hg; discriminate Hg);
      try (vm_compute in Hfin; discriminate Hfin).
Qed.

(** The same change against the same threshold, in doubles and in exact
    arithmetic: 3/1000 exceeds the hundredth of the double nearest to 0.3,
    but the two doubles computed are equal. *)
Example rounding_at_the_threshold :
  Double.getStatusEmoji Double.smallChange 0.3 = Unchanged
  /\ regressionCondition (Double.exactMetrics Double.smallChange)
       (Double.valueOf 0.3)
  /\ getStatusEmoji (Double.exactMetrics Double.smallChange)
       (Double.valueOf 0.3)
     = Regression.
Proof.
  split; [reflexivity |]. split; [| vm_compute; reflexivity].
  right. exists (gates (Double.exactMetrics Double.smallChange)).
  exists ((pr (gates (Double.exactMetrics Double.smallChange))
           - main (gates (Double.exactMetrics Double.smallChange)))
          / main (gates (Double.exactMetrics Double.smallChange))).
  split; [left; reflexivity |]. split; [| vm_compute; reflexivity].
  right. split; [vm_compute; discriminate | reflexivity].
Qed.

(** ** The same number on both sides *)

Lemma zero_is_finite (d : float) : (d =? 0)%float = true -> is_finite d = true.
Proof.
  intros H. apply is_finite_spec. left. apply eqb_zero. exact H.
Qed.

Lemma zero_not_infinity (d : float) :
  (d =? 0)%float = true -> (d =? infinity)%float = false.
Proof.
  intros H. apply eqb_zero in H. destruct H as [s H].
  rewrite eqb_spec, H, Prim2SF_infinity. reflexivity.
Qed.

Lemma zero_not_positive (d : float) :
  (d =? 0)%float = true -> Double.gtb d 0 = false.
Proof.
  intros H. destruct (Double.gtb d 0) eqn:E; [| reflexivity].
  rewrite (positive_not_zero d E) in H. discriminate.
Qed.

(** The change of a metric that is the same finite number on both sides
    is zero. *)
Lemma double_diffPct_same (m : MetricPair float) :
  is_finite (main m) = true -> (main m =? pr m)%float = true ->
  (Double.diffPct m =? 0)%float = true.
Proof.
  intros Hf He. unfold Double.diffPct.
  destruct (eqb_finite _ _ Hf He) as [[Hm Hp] | [Hm E]].
  - rewrite Hm, (zero_not_positive _ Hp). reflexivity.
  - rewrite Hm. rewrite <- E. 
    pose proof (sub_diag _ Hf) as Hz. apply eqb_zero in Hz.
    destruct Hz as [s Hz].
    apply eqb_zero. rewrite div_spec, Hz.
    apply is_finite_spec in Hf.
    destruct Hf as [[s' Hx] | [s' [mm [e Hx]]]].
    + exfalso. apply not_true_iff_false in Hm. apply Hm.
      apply eqb_zero. eauto.
    + rewrite Hx. cbn. eauto.
Qed.

(** A threshold that is not negative, divided by 100, is not above zero
    and its opposite is not below; a quotient below zero is below every
    zero. *)
Lemma threshold_nonNegative (T d : float) :
  (0 <=? T)%float = true -> (d =? 0)%float = true ->
  Double.gtb d (T / 100) = false /\ (d <? - (T / 100))%float = false.
Proof.
  intros HT Hd. apply eqb_zero in Hd. destruct Hd as [sd Hd].
  unfold Double.gtb. rewrite !ltb_spec, opp_spec, div_spec, Hd.
  assert (Hc : Prim2SF 100 = S754_finite false 7036874417766400 (-46))
    by reflexivity.
  apply leb_zero in HT.
  destruct HT as [[s HT] | [HT | [m [e HT]]]].
  - rewrite HT, Hc. cbn. auto.
  - rewrite HT, Hc. cbn. auto.
  - assert (Hs : SFsign (Prim2SF T) = Some false) by (rewrite HT; reflexivity).
    assert (Hs' : SFsign (Prim2SF 100) = Some false) by reflexivity.
    destruct (SFdiv_sign _ _ _ _ Hs Hs') as [Hq | Hq].
    + rewrite Hq. cbn. auto.
    + destruct (SF64div (Prim2SF T) (Prim2SF 100)) as [s' | s' | | s' m' e'];
        cbn in Hq; try discriminate Hq; injection Hq as ->; cbn; auto.
Qed.

Lemma threshold_negative (T d : float) :
  (T / 100 <? 0)%float = true -> (d =? 0)%float = true ->
  Double.gtb d (T / 100) = true.
Proof.
  intros HT Hd. apply eqb_zero in Hd. destruct Hd as [sd Hd].
  unfold Double.gtb. rewrite ltb_spec in *. rewrite Prim2SF_zero in HT.
  rewrite Hd.
  destruct (Prim2SF (T / 100)) as [s' | s' | | s' m' e'];
    cbn in *; try discriminate HT; try destruct s'; auto.
Qed.

Lemma double_same_not_removed_or_new (M : Metrics float) :
  Double.sameOnBothSides M ->
  Double.isRemoved M = false /\ Double.isNew M = false.
Proof.
  intros H.
  assert (Hz : forall m, In m (Double.metricsOf M) ->
            (Double.gtb (main m) 0 = true -> (pr m =? 0)%float = false)
            /\ (Double.gtb (pr m) 0 = true -> (main m =? 0)%float = false)).
  { intros m Hin. destruct (H m Hin) as [Hf He].
    destruct (eqb_finite _ _ Hf He) as [[Hm Hp] | [Hm E]].
    - split; intros Hg; apply positive_not_zero in Hg; congruence.
    - rewrite <- E. split; intros Hg; apply positive_not_zero; exact Hg. }
  apply double_all_metricsOf in Hz. destruct Hz as [Hg [Hd Hl]].
  split; apply not_true_iff_false.
  - rewrite double_isRemoved_spec. intros [Hall Hex].
    apply double_all_metricsOf in Hall. apply double_in_metricsOf in Hex.
    destruct Hall as [A1 [A2 A3]].
    destruct Hex as [E | [E | E]];
      [apply Hg in E | apply Hd in E | apply Hl in E]; congruence.
  - rewrite double_isNew_spec. intros [Hall Hex].
    apply double_all_metricsOf in Hall. apply double_in_metricsOf in Hex.
    destruct Hall as [A1 [A2 A3]].
    destruct Hex as [E | [E | E]];
      [apply Hg in E | apply Hd in E | apply Hl in E]; congruence.
Qed.

Lemma double_same_status (M : Metrics float) (T : float) :
  Double.sameOnBothSides M ->
  ((0 <=? T)%float = true -> Double.getStatusEmoji M T = Unchanged)
  /\ ((T / 100 <? 0)%float = true -> Double.getStatusEmoji M T = Regression).
Proof.
  intros H.
  destruct (double_same_not_removed_or_new M H) as [Hrem Hnew].
  rewrite double_getStatusEmoji_cases, Hrem, Hnew.
  assert (Hz : forall m, In m (Double.metricsOf M) ->
            (Double.diffPct m =? 0)%float = true).
  { intros m Hin. destruct (H m Hin). apply double_diffPct_same; assumption. }
  apply double_all_metricsOf in Hz. destruct Hz as [Hg [Hd Hl]].
  unfold Double.hasRegression, Double.hasImprovement, Double.diffPcts.
  rewrite !existsb_filter. cbn [existsb].
  rewrite !(zero_is_finite _ Hg), !(zero_is_finite _ Hd),
    !(zero_is_finite _ Hl).
  rewrite !(zero_not_infinity _ Hg), !(zero_not_infinity _ Hd),
    !(zero_not_infinity _ Hl).
  cbn [andb orb]. split; intros HT.
  - destruct (threshold_nonNegative T _ HT Hg) as [-> ->].
    destruct (threshold_nonNegative T _ HT Hd) as [-> ->].
    destruct (threshold_nonNegative T _ HT Hl) as [-> ->].
    reflexivity.
  - rewrite (threshold_negative T _ HT Hg). reflexivity.
Qed.

(** X10. A function whose three metrics are the same finite number on
    both sides is classified Unchanged under every threshold that is not
    negative, and as a regression under every threshold whose hundredth is
    negative as a double; its three Diff cells are empty, whatever the host
    prints. *)
Theorem X10_same_on_both_sides (L : float -> option jsstring)
  (M : Metrics float) (T : float) :
  Double.sameOnBothSides M ->
  ((0 <=? T)%float = true -> Double.getStatusEmoji M T = Unchanged)
  /\ ((T / 100 <? 0)%float = true -> Double.getStatusEmoji M T = Regression)
  /\ (forall m, In m (Double.metricsOf M) ->
        Double.formatDiff L (main m) (pr m) = Some []).
Proof.
  intros H. destruct (double_same_status M T H) as [Hu Hr].
  split; [exact Hu |]. split; [exact Hr |].
  intros m Hin. destruct (H m Hin) as [Hf He].
  apply double_formatDiff_same; assumption.
Qed.

Lemma X10_witness :
  Double.sameOnBothSides
    {| gates := Double.pair 100 100; daGas := Double.pair 7 7;
       l2Gas := Double.pair 0 0 |}
  /\ Double.getStatusEmoji
       {| gates := Double.pair 100 100; daGas := Double.pair 7 7;
          l2Gas := Double.pair 0 0 |} 0 = Unchanged
  /\ Double.getStatusEmoji
       {| gates := Double.pair 100 100; daGas := Double.pair 7 7;
          l2Gas := Double.pair 0 0 |} (-1) = Regression
  /\ Double.getStatusEmoji
       {| gates := Double.pair 100 100; daGas := Double.pair 7 7;
          l2Gas := Double.pair 0 0 |} (-5e-324) = Unchanged
  /\ Double.formatDiff Double.enUS 100 100 = Some [].
Proof.
  assert (H : Double.sameOnBothSides
                {| gates := Double.pair 100 100; daGas := Double.pair 7 7;
                   l2Gas := Double.pair 0 0 |}).
  { intros m [<- | [<- | [<- | []]]]; split; reflexivity. }
  destruct (X10_same_on_both_sides Double.enUS _ 0 H) as [H0 _].
  destruct (X10_same_on_both_sides Double.enUS _ (-1) H) as [_ [H1 H2]].
  split; [exact H |].
  split; [apply H0; reflexivity |].
  split; [apply H1; reflexivity |].
  split; [reflexivity |].
  apply (H2 (Double.pair 100 100)). left. reflexivity.
Defined.

(** ** A report against itself *)

Lemma eqb_refl_finite (x : float) :
  is_finite x = true -> (x =? x)%float = true.
Proof.
  intros H. rewrite eqb_spec. apply is_finite_spec in H.
  destruct H as [[s E] | [s [m [e E]]]]; rewrite E.
  - reflexivity.
  - apply SFeqb_finite_refl.
Qed.

(** X14. Comparing a document with itself: every row has the same number
    on both sides, so when the numbers of the row are finite as doubles,
    under every threshold that is not negative the function is classified
    Unchanged and its Diff cells are empty. *)
Theorem X14_document_against_itself (L : float -> option jsstring)
  (doc : value) (comparison : list (jsstring * Metrics value))
  (k : jsstring) (raw : Metrics value) (M : Metrics Q) (T : float) :
  buildComparison doc doc = Returns comparison ->
  In (k, raw) (sortedRows comparison) ->
  numericMetrics raw = Some M ->
  (forall m, In m (Double.metricsOf (Double.ofMetrics M)) ->
     is_finite (main m) = true) ->
  (0 <=? T)%float = true ->
  Double.getStatusEmoji (Double.ofMetrics M) T = Unchanged
  /\ (forall m, In m (Double.metricsOf (Double.ofMetrics M)) ->
        Double.formatDiff L (main m) (pr m) = Some []).
Proof.
  intros H Hrow Hnum Hfin HT.
  destruct (buildComparison_returns _ _ _ H) as [Em [_ Hloop]].
  rewrite Em in Hloop.
  assert (Hraw : raw = rawMetrics (firstNamed k (entriesOf doc))
                         (firstNamed k (entriesOf doc))).
  { apply sortedRows_In in Hrow. destruct Hrow as [_ Hl].
    apply lookup_In in Hl.
    apply (compareNames_entries _ _ _ _ _ Hloop); [intros ? ? [] | exact Hl]. }
  destruct (numericMetrics_sides _ _ Hnum (@main) (or_introl eq_refl))
    as [Hg [Hd Hl]].
  destruct (numericMetrics_sides _ _ Hnum (@pr) (or_intror eq_refl))
    as [Hg' [Hd' Hl']].
  subst raw.
  cbn [rawMetrics gates daGas l2Gas main pr] in Hg, Hd, Hl, Hg', Hd', Hl'.
  rewrite Hg in Hg'. rewrite Hd in Hd'. rewrite Hl in Hl'.
  inversion Hg' as [Eg]. inversion Hd' as [Ed]. inversion Hl' as [El].
  assert (Hsame : Double.sameOnBothSides (Double.ofMetrics M)).
  { intros m Hin. split; [apply Hfin; exact Hin |].
    pose proof (Hfin m Hin) as Hf.
    unfold Double.metricsOf, Double.ofMetrics in Hin.
    cbn [gates daGas l2Gas] in Hin.
    destruct Hin as [<- | [<- | [<- | []]]];
      unfold Double.ofPair in *; cbn [main pr] in *;
      rewrite <- ?Eg, <- ?Ed, <- ?El; apply eqb_refl_finite; exact Hf. }
  destruct (double_same_status _ T Hsame) as [Hu _].
  split; [apply Hu; exact HT |].
  intros m Hin. destruct (Hsame m Hin) as [Hf He].
  apply double_formatDiff_same; assumption.
Qed.

Lemma X14_witness :
  buildComparison duplicateBase duplicateBase
  = Returns
      [(lit "a",
        rawMetrics (functionResult "a" 100 7 9)
          (functionResult "a" 100 7 9))]
  /\ Double.getStatusEmoji
       {| gates := Double.pair 100 100; daGas := Double.pair 7 7;
          l2Gas := Double.pair 9 9 |} 0
     = Unchanged.
Proof.
  assert (H : buildComparison duplicateBase duplicateBase
              = Returns
                  [(lit "a",
                    rawMetrics (functionResult "a" 100 7 9)
                      (functionResult "a" 100 7 9))])
    by (vm_compute; reflexivity).
  split; [exact H |].
  refine (proj1 (X14_document_against_itself Double.enUS _ _ (lit "a")
                   (rawMetrics (functionResult "a" 100 7 9)
                      (functionResult "a" 100 7 9))
                   {| gates := metricPair 100 100; daGas := metricPair 7 7;
                      l2Gas := metricPair 9 9 |} 0 H _ eq_refl _ _)).
  - vm_compute. left. reflexivity.
  - intros m [<- | [<- | [<- | []]]]; reflexivity.
  - reflexivity.
Defined.

(** ** The gate counts of a profiled interaction *)

Lemma add_zero_r (x z : float) :
  (z =? 0)%float = true ->
  ((x =? 0)%float = false -> (x + z)%float = x)
  /\ ((x =? 0)%float = true -> (x + z =? 0)%float = true).
Proof.
  intros Hz. apply eqb_zero in Hz. destruct Hz as [sz Hz]. split; intros Hx.
  - apply Prim2SF_inj. rewrite add_spec, Hz.
    destruct (Prim2SF x) as [s | s | | s m e] eqn:Ex; try reflexivity.
    exfalso. apply not_true_iff_false in Hx. apply Hx. apply eqb_zero.
    rewrite Ex. eauto.
  - apply eqb_zero in Hx. destruct Hx as [sx Hx]. apply eqb_zero.
    rewrite add_spec, Hx, Hz. destruct sx, sz; cbn; eauto.
Qed.

Lemma add_zero_l (z c : float) :
  (z =? 0)%float = true -> (c =? 0)%float = false -> (z + c)%float = c.
Proof.
  intros Hz Hc. apply eqb_zero in Hz. destruct Hz as [sz Hz].
  apply Prim2SF_inj. rewrite add_spec, Hz.
  destruct (Prim2SF c) as [s | s | | s m e] eqn:Ec; try reflexivity.
  exfalso. apply not_true_iff_false in Hc. apply Hc. apply eqb_zero.
  rewrite Ec. eauto.
Qed.

Lemma sameNumber_add_zero (a b z : float) :
  (z =? 0)%float = true ->
  Double.sameNumber a b -> Double.sameNumber a (b + z).
Proof.
  intros Hz [<- | [Ha Hb]].
  - destruct (a =? 0)%float eqn:Ea.
    + right. split; [exact Ea |]. apply (add_zero_r a z Hz). exact Ea.
    + left. symmetry. apply (add_zero_r a z Hz). exact Ea.
  - right. split; [exact Ha |]. apply (add_zero_r b z Hz). exact Hb.
Qed.

Lemma sameNumber_add_zeros (a b z z' : float) :
  (z =? 0)%float = true -> (z' =? 0)%float = true ->
  Double.sameNumber a b -> Double.sameNumber (a + z) (b + z').
Proof.
  intros Hz Hz' [<- | [Ha Hb]].
  - destruct (a =? 0)%float eqn:Ea.
    + right. split; [apply (add_zero_r a z Hz) | apply (add_zero_r a z' Hz')];
        exact Ea.
    + left. rewrite (proj1 (add_zero_r a z Hz) Ea).
      rewrite (proj1 (add_zero_r a z' Hz') Ea). reflexivity.
  - right. split; [apply (add_zero_r a z Hz) | apply (add_zero_r b z' Hz')];
      assumption.
Qed.

Lemma sameNumber_add (a b c : float) :
  (c =? 0)%float = false ->
  Double.sameNumber a b -> Double.sameNumber (a + c) (b + c).
Proof.
  intros Hc [<- | [Ha Hb]]; [left; reflexivity |].
  left. rewrite (add_zero_l a c Ha Hc), (add_zero_l b c Hb Hc). reflexivity.
Qed.

Lemma sums_of_counts (steps : list Double.Step) :
  (forall step c,
     In step steps -> Double.stepGateCount step = Some c ->
     is_nan c = false) ->
  forall a b,
    Double.sameNumber a b ->
    Double.sameNumber
      (fold_left PrimFloat.add (Double.definedCounts steps) a)
      (fold_left PrimFloat.add
         (map Double.gateCount (Double.gateCounts steps)) b).
Proof.
  induction steps as [| step rest IH]; intros Hnan a b Hab; [exact Hab |].
  unfold Double.definedCounts, Double.gateCounts in *.
  cbn [flat_map map Double.gateCount]. rewrite fold_left_app.
  cbn [fold_left].
  assert (Hrest : forall step c,
            In step rest -> Double.stepGateCount step = Some c ->
            is_nan c = false)
    by (intros st c Hin; apply Hnan; right; exact Hin).
  apply (IH Hrest). unfold Double.countOrZero.
  destruct (Double.stepGateCount step) as [c |] eqn:Ec; cbn [fold_left].
  - rewrite (Hnan step c (or_introl eq_refl) Ec), orb_false_r.
    destruct (c =? 0)%float eqn:Ez.
    + apply sameNumber_add_zeros; [exact Ez | reflexivity | exact Hab].
    + apply sameNumber_add; assumption.
  - apply sameNumber_add_zero; [reflexivity | exact Hab].
Qed.

(** X15. When no step of a profiled interaction has the gate count
    [NaN], the total gate count of the result is the sum of the gate counts
    listed per circuit: the steps without a gate count, which the total
    leaves out, are listed with 0. *)
Theorem X15_total_is_sum_of_gate_counts (steps : list Double.Step) :
  (forall step c,
     In step steps -> Double.stepGateCount step = Some c ->
     is_nan c = false) ->
  Double.sameNumber (Double.totalGateCount steps)
    (Double.sumArray (map Double.gateCount (Double.gateCounts steps))).
Proof.
  intros H. unfold Double.totalGateCount, Double.sumArray.
  apply sums_of_counts; [exact H | left; reflexivity].
Qed.

Lemma X15_witness :
  (forall step c,
     In step Double.profiledSteps -> Double.stepGateCount step = Some c ->
     is_nan c = false)
  /\ Double.totalGateCount Double.profiledSteps = 300%float
  /\ Double.sumArray
       (map Double.gateCount (Double.gateCounts Double.profiledSteps))
     = 300%float
  /\ Double.sameNumber (Double.totalGateCount Double.profiledSteps)
       (Double.sumArray
          (map Double.gateCount (Double.gateCounts Double.profiledSteps))).
Proof.
  assert (H : forall step c,
            In step Double.profiledSteps ->
            Double.stepGateCount step = Some c -> is_nan c = false).
  { intros step c [<- | [<- | [<- | []]]]; cbn; intros [= <-]; reflexivity. }
  split; [exact H |]. split; [reflexivity |]. split; [reflexivity |].
  apply (X15_total_is_sum_of_gate_counts Double.profiledSteps H).
Defined.

(** A gate count that is [NaN] stays in the total and is listed as 0. *)
Example gate_count_NaN :
  is_nan (Double.totalGateCount
            [{| Double.functionName := lit "f";
                Double.stepGateCount := Some nan |}]) = true
  /\ Double.sumArray
       (map Double.gateCount
          (Double.gateCounts
             [{| Double.functionName := lit "f";
                 Double.stepGateCount := Some nan |}]))
     = 0%float.
Proof. split; reflexivity. Qed.

(** ** The sign of a difference *)

Lemma shr_1_nonneg (mrs : shr_record) :
  (0 <= shr_m mrs)%Z -> (0 <= shr_m (shr_1 mrs))%Z.
Proof.
  destruct mrs as [m r s]. destruct m as [| p | p]; cbn; try lia;
    destruct p; cbn; lia.
Qed.

Lemma iter_pos_invariant {A : Type} (P : A -> Prop) (f : A -> A) :
  (forall x, P x -> P (f x)) ->
  forall n x, P x -> P (iter_pos f n x).
Proof. intros Hf. induction n; cbn; auto. Qed.

Lemma shr_fexp_nonneg (m e : Z) (l : location) :
  (0 <= m)%Z -> (0 <= shr_m (fst (shr_fexp prec emax m e l)))%Z.
Proof.
  intros Hm. unfold shr_fexp, shr.
  assert (H0 : (0 <= shr_m (shr_record_of_loc m l))%Z).
  { destruct l as [| []]; exact Hm. }
  destruct (fexp prec emax (Zdigits2 m + e) - e)%Z; cbn [fst]; auto.
  apply (iter_pos_invariant (fun mrs => (0 <= shr_m mrs)%Z)); auto.
  apply shr_1_nonneg.
Qed.

Lemma round_nearest_even_nonneg (m : Z) (l : location) :
  (0 <= m)%Z -> (0 <= round_nearest_even m l)%Z.
Proof.
  intros Hm. unfold round_nearest_even.
  destruct l as [| []]; try destruct (Z.even m); lia.
Qed.

(** Rounding a mantissa that is not negative gives a number of the sign
    asked for, never [NaN]. *)
Lemma binary_round_aux_nonneg (sx : bool) (mx ex : Z) (lx : location) :
  (0 <= mx)%Z ->
  SFsign (binary_round_aux prec emax sx mx ex lx) = Some sx.
Proof.
  intros Hm. unfold binary_round_aux.
  pose proof (shr_fexp_nonneg mx ex lx Hm) as H1.
  destruct (shr_fexp prec emax mx ex lx) as [mrs e']. cbn [fst] in H1.
  pose proof (shr_fexp_nonneg _ e' loc_Exact
                (round_nearest_even_nonneg _ (loc_of_shr_record mrs) H1))
    as H2.
  destruct (shr_fexp prec emax _ e' loc_Exact) as [mrs' e''].
  cbn [fst] in H2.
  destruct (shr_m mrs'); try reflexivity; try lia.
  destruct (e'' <=? emax - prec)%Z; reflexivity.
Qed.

Lemma binary_normalize_sign (z e : Z) :
  z <> 0%Z ->
  SFsign (binary_normalize prec emax z e false) = Some (z <? 0)%Z.
Proof.
  intros Hz. unfold binary_normalize, binary_round.
  destruct z as [| p | p]; [congruence | |];
    destruct (shl_align p e _) as [mz ez];
    apply binary_round_aux_nonneg; lia.
Qed.

(** Size of the mantissa of a double. *)
Lemma digits2_pos_bounds (m : positive) :
  (2 ^ (Z.pos (digits2_pos m) - 1) <= Z.pos m < 2 ^ Z.pos (digits2_pos m))%Z.
Proof.
  induction m as [m IH | m IH |]; cbn [digits2_pos].
  - rewrite Pos2Z.inj_succ.
    replace (Z.succ (Z.pos (digits2_pos m)) - 1)%Z
      with (Z.succ (Z.pos (digits2_pos m) - 1)) by lia.
    rewrite !Z.pow_succ_r by lia. lia.
  - rewrite Pos2Z.inj_succ.
    replace (Z.succ (Z.pos (digits2_pos m)) - 1)%Z
      with (Z.succ (Z.pos (digits2_pos m) - 1)) by lia.
    rewrite !Z.pow_succ_r by lia. lia.
  - cbn. lia.
Qed.

Lemma valid_finite (x : float) (s : bool) (m : positive) (e : Z) :
  Prim2SF x = S754_finite s m e ->
  (emin <= e)%Z
  /\ (Z.pos m < 2 ^ prec)%Z
  /\ ((emin < e)%Z -> (2 ^ (prec - 1) <= Z.pos m)%Z).
Proof.
  intros E. pose proof (Prim2SF_valid x) as V. rewrite E in V.
  unfold SpecFloat.valid_binary, bounded, canonical_mantissa, fexp in V.
  apply andb_true_iff in V. destruct V as [V _]. apply Z.eqb_eq in V.
  pose proof (digits2_pos_bounds m) as [Hlo Hhi].
  assert (Hd : (Z.pos (digits2_pos m) <= prec)%Z) by lia.
  split; [lia |]. split.
  - apply Z.lt_le_trans with (2 ^ Z.pos (digits2_pos m))%Z; [exact Hhi |].
    apply Z.pow_le_mono_r; lia.
  - intros He. assert (Z.pos (digits2_pos m) = prec) as <- by lia.
    exact Hlo.
Qed.

Lemma iter_xO_value (m d : positive) :
  Z.pos (Pos.iter xO m d) = (Z.pos m * 2 ^ Z.pos d)%Z.
Proof.
  induction d as [| d IH] using Pos.peano_ind.
  - cbn [Pos.iter]. rewrite Pos2Z.inj_xO. lia.
  - rewrite Pos.iter_succ, Pos2Z.inj_succ, Z.pow_succ_r by lia.
    rewrite Pos2Z.inj_xO, IH. lia.
Qed.

Lemma shl_align_value (m : positive) (e ez : Z) :
  (ez <= e)%Z ->
  Z.pos (fst (shl_align m e ez)) = (Z.pos m * 2 ^ (e - ez))%Z.
Proof.
  intros He. unfold shl_align.
  destruct (ez - e)%Z as [| d | d] eqn:Ed; cbn [fst].
  - replace (e - ez)%Z with 0%Z by lia. lia.
  - lia.
  - replace (e - ez)%Z with (Z.pos d) by lia.
    apply iter_xO_value.
Qed.

Lemma SFltb_positive (mx my : positive) (ex ey : Z) :
  SFltb (S754_finite false mx ex) (S754_finite false my ey) = true ->
  (ex < ey)%Z \/ (ex = ey /\ (Z.pos mx < Z.pos my)%Z).
Proof.
  unfold SFltb, SFcompare.
  destruct (Z.compare ex ey) eqn:Ee.
  - apply Z.compare_eq in Ee.
    destruct (Pos.compare_cont Eq mx my) eqn:Em; try discriminate.
    intros _. right. split; [exact Ee |].
    change (Pos.compare_cont Eq mx my) with (Pos.compare mx my) in Em.
    apply Pos.compare_lt_iff in Em. apply Pos2Z.pos_lt_pos. exact Em.
  - intros _. left. apply Z.compare_lt_iff. exact Ee.
  - discriminate.
Qed.

(** Aligned at the smaller exponent, the mantissa of the smaller of two
    positive doubles is the smaller one. *)
Lemma aligned_lt (x y : float) (mx my : positive) (ex ey : Z) :
  Prim2SF x = S754_finite false mx ex ->
  Prim2SF y = S754_finite false my ey ->
  (x <? y)%float = true ->
  (Z.pos mx * 2 ^ (ex - Z.min ex ey) < Z.pos my * 2 ^ (ey - Z.min ex ey))%Z.
Proof.
  intros Hx Hy Hlt. rewrite ltb_spec, Hx, Hy in Hlt.
  destruct (valid_finite x _ _ _ Hx) as [Hex [Hmx _]].
  destruct (valid_finite y _ _ _ Hy) as [Hey [_ Hmy]].
  assert (Hp : (2 ^ prec = 2 * 2 ^ (prec - 1))%Z) by reflexivity.
  apply SFltb_positive in Hlt. destruct Hlt as [Hlt | [-> Hlt]].
  - rewrite Z.min_l by lia. rewrite Z.sub_diag, Z.pow_0_r.
    assert (H2 : (2 ^ 1 <= 2 ^ (ey - ex))%Z)
      by (apply Z.pow_le_mono_r; lia).
    rewrite Z.pow_1_r in H2.
    assert (Hn : (2 ^ (prec - 1) <= Z.pos my)%Z) by (apply Hmy; lia).
    nia.
  - rewrite Z.min_id, Z.sub_diag, Z.pow_0_r. lia.
Qed.

(** The difference of two positive doubles is never [NaN]; it is not
    negative when the first is the larger and not positive when it is the
    smaller. *)
Lemma sub_sign_positive (x y : float) (mx my : positive) (ex ey : Z) :
  Prim2SF x = S754_finite false mx ex ->
  Prim2SF y = S754_finite false my ey ->
  ((x <? y)%float = true -> SFsign (Prim2SF (y - x)) = Some false)
  /\ ((y <? x)%float = true -> SFsign (Prim2SF (y - x)) = Some true).
Proof.
  intros Hx Hy.
  assert (Hsub : Prim2SF (y - x)
                 = binary_normalize prec emax
                     (Z.pos my * 2 ^ (ey - Z.min ex ey)
                      - Z.pos mx * 2 ^ (ex - Z.min ex ey)) (Z.min ex ey)
                     false).
  { rewrite sub_spec, Hx, Hy. unfold SF64sub, SFsub. cbn [cond_Zopp].
    rewrite (Z.min_comm ey ex).
    rewrite !shl_align_value by lia. reflexivity. }
  rewrite Hsub. split; intros Hlt.
  - pose proof (aligned_lt x y _ _ _ _ Hx Hy Hlt) as H.
    rewrite binary_normalize_sign by lia.
    f_equal. lia.
  - pose proof (aligned_lt y x _ _ _ _ Hy Hx Hlt) as H.
    rewrite (Z.min_comm ey ex) in H.
    rewrite binary_normalize_sign by lia.
    f_equal. lia.
Qed.

Lemma positive_finite (x : float) :
  is_finite x = true -> (0 <=? x)%float = true -> (x =? 0)%float = false ->
  exists m e, Prim2SF x = S754_finite false m e.
Proof.
  intros Hf Hle Hz. apply is_finite_spec in Hf. apply leb_zero in Hle.
  apply not_true_iff_false in Hz. rewrite eqb_zero in Hz.
  destruct Hle as [H | [H | H]]; [tauto | | exact H].
  destruct Hf as [[s E] | [s [m [e E]]]]; congruence.
Qed.

Lemma lt_not_zero (x y : float) :
  (0 <=? x)%float = true -> (x <? y)%float = true -> (y =? 0)%float = false.
Proof.
  intros Hx Hlt. apply not_true_iff_false. rewrite eqb_zero. intros [s E].
  rewrite ltb_spec, E in Hlt. apply leb_zero in Hx.
  destruct Hx as [[s' H] | [H | [m [e H]]]]; rewrite H in Hlt;
    discriminate Hlt.
Qed.

Lemma signed_not_NaN_positive (d : float) :
  SFsign (Prim2SF d) = Some false -> (d =? 0)%float = false ->
  Double.gtb d 0 = true.
Proof.
  intros Hs Hz. apply gtb_zero.
  apply not_true_iff_false in Hz. rewrite eqb_zero in Hz.
  destruct (Prim2SF d) as [s | s | | s m e]; cbn in Hs;
    try discriminate Hs; injection Hs as ->; eauto.
  exfalso. eauto.
Qed.

Lemma signed_negative (d : float) :
  SFsign (Prim2SF d) = Some true -> Double.gtb d 0 = false.
Proof.
  intros Hs. apply not_true_iff_false. rewrite gtb_zero.
  intros [H | [m [e H]]]; rewrite H in Hs; discriminate Hs.
Qed.

(** X13. For finite metrics that are not negative, in a host that prints
    as [en-US] does: the Diff cell is empty when base and candidate are
    equal; when the candidate is greater, a cell that is not empty starts
    with [+]; when it is smaller and the difference is an integer of
    magnitude at most 2^53, a cell that is not empty starts with [-]. *)
Theorem X13_diff_cell_sign (L : float -> option jsstring)
  (main pr : float) :
  Double.printsAsEnUS L ->
  is_finite main = true -> is_finite pr = true ->
  (0 <=? main)%float = true -> (0 <=? pr)%float = true ->
  ((main =? pr)%float = true -> Double.formatDiff L main pr = Some [])
  /\ ((main <? pr)%float = true ->
      forall text,
        Double.formatDiff L main pr = Some text ->
        text = [] \/ startsWith text (lit "+") = true)
  /\ ((pr <? main)%float = true ->
      forall text z,
        Double.formatDiff L main pr = Some text ->
        Double.integerValue (pr - main) = Some z ->
        (Z.abs z <= 2 ^ 53)%Z ->
        text = [] \/ startsWith text (lit "-") = true).
Proof.
  intros HL Hfm Hfp Hm Hp.
  split; [apply double_formatDiff_same; exact Hfm |].
  split.
  - intros Hlt text Htext.
    pose proof (lt_not_zero _ _ Hm Hlt) as Hpz.
    destruct (main =? 0)%float eqn:Emz.
    + rewrite double_formatDiff_zero_base in Htext by assumption.
      injection Htext as <-. right. reflexivity.
    + destruct (positive_finite _ Hfm Hm Emz) as [mx [ex Hx]].
      destruct (positive_finite _ Hfp Hp Hpz) as [my [ey Hy]].
      destruct (sub_sign_positive main pr _ _ _ _ Hx Hy) as [Hs _].
      specialize (Hs Hlt).
      destruct (pr - main =? 0)%float eqn:Ed.
      * unfold Double.formatDiff in Htext. rewrite Emz, Hpz, Ed in Htext.
        cbn in Htext. injection Htext as <-. left. reflexivity.
      * rewrite double_formatDiff_nonzero in Htext by assumption.
        destruct ((abs ((pr - main) / main * 100) <? 0.01)%float
                  && (abs (pr - main) <? 1)%float).
        { injection Htext as <-. left. reflexivity. }
        destruct (L (pr - main)%float) as [delta |]; [| discriminate].
        destruct (Double.toFixed _) as [percent |]; [| discriminate].
        injection Htext as <-. right.
        unfold Double.plusSign at 1.
        rewrite (signed_not_NaN_positive _ Hs Ed).
        apply startsWith_app.
  - intros Hlt text z Htext Hz Hbound.
    pose proof (lt_not_zero _ _ Hp Hlt) as Hmz.
    destruct (pr =? 0)%float eqn:Epz.
    + rewrite double_formatDiff_zero_candidate in Htext by assumption.
      injection Htext as <-. right. reflexivity.
    + destruct (positive_finite _ Hfm Hm Hmz) as [mx [ex Hx]].
      destruct (positive_finite _ Hfp Hp Epz) as [my [ey Hy]].
      destruct (sub_sign_positive main pr _ _ _ _ Hx Hy) as [_ Hs].
      specialize (Hs Hlt).
      destruct (pr - main =? 0)%float eqn:Ed.
      * unfold Double.formatDiff in Htext. rewrite Hmz, Epz, Ed in Htext.
        cbn in Htext. injection Htext as <-. left. reflexivity.
      * rewrite double_formatDiff_nonzero in Htext by assumption.
        destruct ((abs ((pr - main) / main * 100) <? 0.01)%float
                  && (abs (pr - main) <? 1)%float).
        { injection Htext as <-. left. reflexivity. }
        destruct (enUS_groupedInteger _ z Ed Hz Hbound)
          as [delta [Hdelta [g [Eg _]]]].
        rewrite (HL _ _ Hdelta) in Htext.
        destruct (Double.toFixed _) as [percent |]; [| discriminate].
        injection Htext as <-. right.
        unfold Double.plusSign. rewrite (signed_negative _ Hs).
        destruct (integer_sign _ z Ed Hz) as [Hsz _].
        rewrite Hs in Hsz. injection Hsz as Hsz. rewrite <- Hsz in Eg.
        rewrite Eg. cbn [app Double.minus]. rewrite <- app_assoc.
        apply startsWith_app.
Qed.

Lemma X13_witness :
  (1000 <? 1050)%float = true
  /\ Double.formatDiff Double.enUS 1000 1050 = Some (lit "+50 (+5.0%)")
  /\ startsWith (lit "+50 (+5.0%)") (lit "+") = true
  /\ (950 <? 1000)%float = true
  /\ Double.formatDiff Double.enUS 1000 950 = Some (lit "-50 (-5.0%)")
  /\ startsWith (lit "-50 (-5.0%)") (lit "-") = true.
Proof.
  destruct (X13_diff_cell_sign Double.enUS 1000 1050 enUS_printsAsEnUS
              eq_refl eq_refl eq_refl eq_refl) as [_ [Hup _]].
  destruct (X13_diff_cell_sign Double.enUS 1000 950 enUS_printsAsEnUS
              eq_refl eq_refl eq_refl eq_refl) as [_ [_ Hdown]].
  split; [reflexivity |]. split; [reflexivity |].
  split.
  { destruct (Hup eq_refl (lit "+50 (+5.0%)") eq_refl) as [E | E];
      [discriminate E | exact E]. }
  split; [reflexivity |]. split; [reflexivity |].
  destruct (Hdown eq_refl (lit "-50 (-5.0%)") (-50)%Z eq_refl eq_refl)
    as [E | E]; [vm_compute; discriminate | discriminate E | exact E].
Defined.
